(** * RS485 multi-port framing protocol (rs485multiSerial.ino)

    A shallow embedding of the sketch's protocol functions and the
    properties of its specification.

    Bytes are integers in [0, 256); a [byte *] is the memory seen from the
    pointer, a total map from index to byte (the AVR has one flat data
    space, so a load or store past the end of an array lands in whatever
    lies after it).  The two SoftwareSerial ports, their enable pins and the
    millisecond clock live in an explicit [World] threaded through every
    function.  Diagnostic output on [Serial] is not modelled. *)

From Stdlib Require Import ZArith List Bool Lia.
Import ListNotations.
Local Open Scope Z_scope.

(** ** Compile-time constants *)

Definition SEND_MODE : bool := true.     (* HIGH *)
Definition RECEIVE_MODE : bool := false. (* LOW *)
Definition ACK : Z := 0x06.              (* B00000110 *)
Definition NAK : Z := 0x15.              (* B00010101 *)
Definition END : Z := 0x77.              (* B1110111 *)
Definition START : Z := 0x55.            (* B01010101 *)
Definition MAXBYTES : Z := 32.
Definition BAUDRATE : Z := 57600.

Definition readWriteDelay : Z := 200000 / (BAUDRATE / 100).
Definition dataLength : Z := (2 * MAXBYTES) + 3.
Definition sendReceiveTimeout : Z := (dataLength * 3) * (100000 / BAUDRATE).

Definition PORT1 : Z := 1.
Definition PORT1_ENABLE : Z := 7.
Definition PORT2 : Z := 2.
Definition PORT2_ENABLE : Z := 8.

(** ** Bytes and arrays *)

(** Narrowing conversion of an [int] expression to [byte]. *)
Definition to_byte (v : Z) : Z := v mod 256.

(** [byte(~b)]: complement in [int], then narrowing. *)
Definition inverse (b : Z) : Z := to_byte (Z.lnot b).

Definition is_byte (b : Z) : Prop := 0 <= b < 256.

Definition array : Type := Z -> Z.

Definition upd (a : array) (i v : Z) : array :=
  fun j => if j =? i then v else a j.

(** The first [n] cells of an array. *)
Definition slice (a : array) (n : nat) : list Z :=
  map (fun k => a (Z.of_nat k)) (seq 0 n).

(** The array a caller passes when its data is the list [l]. *)
Definition of_list (l : list Z) : array :=
  fun j => if j <? 0 then 0 else nth (Z.to_nat j) l 0.

(** The values [i] takes in [for (int i = a; i < b; i += s)], [s > 0]. *)
Fixpoint for_range (n : nat) (a b s : Z) : list Z :=
  match n with
  | O => []
  | S n' => if a <? b then a :: for_range n' (a + s) b s else []
  end.

Definition for_indices (a b s : Z) : list Z :=
  for_range (Z.to_nat (b - a)) a b s.

(** ** Frame construction (the first half of [sendData]) *)

Definition sendData_numDataBytes (numBytes : Z) : Z :=
  to_byte (3 + (2 * numBytes)).

(** [tempData] after the marker stores and the data/inverse loop;
    [tempData0] is the content of the fresh local array. *)
Definition sendData_frame (tempData0 data : array) (numBytes : Z) : array :=
  let numDataBytes := sendData_numDataBytes numBytes in
  let t0 := upd tempData0 0 START in
  let t1 := upd t0 (numDataBytes - 1) END in
  let t2 := upd t1 (numDataBytes - 2) END in
  fold_left
    (fun t i => upd (upd t ((2 * i) + 1) (data i))
                    ((2 * i) + 2) (inverse (data i)))
    (for_indices 0 numBytes 1) t2.

(** ** Payload extraction (the ACK branch of [receiveData]) *)

(** [data] after [data[0] = (count - 2) / 2] and the copy loop. *)
Definition receiveData_extract (tempData data : array) (count : Z) : array :=
  let d0 := upd data 0 (to_byte (Z.quot (count - 2) 2)) in
  fold_left
    (fun d i => upd d (i + 1) (tempData ((2 * i) + 1)))
    (for_indices 0 (count - 2) 1) d0.

(** ** verifyData *)

Definition truthy (v : Z) : bool := negb (v =? 0).

(** The condition of the [if] in the pair loop.  [!=] binds tighter than
    [&], and [&] tighter than [&&], so the expression parses as
    [(d1[i] & (d1[i+1] != 0)) && (d2[i] & (d2[i+1] != 0)) && (d1[i] != d2[i])]. *)
Definition verifyData_mismatch (data1 data2 : array) (i : Z) : bool :=
  truthy (Z.land (data1 i) (Z.b2z (negb (data1 (i + 1) =? 0))))
  && truthy (Z.land (data2 i) (Z.b2z (negb (data2 (i + 1) =? 0))))
  && negb (data1 i =? data2 i).

Fixpoint verifyData_pairs (data1 data2 : array) (idx : list Z) : bool :=
  match idx with
  | [] => true
  | i :: rest =>
      if verifyData_mismatch data1 data2 i then false
      else verifyData_pairs data1 data2 rest
  end.

Definition verifyData (data1 data2 : array) (numDataBytes : Z) : bool :=
  if (data1 0 =? START) && (data2 0 =? START) then
    if (data1 (numDataBytes - 1) =? END) && (data2 (numDataBytes - 1) =? END)
    then verifyData_pairs data1 data2 (for_indices 1 (numDataBytes - 1) 2)
    else false
  else false.

(** ** The world: ports, enable pins and clock *)

(** What a poll of a port's receive buffer finds next: nothing yet
    ([Idle], a millisecond of silence), or a pending byte.  An exhausted
    list is a line that stays silent. *)
Inductive slot : Type :=
| Idle
| Byte (b : Z).

Inductive serial : Type := rs485Port1 | rs485Port2.

Record World : Type := mkWorld {
  now : Z;            (* microseconds since start *)
  rx1 : list slot;    (* incoming line of rs485Port1 *)
  rx2 : list slot;    (* incoming line of rs485Port2 *)
  tx1 : list Z;       (* bytes written on rs485Port1, oldest first *)
  tx2 : list Z;       (* bytes written on rs485Port2, oldest first *)
  en1 : bool;         (* level of PORT1_ENABLE *)
  en2 : bool          (* level of PORT2_ENABLE *)
}.

Definition rx (s : serial) (w : World) : list slot :=
  match s with rs485Port1 => rx1 w | rs485Port2 => rx2 w end.

Definition tx (s : serial) (w : World) : list Z :=
  match s with rs485Port1 => tx1 w | rs485Port2 => tx2 w end.

Definition set_rx (s : serial) (l : list slot) (w : World) : World :=
  match s with
  | rs485Port1 => mkWorld (now w) l (rx2 w) (tx1 w) (tx2 w) (en1 w) (en2 w)
  | rs485Port2 => mkWorld (now w) (rx1 w) l (tx1 w) (tx2 w) (en1 w) (en2 w)
  end.

Definition elapse (us : Z) (w : World) : World :=
  mkWorld (now w + us) (rx1 w) (rx2 w) (tx1 w) (tx2 w) (en1 w) (en2 w).

(** *** Arduino and SoftwareSerial primitives *)

(** The clock is an unbounded integer: the wrap of [millis] after 2^32
    milliseconds is left out, and the comparisons against a deadline are
    those of the integers. *)
Definition millis (w : World) : Z := now w / 1000.

Definition delay (ms : Z) (w : World) : World := elapse (1000 * ms) w.

Definition delayMicroseconds (us : Z) (w : World) : World := elapse us w.

Definition digitalWrite (pin : Z) (level : bool) (w : World) : World :=
  if pin =? PORT1_ENABLE then
    mkWorld (now w) (rx1 w) (rx2 w) (tx1 w) (tx2 w) level (en2 w)
  else if pin =? PORT2_ENABLE then
    mkWorld (now w) (rx1 w) (rx2 w) (tx1 w) (tx2 w) (en1 w) level
  else w.

(** Each port has its own incoming line here, and every protocol function
    calls [listen] on its port before it polls it, so [listen] leaves the
    world as it is. *)
Definition listen (s : serial) (w : World) : World := w.

(** A poll that finds nothing uses up a millisecond. *)
Definition available (s : serial) (w : World) : bool * World :=
  match rx s w with
  | Byte _ :: _ => (true, w)
  | Idle :: l => (false, elapse 1000 (set_rx s l w))
  | [] => (false, elapse 1000 w)
  end.

(** [read] returns an [int]: the next byte, or -1 when none is buffered. *)
Definition read (s : serial) (w : World) : Z * World :=
  match rx s w with
  | Byte b :: l => (b, set_rx s l w)
  | _ => (-1, w)
  end.

Definition write (s : serial) (b : Z) (w : World) : World :=
  match s with
  | rs485Port1 =>
      mkWorld (now w) (rx1 w) (rx2 w) (tx1 w ++ [b]) (tx2 w) (en1 w) (en2 w)
  | rs485Port2 =>
      mkWorld (now w) (rx1 w) (rx2 w) (tx1 w) (tx2 w ++ [b]) (en1 w) (en2 w)
  end.

Definition flush (s : serial) (w : World) : World := w.

(** ** Outcomes of the functions that loop on the ports *)

(** [Undefined]: the value of a call that ended without [return] was
    needed and the platform fixes none.  [OutOfFuel]: the loop was still
    running after the given number of iterations. *)
Inductive outcome (A : Type) : Type :=
| Ret (a : A) (w : World)
| Undefined
| OutOfFuel.

Arguments Ret {A} a w.
Arguments Undefined {A}.
Arguments OutOfFuel {A}.

Definition bind {A B : Type} (m : outcome A) (k : A -> World -> outcome B)
  : outcome B :=
  match m with
  | Ret a w => k a w
  | Undefined => Undefined
  | OutOfFuel => OutOfFuel
  end.

Notation "'run' m 'giving' x 'at' w ;; k" :=
  (bind m (fun x w => k))
  (at level 10, m at level 9, x pattern, w name, k at level 200).

(** ** Transmission and polling *)

Definition sendBuffer_bytes (s : serial) (data : array) (numBytes : Z)
  (w : World) : World :=
  fold_left
    (fun w i => delayMicroseconds (readWriteDelay / 32) (write s (data i) w))
    (for_indices 0 numBytes 1) w.

(** [numBytes] and [port] are [byte] parameters: every call in the sketch
    passes values from 0 to 255, and the statements about [sendBuffer] on
    its own are about such values. *)
Definition sendBuffer (data : array) (numBytes port : Z) (w : World) : World :=
  if port =? PORT1 then
    let w := digitalWrite PORT1_ENABLE SEND_MODE w in
    let w := sendBuffer_bytes rs485Port1 data numBytes w in
    let w := delayMicroseconds readWriteDelay w in
    let w := flush rs485Port1 w in
    digitalWrite PORT1_ENABLE RECEIVE_MODE w
  else if port =? PORT2 then
    let w := digitalWrite PORT2_ENABLE SEND_MODE w in
    let w := sendBuffer_bytes rs485Port2 data numBytes w in
    let w := delayMicroseconds readWriteDelay w in
    let w := flush rs485Port2 w in
    digitalWrite PORT2_ENABLE RECEIVE_MODE w
  else w.

(** [temp] and [port] are [byte] parameters, as for [sendBuffer]. *)
Definition sendByte (temp port : Z) (w : World) : World :=
  if port =? PORT1 then
    let w := digitalWrite PORT1_ENABLE SEND_MODE w in
    let w := write rs485Port1 temp w in
    let w := flush rs485Port1 w in
    digitalWrite PORT1_ENABLE RECEIVE_MODE w
  else if port =? PORT2 then
    let w := digitalWrite PORT2_ENABLE SEND_MODE w in
    let w := write rs485Port2 temp w in
    let w := flush rs485Port2 w in
    digitalWrite PORT2_ENABLE RECEIVE_MODE w
  else w.

(** The only [return] statements of [checkPortHasData] are the two
    [return true]; every other path reaches the closing brace, here
    [None]. *)
Definition checkPortHasData (port : Z) (w : World) : option bool * World :=
  if port =? PORT1 then
    let w := digitalWrite PORT1_ENABLE RECEIVE_MODE w in
    let w := listen rs485Port1 w in
    let (a, w) := available rs485Port1 w in
    if a then (Some true, w) else (None, w)
  else if port =? PORT2 then
    let w := digitalWrite PORT2_ENABLE RECEIVE_MODE w in
    let w := listen rs485Port2 w in
    let (a, w) := available rs485Port2 w in
    if a then (Some true, w) else (None, w)
  else (None, w).

Definition readByte (port : Z) (w : World) : Z * World :=
  if port =? PORT1 then
    let w := listen rs485Port1 w in
    let (a, w) := available rs485Port1 w in
    if a then let (d, w) := read rs485Port1 w in (to_byte d, w) else (0, w)
  else if port =? PORT2 then
    let w := listen rs485Port2 w in
    let (a, w) := available rs485Port2 w in
    if a then let (d, w) := read rs485Port2 w in (to_byte d, w) else (0, w)
  else (0, w).

Section Protocol.

(** What a caller of [checkPortHasData] observes when the call ended
    without [return]: [Some b] if the platform happens to leave [b] in
    the result register, [None] if nothing can be said. *)
Variable fallthrough : option bool.

(** The content of a local array before its first store. *)
Variable uninit : array.

Definition call_checkPortHasData (port : Z) (w : World) : outcome bool :=
  match checkPortHasData port w with
  | (Some b, w') => Ret b w'
  | (None, w') =>
      match fallthrough with
      | Some b => Ret b w'
      | None => Undefined
      end
  end.

(** *** readBuffer *)

(** The loop [while (count < maxDataLength + 1 && endMode)] on one port. *)
Fixpoint readBuffer_accumulate (s : serial) (fuel : nat) (maxDataLength : Z)
  (tempData : array) (count : Z) (endMode : bool) (w : World)
  : outcome (array * Z) :=
  if (count <? maxDataLength + 1) && endMode then
    match fuel with
    | O => OutOfFuel
    | S fuel' =>
        let (a, w1) := available s w in
        let '(tempData1, count1, w2) :=
          if a then
            let (b, w2) := read s w1 in
            (upd tempData count (to_byte b), to_byte (count + 1), w2)
          else (tempData, count, w1) in
        let endMode1 :=
          if (1 <? count1) && (tempData1 (count1 - 2) =? END)
             && (tempData1 (count1 - 1) =? END)
          then false else endMode in
        readBuffer_accumulate s fuel' maxDataLength tempData1 count1
          endMode1 w2
    end
  else Ret (tempData, count) w.

(** The framing checks that follow the accumulation. *)
Definition readBuffer_check (tempData : array) (count : Z) : Z :=
  if negb (tempData 0 =? START) then 0
  else if negb (tempData (count - 1) =? END)
          || negb (tempData (count - 2) =? END) then 0
  else count.

(** The body of [while (count < maxDataLength)]; it always returns. *)
Definition readBuffer_body (fuel : nat) (tempData : array)
  (maxDataLength port count : Z) (w : World) : outcome (Z * array) :=
  run (if port =? PORT1 then
         readBuffer_accumulate rs485Port1 fuel maxDataLength tempData count
           true w
       else if port =? PORT2 then
         readBuffer_accumulate rs485Port2 fuel maxDataLength tempData count
           true w
       else Ret (tempData, count) w)
    giving (tempData1, count1) at w1 ;;
  Ret (readBuffer_check tempData1 count1, tempData1) w1.

Fixpoint readBuffer_loop (fuel : nat) (tempData : array)
  (maxDataLength port timeOut count : Z) (w : World)
  : outcome (Z * array) :=
  if timeOut + sendReceiveTimeout >? millis w then
    match fuel with
    | O => OutOfFuel
    | S fuel' =>
        run (call_checkPortHasData port w) giving has at w1 ;;
        if has then
          if count <? maxDataLength then
            readBuffer_body fuel' tempData maxDataLength port count w1
          else
            readBuffer_loop fuel' tempData maxDataLength port timeOut
              count w1
        else Ret (0, tempData) w1
    end
  else Ret (0, tempData) w.

(** Returns the count and the array as the stores left it. *)
Definition readBuffer (fuel : nat) (tempData : array)
  (maxDataLength port : Z) (w : World) : outcome (Z * array) :=
  let timeOut := millis w in
  let count := 0 in
  readBuffer_loop fuel tempData maxDataLength port timeOut count w.

(** *** sendData *)

Fixpoint sendData_wait (fuel : nat) (tempData : array)
  (numDataBytes port timeOut : Z) (w : World) : outcome bool :=
  if timeOut + sendReceiveTimeout >? millis w then
    match fuel with
    | O => OutOfFuel
    | S fuel' =>
        let testData := uninit in
        run (call_checkPortHasData port w) giving has at w1 ;;
        if has then
          run (readBuffer fuel' testData numDataBytes port w1)
            giving (count, testData1) at w2 ;;
          if (0 <? count) && verifyData tempData testData1 numDataBytes
          then
            let w3 := sendByte ACK port w2 in
            let w4 := delayMicroseconds readWriteDelay w3 in
            Ret true w4
          else
            let w3 := sendByte NAK port w2 in
            Ret false w3
        else sendData_wait fuel' tempData numDataBytes port timeOut w1
    end
  else Ret false w.

Definition sendData (fuel : nat) (data : array) (numBytes port : Z)
  (w : World) : outcome bool :=
  if numBytes <=? 0 then Ret false w
  else
    let numDataBytes := sendData_numDataBytes numBytes in
    let tempData := sendData_frame uninit data numBytes in
    let w1 := sendBuffer tempData numDataBytes port w in
    let timeOut := millis w1 in
    sendData_wait fuel tempData numDataBytes port timeOut w1.

(** *** receiveData *)

Fixpoint receiveData_wait (fuel : nat) (tempData : array) (count : Z)
  (data : array) (port timeout : Z) (w : World) : outcome (bool * array) :=
  if timeout + sendReceiveTimeout >? millis w then
    match fuel with
    | O => OutOfFuel
    | S fuel' =>
        run (call_checkPortHasData port w) giving has at w1 ;;
        if has then
          let (response, w2) := readByte port w1 in
          if 0 <? response then
            if response =? ACK then
              Ret (true, receiveData_extract tempData data count) w2
            else if response =? NAK then Ret (false, data) w2
            else Ret (false, data) w2
          else receiveData_wait fuel' tempData count data port timeout w2
        else receiveData_wait fuel' tempData count data port timeout w1
    end
  else Ret (false, data) w.

(** Returns the boolean and the caller's array as the stores left it. *)
Definition receiveData (fuel : nat) (data : array)
  (maxDataLength port : Z) (w : World) : outcome (bool * array) :=
  run (call_checkPortHasData port w) giving has at w1 ;;
  if has then
    let tempData := uninit in
    run (readBuffer fuel tempData maxDataLength port w1)
      giving (count, tempData1) at w2 ;;
    if 0 <? count then
      let w3 := sendBuffer tempData1 count port w2 in
      let w4 := delay 1 w3 in
      let timeout := millis w4 in
      receiveData_wait fuel tempData1 count data port timeout w4
    else Ret (false, data) w2
  else Ret (false, data) w1.

End Protocol.

(** ** Reading conventions used by the statements *)

(** What a caller finds in [data] after a successful [receiveData]:
    [data[0]] bytes, starting at [data[1]]. *)
Definition payload (data : array) : list Z :=
  map (fun k => data (1 + Z.of_nat k)) (seq 0 (Z.to_nat (data 0))).

(** The wire image of a payload:
    [[START][d0][~d0]...[d(n-1)][~d(n-1)][END][END]]. *)
Definition wire (p : list Z) : list Z :=
  START :: flat_map (fun d => [d; inverse d]) p ++ [END; END].

Definition port_of (s : serial) : Z :=
  match s with rs485Port1 => PORT1 | rs485Port2 => PORT2 end.

Definition enable_pin (s : serial) : Z :=
  match s with rs485Port1 => PORT1_ENABLE | rs485Port2 => PORT2_ENABLE end.

(** The level of the enable line wired to a port. *)
Definition enable_line (port : Z) (w : World) : option bool :=
  if port =? PORT1 then Some (en1 w)
  else if port =? PORT2 then Some (en2 w)
  else None.

(** The port's transceiver is driving the bus. *)
Definition in_transmit (port : Z) (w : World) : bool :=
  match enable_line port w with
  | Some level => Bool.eqb level SEND_MODE
  | None => false
  end.

(** The bytes among the slots of a line. *)
Fixpoint bytes_of (sl : list slot) : list Z :=
  match sl with
  | [] => []
  | Idle :: rest => bytes_of rest
  | Byte b :: rest => b :: bytes_of rest
  end.

(** [bs] stored from index [count] on, as successive [tempData[count++]]. *)
Fixpoint store_all (t : array) (count : Z) (bs : list Z) : array :=
  match bs with
  | [] => t
  | b :: rest => store_all (upd t count b) (count + 1) rest
  end.

(** The test that ends the accumulation: the last two of [k] bytes are
    both [END]. *)
Definition double_END (t : array) (k : Z) : bool :=
  (1 <? k) && (t (k - 2) =? END) && (t (k - 1) =? END).

(** The last slot of a stretch of line is a byte (or the stretch is
    empty). *)
Fixpoint ends_with_byte (sl : list slot) : bool :=
  match sl with
  | [] => true
  | Idle :: [] => false
  | _ :: rest => ends_with_byte rest
  end.

(** The condition of the accumulation loop when [k] bytes are stored,
    [endMode] being the negation of the double-END test. *)
Definition keeps_reading (maxDataLength : Z) (t : array) (k : Z) : bool :=
  (k <? maxDataLength + 1) && negb (double_END t k).

(** The accumulation loop runs at every count below [n] and stops at [n]. *)
Definition accumulation_ends_at (maxDataLength : Z) (t : array) (n : Z)
  : bool :=
  forallb (keeps_reading maxDataLength t) (for_indices 0 n 1)
  && negb (keeps_reading maxDataLength t n).


Definition is_false (r : option bool) : bool :=
  match r with
  | Some false => true
  | _ => false
  end.

(** Partial correctness: if the call returns, [Q] holds of the value and
    the world it returns. *)
Definition post {A : Type} (m : outcome A) (Q : A -> World -> Prop) : Prop :=
  match m with
  | Ret a w => Q a w
  | _ => True
  end.

(** *** Sample worlds *)

(** Both transceivers listening, clock at zero, given incoming lines. *)
Definition lines (l1 l2 : list slot) : World :=
  mkWorld 0 l1 l2 [] [] RECEIVE_MODE RECEIVE_MODE.

Definition zeros : array := fun _ => 0.

(** A sender started a frame and went silent. *)
Definition stalled1 : World := lines [Byte START] [].
Definition stalled2 : World := lines [] [Byte START].

(** 68 bytes for a reader whose array has [dataLength] = 67 cells:
    [START], 32 data/inverse pairs, one more byte, [END], [END]. *)
Definition oversized : list Z :=
  START :: flat_map (fun d => [d; inverse d]) (repeat 2 32) ++ [0; END; END].

(** ** The rest of the sketch *)

(** *** serialPrintBuffer *)

(** The calls [serialPrintBuffer] makes on [Serial], in order:
    [Serial.print] of a byte, [Serial.print(F(","))], [Serial.println()].
    The parameter [numBytes] is a [byte]: the argument is narrowed at the
    call. *)
Inductive printed : Type :=
| Number (v : Z)
| Comma
| NewLine.

Definition serialPrintBuffer (data : array) (numBytes : Z) : list printed :=
  let numBytes := to_byte numBytes in
  flat_map
    (fun i =>
       Number (data i) :: (if i =? numBytes - 1 then [NewLine] else [Comma]))
    (for_indices 0 numBytes 1).

(** *** Globals of the sketch *)

(** Narrowing conversion to [unsigned int] (16 bits on the AVR). *)
Definition to_uint (v : Z) : Z := v mod 65536.

Definition sendDelay : Z := 500.

Record Sketch : Type := mkSketch {
  finalData : array;
  dataSent : Z;
  dataFailed : Z
}.

(** *** setup *)

Definition begin (s : serial) (baud : Z) (w : World) : World := w.

(** Only the level of a pin is modelled, not its mode. *)
Definition pinMode (pin : Z) (w : World) : World := w.

Definition setup (w : World) : World :=
  let w := begin rs485Port1 BAUDRATE w in
  let w := begin rs485Port2 BAUDRATE w in
  let w := pinMode PORT1_ENABLE w in
  let w := digitalWrite PORT1_ENABLE RECEIVE_MODE w in
  let w := pinMode PORT2_ENABLE w in
  digitalWrite PORT2_ENABLE RECEIVE_MODE w.

Section Driver.

Variable fallthrough : option bool.
Variable uninit : array.

(** *** eccoTest *)

(** One iteration of [while (true)], on the locals [tempCount] and
    [sendMode].  [&] is the bitwise operator: both operands are evaluated. *)
Definition eccoTest_step (port : Z) (st : Z * bool) (w : World)
  : outcome (Z * bool) :=
  let (tempCount, sendMode) := st in
  run (call_checkPortHasData fallthrough port w) giving has at w1 ;;
  if truthy (Z.land (Z.b2z has) (Z.b2z (negb sendMode))) then
    let (tempCount1, w2) := readByte port w1 in
    Ret (tempCount1, true) w2
  else if sendMode then
    let tempCount1 := to_byte (tempCount + 1) in
    let w2 := sendByte tempCount1 port w1 in
    Ret (tempCount1, false) w2
  else Ret (tempCount, sendMode) w1.

(** The locals after [k] iterations. *)
Fixpoint eccoTest_iterate (k : nat) (port : Z) (st : Z * bool) (w : World)
  : outcome (Z * bool) :=
  match k with
  | O => Ret st w
  | S k' =>
      run (eccoTest_step port st w) giving st1 at w1 ;;
      eccoTest_iterate k' port st1 w1
  end.

(** The loop has no exit: after [fuel] iterations it is still running. *)
Definition eccoTest (fuel : nat) (port : Z) (w : World) : outcome unit :=
  let tempCount := 0 in
  let sendMode := false in
  run (eccoTest_iterate fuel port (tempCount, sendMode) w) giving st at w1 ;;
  OutOfFuel.

(** *** loop *)

(** [while (!receiveData(finalData, dataLength, PORT1)) {}] *)
Fixpoint loop_master_wait (fuel : nat) (data : array) (w : World)
  : outcome array :=
  match fuel with
  | O => OutOfFuel
  | S fuel' =>
      run (receiveData fallthrough uninit fuel' data dataLength PORT1 w)
        giving (ok, data1) at w1 ;;
      if ok then Ret data1 w1 else loop_master_wait fuel' data1 w1
  end.

(** [for (int i = 0; i < MAXBYTES; i++) finalData[i] = count + i;] *)
Definition loop_fill (data : array) (count : Z) : array :=
  fold_left (fun d i => upd d i (to_byte (count + i)))
    (for_indices 0 MAXBYTES 1) data.

(** The body of [for (int count = 0; count < MAXBYTES; count++)], for the
    values of [count] still to come. *)
Fixpoint loop_slave (fuel : nat) (counts : list Z) (sk : Sketch) (w : World)
  : outcome Sketch :=
  match counts with
  | [] => Ret sk w
  | count :: rest =>
      let data := loop_fill (finalData sk) count in
      let qty := to_byte (1 + Z.rem count MAXBYTES) in
      run (sendData fallthrough uninit fuel data qty PORT2 w)
        giving ok at w1 ;;
      let sk1 :=
        if ok then mkSketch data (to_uint (dataSent sk + 1)) (dataFailed sk)
        else mkSketch data (dataSent sk) (to_uint (dataFailed sk + 1)) in
      let w2 := delay sendDelay w1 in
      loop_slave fuel rest sk1 w2
  end.

(** [debug] and [master] are the two switches under "Stuff to change". *)
Definition loop (debug master : bool) (fuel : nat) (sk : Sketch) (w : World)
  : outcome Sketch :=
  if debug then
    run (eccoTest fuel PORT1 w) giving done at w1 ;; Ret sk w1
  else if master then
    run (loop_master_wait fuel (finalData sk) w) giving data at w1 ;;
    Ret (mkSketch data (dataSent sk) (dataFailed sk)) w1
  else if negb master then
    loop_slave fuel (for_indices 0 MAXBYTES 1) sk w
  else Ret sk w.

End Driver.

(** *** Conventions for the statements about the rest of the sketch *)

(** The frame of the payload has no byte pair that the accumulation loop
    would take for the terminator before the real one: no payload byte is
    [END], and the last one is not the complement of [END]. *)
Definition clean (p : list Z) : bool :=
  forallb (fun d => negb (d =? END)) p && negb (last p 0 =? inverse END).

(** The payload the driver sends at a given [count]:
    [count, count + 1, ..., 2 * count]. *)
Definition driver_payload (count : Z) : list Z :=
  map (fun i => count + i) (for_indices 0 (count + 1) 1).

(** * Properties *)

(** ** Arrays and index ranges *)

Lemma upd_same (a : array) (i v : Z) : upd a i v i = v.
Proof. unfold upd. now rewrite Z.eqb_refl. Qed.

Lemma upd_other (a : array) (i j v : Z) : j <> i -> upd a i v j = a j.
Proof. unfold upd. intros H. apply Z.eqb_neq in H. now rewrite H. Qed.

Lemma to_byte_small (v : Z) : 0 <= v < 256 -> to_byte v = v.
Proof. intros H. unfold to_byte. now apply Z.mod_small. Qed.

Lemma for_range_step (k : nat) (a : Z) :
  for_range k a (a + Z.of_nat k) 1 = map (fun i => a + Z.of_nat i) (seq 0 k).
Proof.
  revert a. induction k as [|k IH]; intros a; [reflexivity|].
  cbn [for_range]. replace (a <? a + Z.of_nat (S k)) with true
    by (symmetry; apply Z.ltb_lt; lia).
  rewrite <- cons_seq, <- seq_shift, map_cons, map_map. f_equal.
  - f_equal. lia.
  - replace (a + Z.of_nat (S k)) with ((a + 1) + Z.of_nat k) by lia.
    rewrite IH. apply map_ext. intros i. lia.
Qed.

Lemma for_indices_count (n : Z) :
  for_indices 0 n 1 = map Z.of_nat (seq 0 (Z.to_nat n)).
Proof.
  unfold for_indices. rewrite Z.sub_0_r.
  destruct (Z.le_gt_cases 0 n) as [Hn|Hn].
  - rewrite <- (Z2Nat.id n) at 2 by assumption.
    change (Z.of_nat (Z.to_nat n)) with (0 + Z.of_nat (Z.to_nat n)).
    rewrite (for_range_step _ 0). apply map_ext. intros i. lia.
  - replace (Z.to_nat n) with O by lia. reflexivity.
Qed.

Lemma slice_length (a : array) (n : nat) : length (slice a n) = n.
Proof. unfold slice. now rewrite length_map, length_seq. Qed.

(** ** The frame built by sendData *)

Lemma numDataBytes_small (numBytes : Z) :
  0 <= numBytes <= 126 -> sendData_numDataBytes numBytes = 2 * numBytes + 3.
Proof.
  intros H. unfold sendData_numDataBytes. rewrite to_byte_small; lia.
Qed.

(** The data/inverse loop after [k] iterations. *)
Lemma frame_pairs (data t : array) (k : nat) (j : Z) :
  fold_left
    (fun t i => upd (upd t ((2 * i) + 1) (data i))
                    ((2 * i) + 2) (inverse (data i)))
    (map Z.of_nat (seq 0 k)) t j
  = if (1 <=? j) && (j <=? 2 * Z.of_nat k) then
      if Z.odd j then data ((j - 1) / 2) else inverse (data ((j - 2) / 2))
    else t j.
Proof.
  induction k as [|k IH].
  - cbn [seq map fold_left]. destruct (1 <=? j) eqn:E1; [|reflexivity].
    destruct (j <=? 2 * Z.of_nat 0) eqn:E2; [|reflexivity].
    apply Z.leb_le in E1, E2. lia.
  - rewrite seq_S, map_app, fold_left_app. cbn [map fold_left Nat.add].
    unfold upd at 1 2. rewrite IH.
    destruct (j =? 2 * Z.of_nat k + 2) eqn:Ea.
    + apply Z.eqb_eq in Ea. subst j.
      replace (1 <=? 2 * Z.of_nat k + 2) with true
        by (symmetry; apply Z.leb_le; lia).
      replace (2 * Z.of_nat k + 2 <=? 2 * Z.of_nat (S k)) with true
        by (symmetry; apply Z.leb_le; lia).
      cbn [andb].
      replace (2 * Z.of_nat k + 2) with (2 * (Z.of_nat k + 1)) by lia.
      rewrite Z.odd_mul, Bool.andb_false_l.
      replace (2 * (Z.of_nat k + 1) - 2) with (Z.of_nat k * 2) by lia.
      now rewrite Z.div_mul by lia.
    + destruct (j =? 2 * Z.of_nat k + 1) eqn:Eb.
      * apply Z.eqb_eq in Eb. subst j.
        replace (1 <=? 2 * Z.of_nat k + 1) with true
          by (symmetry; apply Z.leb_le; lia).
        replace (2 * Z.of_nat k + 1 <=? 2 * Z.of_nat (S k)) with true
          by (symmetry; apply Z.leb_le; lia).
        cbn [andb].
        replace (2 * Z.of_nat k + 1 - 1) with (Z.of_nat k * 2) by lia.
        rewrite (Z.add_comm _ 1), Z.odd_add_mul_2. cbn [Z.odd].
        now rewrite Z.div_mul by lia.
      * apply Z.eqb_neq in Ea, Eb.
        destruct (1 <=? j) eqn:E1; [|reflexivity]. cbn [andb].
        destruct (j <=? 2 * Z.of_nat k) eqn:E2.
        -- replace (j <=? 2 * Z.of_nat (S k)) with true; [reflexivity|].
           symmetry. apply Z.leb_le. apply Z.leb_le in E2. lia.
        -- replace (j <=? 2 * Z.of_nat (S k)) with false; [reflexivity|].
           symmetry. apply Z.leb_gt. apply Z.leb_gt in E2. lia.
Qed.

(** Cell by cell, for a length whose frame fits a [byte] count. *)
Lemma sendData_frame_cells (t0 data : array) (numBytes j : Z) :
  1 <= numBytes <= 126 ->
  sendData_frame t0 data numBytes j
  = if j =? 0 then START
    else if (1 <=? j) && (j <=? 2 * numBytes) then
      if Z.odd j then data ((j - 1) / 2) else inverse (data ((j - 2) / 2))
    else if (j =? 2 * numBytes + 1) || (j =? 2 * numBytes + 2) then END
    else t0 j.
Proof.
  intros Hn. unfold sendData_frame.
  rewrite for_indices_count, frame_pairs, numDataBytes_small by lia.
  rewrite Z2Nat.id by lia.
  destruct (j =? 0) eqn:E0.
  - apply Z.eqb_eq in E0. subst j. cbn [Z.leb andb Z.compare].
    rewrite !upd_other by lia. apply upd_same.
  - apply Z.eqb_neq in E0.
    destruct ((1 <=? j) && (j <=? 2 * numBytes)) eqn:E1; [reflexivity|].
    unfold upd. replace (2 * numBytes + 3 - 2) with (2 * numBytes + 1) by lia.
    replace (2 * numBytes + 3 - 1) with (2 * numBytes + 2) by lia.
    destruct (j =? 2 * numBytes + 1); [reflexivity|].
    destruct (j =? 2 * numBytes + 2); [reflexivity|].
    apply Z.eqb_neq in E0. now rewrite E0.
Qed.

Lemma slice_nth (a : array) (n k : nat) (d : Z) :
  (k < n)%nat -> nth k (slice a n) d = a (Z.of_nat k).
Proof.
  intros H. unfold slice.
  rewrite (nth_indep _ d (a (Z.of_nat 0))) by now rewrite length_map, length_seq.
  rewrite (map_nth (fun k => a (Z.of_nat k))), seq_nth by assumption.
  reflexivity.
Qed.

Lemma slice_eq (a : array) (l : list Z) :
  (forall k, (k < length l)%nat -> a (Z.of_nat k) = nth k l 0) ->
  slice a (length l) = l.
Proof.
  intros H. apply (nth_ext _ _ 0 0).
  - apply slice_length.
  - intros k Hk. rewrite slice_length in Hk. rewrite slice_nth by assumption.
    now apply H.
Qed.

Lemma of_list_nth (l : list Z) (k : nat) : of_list l (Z.of_nat k) = nth k l 0.
Proof.
  unfold of_list. replace (Z.of_nat k <? 0) with false
    by (symmetry; apply Z.ltb_ge; lia).
  now rewrite Nat2Z.id.
Qed.

Lemma pairs_length (p : list Z) :
  length (flat_map (fun d => [d; inverse d]) p) = (2 * length p)%nat.
Proof. induction p as [|d p IH]; cbn [flat_map length app]; lia. Qed.

Lemma pairs_nth (p : list Z) (i : nat) :
  (i < length p)%nat ->
  nth (2 * i) (flat_map (fun d => [d; inverse d]) p) 0 = nth i p 0 /\
  nth (2 * i + 1) (flat_map (fun d => [d; inverse d]) p) 0
  = inverse (nth i p 0).
Proof.
  revert i. induction p as [|d p IH]; intros i Hi; [cbn in Hi; lia|].
  destruct i as [|i].
  - split; reflexivity.
  - cbn [length] in Hi. replace (2 * S i)%nat with (S (S (2 * i))) by lia.
    cbn [flat_map app nth Nat.add]. apply IH. lia.
Qed.

Lemma wire_length (p : list Z) : length (wire p) = (2 * length p + 3)%nat.
Proof.
  unfold wire. cbn [length]. rewrite length_app, pairs_length. cbn [length].
  lia.
Qed.

(** The frame [sendData] builds is the wire image of the payload. *)
Lemma sendData_frame_wire (t0 : array) (p : list Z) :
  (1 <= length p <= 126)%nat ->
  slice (sendData_frame t0 (of_list p) (Z.of_nat (length p)))
        (2 * length p + 3) = wire p.
Proof.
  intros Hp. rewrite <- wire_length. apply slice_eq.
  intros k Hk. rewrite wire_length in Hk.
  rewrite sendData_frame_cells by lia. unfold wire.
  destruct k as [|k]; [reflexivity|].
  replace (Z.of_nat (S k) =? 0) with false by (symmetry; apply Z.eqb_neq; lia).
  cbn [nth].
  destruct (Nat.lt_ge_cases k (2 * length p)) as [Hlt|Hge].
  - replace ((1 <=? Z.of_nat (S k)) && (Z.of_nat (S k) <=? 2 * Z.of_nat (length p)))
      with true by (symmetry; apply andb_true_intro; split; apply Z.leb_le; lia).
    rewrite app_nth1 by (rewrite pairs_length; lia).
    destruct (Nat.Even_or_Odd k) as [[i Hi]|[i Hi]]; subst k.
    + destruct (pairs_nth p i ltac:(lia)) as [-> _].
      replace (Z.of_nat (S (2 * i))) with (1 + 2 * Z.of_nat i) by lia.
      rewrite Z.odd_add_mul_2. cbn [Z.odd].
      replace (1 + 2 * Z.of_nat i - 1) with (Z.of_nat i * 2) by lia.
      rewrite Z.div_mul by lia. apply of_list_nth.
    + destruct (pairs_nth p i ltac:(lia)) as [_ ->].
      replace (Z.of_nat (S (2 * i + 1))) with (0 + 2 * (Z.of_nat i + 1)) by lia.
      rewrite Z.odd_add_mul_2. cbn [Z.odd].
      replace (0 + 2 * (Z.of_nat i + 1) - 2) with (Z.of_nat i * 2) by lia.
      rewrite Z.div_mul by lia. now rewrite of_list_nth.
  - replace ((1 <=? Z.of_nat (S k)) && (Z.of_nat (S k) <=? 2 * Z.of_nat (length p)))
      with false
      by (symmetry; apply andb_false_intro2; apply Z.leb_gt; lia).
    rewrite app_nth2 by (rewrite pairs_length; lia). rewrite pairs_length.
    assert (Hk2 : k = (2 * length p)%nat \/ k = (2 * length p + 1)%nat) by lia.
    destruct Hk2 as [-> | ->].
    + replace (Z.of_nat (S (2 * length p)) =? 2 * Z.of_nat (length p) + 1)
        with true by (symmetry; apply Z.eqb_eq; lia).
      now rewrite Nat.sub_diag.
    + replace (Z.of_nat (S (2 * length p + 1)) =? 2 * Z.of_nat (length p) + 2)
        with true by (symmetry; apply Z.eqb_eq; lia).
      rewrite Bool.orb_true_r.
      replace (2 * length p + 1 - 2 * length p)%nat with 1%nat by lia.
      reflexivity.
Qed.

(** ** The payload receiveData extracts *)

Lemma extract_copy (tempData d : array) (k : nat) (j : Z) :
  fold_left (fun d i => upd d (i + 1) (tempData ((2 * i) + 1)))
    (map Z.of_nat (seq 0 k)) d j
  = if (1 <=? j) && (j <=? Z.of_nat k) then tempData (2 * (j - 1) + 1)
    else d j.
Proof.
  induction k as [|k IH].
  - cbn [seq map fold_left]. destruct (1 <=? j) eqn:E1; [|reflexivity].
    destruct (j <=? Z.of_nat 0) eqn:E2; [|reflexivity].
    apply Z.leb_le in E1, E2. lia.
  - rewrite seq_S, map_app, fold_left_app. cbn [map fold_left Nat.add].
    unfold upd at 1. rewrite IH.
    destruct (j =? Z.of_nat k + 1) eqn:Ea.
    + apply Z.eqb_eq in Ea. subst j.
      replace ((1 <=? Z.of_nat k + 1) && (Z.of_nat k + 1 <=? Z.of_nat (S k)))
        with true
        by (symmetry; apply andb_true_intro; split; apply Z.leb_le; lia).
      f_equal. lia.
    + apply Z.eqb_neq in Ea.
      destruct (1 <=? j) eqn:E1; [|reflexivity]. cbn [andb].
      destruct (j <=? Z.of_nat k) eqn:E2.
      * replace (j <=? Z.of_nat (S k)) with true; [reflexivity|].
        symmetry. apply Z.leb_le. apply Z.leb_le in E2. lia.
      * replace (j <=? Z.of_nat (S k)) with false; [reflexivity|].
        symmetry. apply Z.leb_gt. apply Z.leb_gt in E2. lia.
Qed.

Lemma receiveData_extract_cells (tempData data : array) (count j : Z) :
  receiveData_extract tempData data count j
  = if (1 <=? j) && (j <=? count - 2) then tempData (2 * (j - 1) + 1)
    else if j =? 0 then to_byte (Z.quot (count - 2) 2)
    else data j.
Proof.
  unfold receiveData_extract. rewrite for_indices_count, extract_copy.
  destruct (1 <=? j) eqn:E1; cbn [andb].
  - destruct (Z.le_gt_cases 0 (count - 2)) as [Hc|Hc].
    + rewrite Z2Nat.id by assumption.
      destruct (j <=? count - 2); [reflexivity|].
      apply Z.leb_le in E1. rewrite upd_other by lia.
      replace (j =? 0) with false by (symmetry; apply Z.eqb_neq; lia).
      reflexivity.
    + replace (Z.to_nat (count - 2)) with O by lia. apply Z.leb_le in E1.
      replace (j <=? Z.of_nat 0) with false by (symmetry; apply Z.leb_gt; lia).
      replace (j <=? count - 2) with false by (symmetry; apply Z.leb_gt; lia).
      rewrite upd_other by lia.
      replace (j =? 0) with false by (symmetry; apply Z.eqb_neq; lia).
      reflexivity.
  - apply Z.leb_gt in E1. unfold upd. reflexivity.
Qed.

(** With a count of at least 3 bytes, the caller reads back the bytes at
    the odd indices of the first [count - 2] cells. *)
Lemma receiveData_extract_payload (tempData data : array) (count : Z) :
  3 <= count < 256 ->
  receiveData_extract tempData data count 0 = (count - 2) / 2 /\
  payload (receiveData_extract tempData data count)
  = map (fun k => tempData (2 * Z.of_nat k + 1))
        (seq 0 (Z.to_nat ((count - 2) / 2))).
Proof.
  intros Hc.
  assert (H0 : receiveData_extract tempData data count 0 = (count - 2) / 2).
  { rewrite receiveData_extract_cells. cbn [Z.leb Z.compare andb Z.eqb].
    rewrite Z.quot_div_nonneg by lia. apply to_byte_small.
    split; [apply Z.div_pos; lia|].
    apply Z.div_lt_upper_bound; lia. }
  split; [exact H0|]. unfold payload. rewrite H0. apply map_ext_in.
  intros k Hk. apply in_seq in Hk. rewrite receiveData_extract_cells.
  assert (Hq : 2 * ((count - 2) / 2) <= count - 2)
    by (apply Z.mul_div_le; lia).
  replace ((1 <=? 1 + Z.of_nat k) && (1 + Z.of_nat k <=? count - 2))
    with true
    by (symmetry; apply andb_true_intro; split; apply Z.leb_le; lia).
  f_equal. lia.
Qed.

(** C1 (round trip).  For every payload [p] of 1 to MAXBYTES bytes, the
    frame [sendData] builds is [START], each byte followed by its
    complement, then [END] twice, and the extraction [receiveData] performs
    on ACK hands the caller exactly [p] again ([data[0]] bytes from
    [data[1]] on).  For the payload [5] the frame is the five bytes
    [START, 5, ~5, END, END], and extracting from that buffer gives [5]. *)
Theorem sendData_receiveData_round_trip
  (p : list Z) (tempData0 data0 : array) :
  1 <= Z.of_nat (length p) <= MAXBYTES ->
  let numBytes := Z.of_nat (length p) in
  let frame := sendData_frame tempData0 (of_list p) numBytes in
  let count := sendData_numDataBytes numBytes in
  slice frame (Z.to_nat count) = wire p /\
  payload (receiveData_extract frame data0 count) = p /\
  slice (sendData_frame tempData0 (of_list [5]) 1) 5
  = [START; 5; inverse 5; END; END] /\
  payload (receiveData_extract (of_list [START; 5; inverse 5; END; END])
             data0 5) = [5].
Proof.
  intros Hp numBytes frame count. unfold MAXBYTES in Hp.
  assert (Hc : count = 2 * numBytes + 3)
    by (apply numDataBytes_small; subst numBytes; lia).
  split; [|split; [|split]].
  - rewrite Hc. subst numBytes frame.
    replace (Z.to_nat (2 * Z.of_nat (length p) + 3))
      with (2 * length p + 3)%nat by lia.
    apply sendData_frame_wire. lia.
  - destruct (receiveData_extract_payload frame data0 count ltac:(lia))
      as [_ ->].
    rewrite Hc. replace (2 * numBytes + 3 - 2) with (1 + numBytes * 2) by lia.
    rewrite Z.div_add, Z.div_small, Z.add_0_l by lia.
    subst numBytes. rewrite Nat2Z.id.
    rewrite <- (slice_eq (of_list p) p) at 2
      by (intros k _; apply of_list_nth).
    unfold slice. apply map_ext_in. intros k Hk. apply in_seq in Hk.
    subst frame. rewrite sendData_frame_cells by lia.
    replace (2 * Z.of_nat k + 1 =? 0) with false
      by (symmetry; apply Z.eqb_neq; lia).
    replace ((1 <=? 2 * Z.of_nat k + 1)
             && (2 * Z.of_nat k + 1 <=? 2 * Z.of_nat (length p)))
      with true
      by (symmetry; apply andb_true_intro; split; apply Z.leb_le; lia).
    rewrite (Z.add_comm _ 1), Z.odd_add_mul_2. cbn [Z.odd].
    replace (1 + 2 * Z.of_nat k - 1) with (Z.of_nat k * 2) by lia.
    now rewrite Z.div_mul by lia.
  - reflexivity.
  - reflexivity.
Qed.

Lemma sendData_receiveData_round_trip_witness :
  slice (sendData_frame (fun _ => 0) (of_list [1; 2; 3]) 3) 9
  = [START; 1; 254; 2; 253; 3; 252; END; END] /\
  payload (receiveData_extract
             (sendData_frame (fun _ => 0) (of_list [1; 2; 3]) 3)
             (fun _ => 0) 9) = [1; 2; 3].
Proof.
  destruct (sendData_receiveData_round_trip [1; 2; 3] (fun _ => 0)
              (fun _ => 0)) as (H1 & H2 & _).
  - unfold MAXBYTES. cbn. lia.
  - split; [exact H1 | exact H2].
Defined.

(** ** verifyData on a changed data byte *)

Lemma land_even_flag (v : Z) (c : bool) :
  Z.even v = true -> Z.land v (Z.b2z c) = 0.
Proof.
  intros H. destruct c; cbn [Z.b2z]; [|apply Z.land_0_r].
  change 1 with (Z.ones 1). rewrite Z.land_ones by lia.
  change (2 ^ 1) with 2. now rewrite Zmod_even, H.
Qed.

Lemma verifyData_pairs_blind (data1 data2 : array) (idx : list Z) :
  forallb (fun i => Z.even (data1 i) || (data1 i =? data2 i)) idx = true ->
  verifyData_pairs data1 data2 idx = true.
Proof.
  induction idx as [|i idx IH]; intros H; [reflexivity|].
  cbn [forallb] in H. apply andb_prop in H. destruct H as [Hi Hrest].
  cbn [verifyData_pairs]. unfold verifyData_mismatch.
  apply orb_prop in Hi. destruct Hi as [Hi|Hi].
  - rewrite (land_even_flag _ _ Hi). cbn [truthy Z.eqb negb andb].
    now apply IH.
  - rewrite Hi. cbn [negb]. rewrite !Bool.andb_false_r. now apply IH.
Qed.

(** C2 (frame comparison), evaluated.  When both buffers carry [START]
    and the final [END], [verifyData] returns true as soon as, at every
    index its loop visits, the first buffer's byte is even or equals the
    second one's: a data byte of the second buffer that differs from an
    even byte of the first goes unnoticed.  So for two well-framed
    five-byte buffers that differ in their
    data byte only, 4 against 6, inverse byte ~4 in both, [verifyData]
    returns true, and a [sendData] of the payload [4] that reads the second
    buffer as echo answers ACK and returns true. *)
Theorem verifyData_accepts_changed_byte :
  (forall data1 data2 numDataBytes,
      data1 0 = START -> data2 0 = START ->
      data1 (numDataBytes - 1) = END -> data2 (numDataBytes - 1) = END ->
      forallb (fun i => Z.even (data1 i) || (data1 i =? data2 i))
        (for_indices 1 (numDataBytes - 1) 2) = true ->
      verifyData data1 data2 numDataBytes = true) /\
  verifyData (of_list [START; 4; inverse 4; END; END])
             (of_list [START; 6; inverse 4; END; END]) 5 = true /\
  sendData None zeros 8 (of_list [4]) 1 PORT2
    (lines [] (map Byte [START; 6; inverse 4; END; END]))
  = Ret true
      (mkWorld 744 [] [] [] [START; 4; inverse 4; END; END; ACK]
         RECEIVE_MODE RECEIVE_MODE).
Proof.
  split; [|split; vm_compute; reflexivity].
  intros data1 data2 numDataBytes Hs1 Hs2 He1 He2 Heven. unfold verifyData.
  rewrite Hs1, Hs2, He1, He2, !Z.eqb_refl. cbn [andb].
  now apply verifyData_pairs_blind.
Qed.

Lemma verifyData_accepts_changed_byte_witness :
  verifyData (of_list [START; 2; inverse 2; 8; inverse 8; END; END])
             (of_list [START; 3; inverse 2; 7; inverse 8; END; END]) 7
  = true.
Proof.
  apply (proj1 verifyData_accepts_changed_byte); reflexivity.
Defined.

(** ** checkPortHasData without a byte to report *)

(** C10 (entry poll), evaluated.  No call of [checkPortHasData] returns
    false: on a silent PORT1 or PORT2, and on a port number that is neither,
    control reaches the end of the function without a [return]. *)
Theorem checkPortHasData_never_false :
  (forall port w, is_false (fst (checkPortHasData port w)) = false) /\
  fst (checkPortHasData PORT1 (lines [] [])) = None /\
  fst (checkPortHasData PORT2 (lines [] [Idle])) = None /\
  fst (checkPortHasData 3 (lines [Byte START] [Byte START])) = None /\
  receiveData None zeros 8 zeros dataLength PORT1 (lines [] []) = Undefined.
Proof.
  split; [|repeat split].
  intros port w. unfold checkPortHasData.
  destruct (port =? PORT1).
  - destruct (available _ _) as [[] ?]; reflexivity.
  - destruct (port =? PORT2); [|reflexivity].
    destruct (available _ _) as [[] ?]; reflexivity.
Qed.

(** ** Invariants of the world along a call *)

Lemma post_ret {A : Type} (m : outcome A) (Q : A -> World -> Prop)
  (a : A) (w : World) : post m Q -> m = Ret a w -> Q a w.
Proof. intros H E. rewrite E in H. exact H. Qed.

Lemma post_bind {A B : Type} (m : outcome A) (k : A -> World -> outcome B)
  (Q1 : A -> World -> Prop) (Q2 : B -> World -> Prop) :
  post m Q1 -> (forall a w, Q1 a w -> post (k a w) Q2) -> post (bind m k) Q2.
Proof. destruct m as [a w| |]; cbn; auto. Qed.

Section Invariant.

Variable fallthrough : option bool.
Variable uninit : array.

(** A property of the world kept by the passing of time, by the
    consumption of incoming slots, by putting a line in receive mode and by
    the two transmission functions. *)
Variable P : World -> Prop.
Hypothesis P_elapse : forall us w, P w -> P (elapse us w).
Hypothesis P_set_rx : forall s l w, P w -> P (set_rx s l w).
Hypothesis P_receive :
  forall pin w, P w -> P (digitalWrite pin RECEIVE_MODE w).
Hypothesis P_sendBuffer :
  forall data n port w, P w -> P (sendBuffer data n port w).
Hypothesis P_sendByte : forall b port w, P w -> P (sendByte b port w).

Lemma inv_available (s : serial) (w : World) :
  P w -> P (snd (available s w)).
Proof.
  intros H. unfold available. destruct (rx s w) as [|[|b] l]; cbn [snd]; auto.
Qed.

Lemma inv_read (s : serial) (w : World) : P w -> P (snd (read s w)).
Proof.
  intros H. unfold read. destruct (rx s w) as [|[|b] l]; cbn [snd]; auto.
Qed.

Lemma inv_checkPortHasData (port : Z) (w : World) :
  P w -> P (snd (checkPortHasData port w)).
Proof.
  intros H. unfold checkPortHasData, listen.
  destruct (port =? PORT1).
  - pose proof (inv_available rs485Port1 _ (P_receive PORT1_ENABLE w H)) as Ha.
    destruct (available _ _) as [[] w1]; exact Ha.
  - destruct (port =? PORT2); [|exact H].
    pose proof (inv_available rs485Port2 _ (P_receive PORT2_ENABLE w H)) as Ha.
    destruct (available _ _) as [[] w1]; exact Ha.
Qed.

Lemma inv_call_checkPortHasData (port : Z) (w : World) :
  P w -> post (call_checkPortHasData fallthrough port w) (fun _ w' => P w').
Proof.
  intros H. unfold call_checkPortHasData.
  pose proof (inv_checkPortHasData port w H) as Hc.
  destruct (checkPortHasData port w) as [[b|] w1]; cbn [snd] in Hc.
  - exact Hc.
  - destruct fallthrough; [exact Hc | exact I].
Qed.

Lemma inv_readByte (port : Z) (w : World) : P w -> P (snd (readByte port w)).
Proof.
  intros H. unfold readByte, listen.
  destruct (port =? PORT1).
  - pose proof (inv_available rs485Port1 w H) as Ha.
    destruct (available _ _) as [[] w1]; cbn [snd] in *; [|exact Ha].
    pose proof (inv_read rs485Port1 w1 Ha) as Hr.
    destruct (read _ _) as [d w2]. exact Hr.
  - destruct (port =? PORT2); [|exact H].
    pose proof (inv_available rs485Port2 w H) as Ha.
    destruct (available _ _) as [[] w1]; cbn [snd] in *; [|exact Ha].
    pose proof (inv_read rs485Port2 w1 Ha) as Hr.
    destruct (read _ _) as [d w2]. exact Hr.
Qed.

Lemma inv_accumulate (s : serial) (fuel : nat) (maxDataLength : Z) :
  forall (tempData : array) (count : Z) (endMode : bool) (w : World),
    P w ->
    post (readBuffer_accumulate s fuel maxDataLength tempData count endMode w)
         (fun _ w' => P w').
Proof.
  induction fuel as [|fuel IH]; intros tempData count endMode w H;
    cbn [readBuffer_accumulate];
    destruct ((count <? maxDataLength + 1) && endMode); try exact H;
    [exact I|].
  pose proof (inv_available s w H) as Ha.
  destruct (available s w) as [[] w1]; cbn [snd] in Ha.
  - pose proof (inv_read s w1 Ha) as Hr.
    destruct (read s w1) as [b w2]. cbn [snd] in Hr. now apply IH.
  - now apply IH.
Qed.

Lemma inv_readBuffer_body (fuel : nat) (tempData : array)
  (maxDataLength port count : Z) (w : World) :
  P w ->
  post (readBuffer_body fuel tempData maxDataLength port count w)
       (fun _ w' => P w').
Proof.
  intros H. unfold readBuffer_body.
  apply post_bind with (Q1 := fun _ w' => P w').
  - destruct (port =? PORT1); [now apply inv_accumulate|].
    destruct (port =? PORT2); [now apply inv_accumulate|exact H].
  - intros [t c] w1 H1. exact H1.
Qed.

Lemma inv_readBuffer_loop (fuel : nat) (tempData : array)
  (maxDataLength port timeOut count : Z) :
  forall w,
    P w ->
    post (readBuffer_loop fallthrough fuel tempData maxDataLength port
            timeOut count w)
         (fun _ w' => P w').
Proof.
  induction fuel as [|fuel IH]; intros w H; cbn [readBuffer_loop];
    destruct (timeOut + sendReceiveTimeout >? millis w); try exact H;
    [exact I|].
  apply post_bind with (Q1 := fun _ w' => P w').
  - now apply inv_call_checkPortHasData.
  - intros [] w1 H1; [|exact H1].
    destruct (count <? maxDataLength); [now apply inv_readBuffer_body|].
    now apply IH.
Qed.

Lemma inv_readBuffer (fuel : nat) (tempData : array)
  (maxDataLength port : Z) (w : World) :
  P w ->
  post (readBuffer fallthrough fuel tempData maxDataLength port w)
       (fun _ w' => P w').
Proof. intros H. now apply inv_readBuffer_loop. Qed.

Lemma inv_sendData_wait (fuel : nat) (tempData : array)
  (numDataBytes port timeOut : Z) :
  forall w,
    P w ->
    post (sendData_wait fallthrough uninit fuel tempData numDataBytes port
            timeOut w)
         (fun _ w' => P w').
Proof.
  induction fuel as [|fuel IH]; intros w H; cbn [sendData_wait];
    destruct (timeOut + sendReceiveTimeout >? millis w); try exact H;
    [exact I|].
  apply post_bind with (Q1 := fun _ w' => P w').
  - now apply inv_call_checkPortHasData.
  - intros [] w1 H1; [|now apply IH].
    apply post_bind with (Q1 := fun _ w' => P w').
    + now apply inv_readBuffer.
    + intros [c t] w2 H2.
      destruct ((0 <? c) && verifyData tempData t numDataBytes); cbn [post].
      * unfold delayMicroseconds. auto.
      * auto.
Qed.

Lemma inv_sendData (fuel : nat) (data : array) (numBytes port : Z)
  (w : World) :
  P w ->
  post (sendData fallthrough uninit fuel data numBytes port w)
       (fun _ w' => P w').
Proof.
  intros H. unfold sendData. destruct (numBytes <=? 0); [exact H|].
  apply inv_sendData_wait. now apply P_sendBuffer.
Qed.

Lemma inv_receiveData_wait (fuel : nat) (tempData : array) (count : Z)
  (data : array) (port timeout : Z) :
  forall w,
    P w ->
    post (receiveData_wait fallthrough fuel tempData count data port
            timeout w)
         (fun _ w' => P w').
Proof.
  induction fuel as [|fuel IH]; intros w H; cbn [receiveData_wait];
    destruct (timeout + sendReceiveTimeout >? millis w); try exact H;
    [exact I|].
  apply post_bind with (Q1 := fun _ w' => P w').
  - now apply inv_call_checkPortHasData.
  - intros [] w1 H1; [|now apply IH].
    pose proof (inv_readByte port w1 H1) as Hr.
    destruct (readByte port w1) as [response w2]. cbn [snd] in Hr.
    destruct (0 <? response); [|now apply IH].
    destruct (response =? ACK); [exact Hr|].
    destruct (response =? NAK); exact Hr.
Qed.

(** [receiveData] from the point where its entry poll has returned. *)
Lemma inv_receiveData_polled (fuel : nat) (data : array)
  (maxDataLength port : Z) (has : bool) (w1 : World) :
  P w1 ->
  post (if has then
          run (readBuffer fallthrough fuel uninit maxDataLength port w1)
          giving (count, tempData1) at w2 ;;
          if 0 <? count then
            receiveData_wait fallthrough fuel tempData1 count data port
              (millis (delay 1 (sendBuffer tempData1 count port w2)))
              (delay 1 (sendBuffer tempData1 count port w2))
          else Ret (false, data) w2
        else Ret (false, data) w1)
       (fun _ w' => P w').
Proof.
  intros H1. destruct has; [|exact H1].
  apply post_bind with (Q1 := fun _ w' => P w').
  - now apply inv_readBuffer.
  - intros [c t] w2 H2. destruct (0 <? c); [|exact H2].
    apply inv_receiveData_wait. unfold delay. auto.
Qed.

Lemma inv_receiveData (fuel : nat) (data : array) (maxDataLength port : Z)
  (w : World) :
  P w ->
  post (receiveData fallthrough uninit fuel data maxDataLength port w)
       (fun _ w' => P w').
Proof.
  intros H. unfold receiveData.
  apply post_bind with (Q1 := fun _ w' => P w').
  - now apply inv_call_checkPortHasData.
  - intros has w1 H1. now apply inv_receiveData_polled.
Qed.

End Invariant.

(** ** Direction lines *)

Lemma sendBuffer_bytes_enable (s : serial) (data : array) (numBytes : Z)
  (w : World) :
  en1 (sendBuffer_bytes s data numBytes w) = en1 w /\
  en2 (sendBuffer_bytes s data numBytes w) = en2 w.
Proof.
  unfold sendBuffer_bytes. generalize (for_indices 0 numBytes 1) as idx.
  intros idx. revert w. induction idx as [|i idx IH]; intros w.
  - split; reflexivity.
  - cbn [fold_left]. destruct (IH (delayMicroseconds (readWriteDelay / 32)
                                     (write s (data i) w))) as [-> ->].
    destruct s; split; reflexivity.
Qed.

Lemma sendBuffer_enable (data : array) (numBytes port : Z) (w : World) :
  en1 (sendBuffer data numBytes port w)
  = (if port =? PORT1 then RECEIVE_MODE else en1 w) /\
  en2 (sendBuffer data numBytes port w)
  = (if port =? PORT1 then en2 w
     else if port =? PORT2 then RECEIVE_MODE else en2 w).
Proof.
  unfold sendBuffer, flush. destruct (port =? PORT1).
  - split; [reflexivity|].
    change (en2 (sendBuffer_bytes rs485Port1 data numBytes
                   (digitalWrite PORT1_ENABLE SEND_MODE w)) = en2 w).
    now destruct (sendBuffer_bytes_enable rs485Port1 data numBytes
                    (digitalWrite PORT1_ENABLE SEND_MODE w)) as [_ ->].
  - destruct (port =? PORT2); [|split; reflexivity].
    split; [|reflexivity].
    change (en1 (sendBuffer_bytes rs485Port2 data numBytes
                   (digitalWrite PORT2_ENABLE SEND_MODE w)) = en1 w).
    now destruct (sendBuffer_bytes_enable rs485Port2 data numBytes
                    (digitalWrite PORT2_ENABLE SEND_MODE w)) as [-> _].
Qed.

Lemma sendByte_enable (temp port : Z) (w : World) :
  en1 (sendByte temp port w)
  = (if port =? PORT1 then RECEIVE_MODE else en1 w) /\
  en2 (sendByte temp port w)
  = (if port =? PORT1 then en2 w
     else if port =? PORT2 then RECEIVE_MODE else en2 w).
Proof.
  unfold sendByte, flush. destruct (port =? PORT1); [split; reflexivity|].
  destruct (port =? PORT2); split; reflexivity.
Qed.

Lemma in_transmit_levels (q : Z) (w w' : World) :
  (en1 w = RECEIVE_MODE -> en1 w' = RECEIVE_MODE) ->
  (en2 w = RECEIVE_MODE -> en2 w' = RECEIVE_MODE) ->
  in_transmit q w = false -> in_transmit q w' = false.
Proof.
  unfold in_transmit, enable_line, RECEIVE_MODE, SEND_MODE. intros H1 H2.
  destruct (q =? PORT1).
  - destruct (en1 w); [discriminate|]. now rewrite H1.
  - destruct (q =? PORT2); [|reflexivity].
    destruct (en2 w); [discriminate|]. now rewrite H2.
Qed.

Lemma sendBuffer_receive (data : array) (numBytes port : Z) (w : World) :
  in_transmit port (sendBuffer data numBytes port w) = false.
Proof.
  destruct (sendBuffer_enable data numBytes port w) as [H1 H2].
  unfold in_transmit, enable_line. rewrite H1, H2.
  destruct (port =? PORT1); [reflexivity|].
  destruct (port =? PORT2); reflexivity.
Qed.

Lemma sendByte_receive (temp port : Z) (w : World) :
  in_transmit port (sendByte temp port w) = false.
Proof.
  destruct (sendByte_enable temp port w) as [H1 H2].
  unfold in_transmit, enable_line. rewrite H1, H2.
  destruct (port =? PORT1); [reflexivity|].
  destruct (port =? PORT2); reflexivity.
Qed.

Lemma sendBuffer_keeps_receive (q : Z) (data : array) (numBytes port : Z)
  (w : World) :
  in_transmit q w = false ->
  in_transmit q (sendBuffer data numBytes port w) = false.
Proof.
  destruct (sendBuffer_enable data numBytes port w) as [H1 H2].
  apply in_transmit_levels; intros H; [rewrite H1 | rewrite H2];
    destruct (port =? PORT1); try destruct (port =? PORT2); auto.
Qed.

Lemma sendByte_keeps_receive (q temp port : Z) (w : World) :
  in_transmit q w = false -> in_transmit q (sendByte temp port w) = false.
Proof.
  destruct (sendByte_enable temp port w) as [H1 H2].
  apply in_transmit_levels; intros H; [rewrite H1 | rewrite H2];
    destruct (port =? PORT1); try destruct (port =? PORT2); auto.
Qed.

Lemma digitalWrite_keeps_receive (q pin : Z) (w : World) :
  in_transmit q w = false ->
  in_transmit q (digitalWrite pin RECEIVE_MODE w) = false.
Proof.
  apply in_transmit_levels; unfold digitalWrite; intros H;
    destruct (pin =? PORT1_ENABLE); try destruct (pin =? PORT2_ENABLE); auto.
Qed.

Lemma available_enable (s : serial) (w : World) :
  en1 (snd (available s w)) = en1 w /\ en2 (snd (available s w)) = en2 w.
Proof.
  unfold available. destruct (rx s w) as [|[|b] l]; destruct s; split;
    reflexivity.
Qed.

Lemma checkPortHasData_receive (port : Z) (w : World) :
  in_transmit port (snd (checkPortHasData port w)) = false.
Proof.
  unfold checkPortHasData, listen, in_transmit, enable_line.
  destruct (port =? PORT1).
  - pose proof (available_enable rs485Port1
                  (digitalWrite PORT1_ENABLE RECEIVE_MODE w)) as [H1 _].
    destruct (available _ _) as [[] w1]; cbn [snd] in *; now rewrite H1.
  - destruct (port =? PORT2); [|reflexivity].
    pose proof (available_enable rs485Port2
                  (digitalWrite PORT2_ENABLE RECEIVE_MODE w)) as [_ H2].
    destruct (available _ _) as [[] w1]; cbn [snd] in *; now rewrite H2.
Qed.

(** C8 (direction discipline).  [sendBuffer] and [sendByte] leave the
    enable line of the port they were called on in receive mode, whatever
    its level was before.  When [sendData] (with a length it accepts) or
    [receiveData] returns, the line of its port is in receive mode, and any
    line that was in receive mode before the call still is. *)
Theorem transmissions_end_in_receive_mode :
  (forall data numBytes port w,
      in_transmit port (sendBuffer data numBytes port w) = false) /\
  (forall temp port w, in_transmit port (sendByte temp port w) = false) /\
  (forall fallthrough uninit fuel data numBytes port w b w' q,
      sendData fallthrough uninit fuel data numBytes port w = Ret b w' ->
      (0 < numBytes -> in_transmit port w' = false) /\
      (in_transmit q w = false -> in_transmit q w' = false)) /\
  (forall fallthrough uninit fuel data maxDataLength port w r w' q,
      receiveData fallthrough uninit fuel data maxDataLength port w
      = Ret r w' ->
      in_transmit port w' = false /\
      (in_transmit q w = false -> in_transmit q w' = false)).
Proof.
  assert (Hinv : forall q,
    (forall us w, in_transmit q w = false -> in_transmit q (elapse us w) = false) /\
    (forall s l w, in_transmit q w = false -> in_transmit q (set_rx s l w) = false)).
  { intros q. split.
    - intros us w. apply in_transmit_levels; auto.
    - intros s l w. apply in_transmit_levels; destruct s; auto. }
  split; [exact sendBuffer_receive|]. split; [exact sendByte_receive|]. split.
  - intros ft uninit fuel data numBytes port w b w' q E. split.
    + intros Hn. unfold sendData in E.
      replace (numBytes <=? 0) with false in E
        by (symmetry; apply Z.leb_gt; lia).
      refine (post_ret _ (fun _ w0 => in_transmit port w0 = false) b w' _ E).
      apply (inv_sendData_wait ft uninit
               (fun w => in_transmit port w = false));
        try apply (Hinv port).
      * intros pin w0. apply digitalWrite_keeps_receive.
      * intros b0 p0 w0. apply sendByte_keeps_receive.
      * apply sendBuffer_receive.
    + intros Hq. refine (post_ret _ (fun _ w0 => in_transmit q w0 = false) b w' _ E).
      apply (inv_sendData ft uninit (fun w => in_transmit q w = false));
        try apply (Hinv q); try exact Hq.
      * intros pin w0. apply digitalWrite_keeps_receive.
      * intros d0 n0 p0 w0. apply sendBuffer_keeps_receive.
      * intros b0 p0 w0. apply sendByte_keeps_receive.
  - intros ft uninit fuel data maxDataLength port w r w' q E. split.
    + unfold receiveData, call_checkPortHasData in E.
      pose proof (checkPortHasData_receive port w) as Hc.
      destruct (checkPortHasData port w) as [[has|] w1]; cbn [snd] in Hc.
      * cbn [bind] in E.
        refine (post_ret _ (fun _ w0 => in_transmit port w0 = false) r w' _ E).
        apply (inv_receiveData_polled ft uninit
                 (fun w => in_transmit port w = false));
          try apply (Hinv port); try exact Hc.
        -- intros pin w0. apply digitalWrite_keeps_receive.
        -- intros d0 n0 p0 w0. apply sendBuffer_keeps_receive.
      * destruct ft as [has|]; [|discriminate E].
        cbn [bind] in E.
        refine (post_ret _ (fun _ w0 => in_transmit port w0 = false) r w' _ E).
        apply (inv_receiveData_polled (Some has) uninit
                 (fun w => in_transmit port w = false));
          try apply (Hinv port); try exact Hc.
        -- intros pin w0. apply digitalWrite_keeps_receive.
        -- intros d0 n0 p0 w0. apply sendBuffer_keeps_receive.
    + intros Hq. refine (post_ret _ (fun _ w0 => in_transmit q w0 = false) r w' _ E).
      apply (inv_receiveData ft uninit (fun w => in_transmit q w = false));
        try apply (Hinv q); try exact Hq.
      * intros pin w0. apply digitalWrite_keeps_receive.
      * intros d0 n0 p0 w0. apply sendBuffer_keeps_receive.
Qed.

Lemma transmissions_end_in_receive_mode_witness :
  (exists w',
      sendData None zeros 8 (of_list [5]) 1 PORT2
        (mkWorld 0 [] (map Byte (wire [5])) [] [] SEND_MODE SEND_MODE)
      = Ret true w' /\
      in_transmit PORT2
        (mkWorld 0 [] (map Byte (wire [5])) [] [] SEND_MODE SEND_MODE)
      = true /\
      in_transmit PORT2 w' = false) /\
  (exists out w',
      receiveData None zeros 12 zeros dataLength PORT1
        (mkWorld 0 (map Byte (wire [7] ++ [ACK])) [] [] [] SEND_MODE SEND_MODE)
      = Ret (true, out) w' /\
      in_transmit PORT1
        (mkWorld 0 (map Byte (wire [7] ++ [ACK])) [] [] [] SEND_MODE SEND_MODE)
      = true /\
      in_transmit PORT1 w' = false).
Proof.
  destruct transmissions_end_in_receive_mode as (_ & _ & Hs & Hr).
  split.
  - assert (E : exists w',
               sendData None zeros 8 (of_list [5]) 1 PORT2
                 (mkWorld 0 [] (map Byte (wire [5])) [] [] SEND_MODE
                    SEND_MODE) = Ret true w').
    { eexists. vm_compute. reflexivity. }
    destruct E as (w' & E). exists w'. split; [exact E|].
    split; [reflexivity|].
    apply (proj1 (Hs _ _ _ _ _ _ _ _ _ PORT1 E)). lia.
  - assert (E : exists out w',
               receiveData None zeros 12 zeros dataLength PORT1
                 (mkWorld 0 (map Byte (wire [7] ++ [ACK])) [] [] []
                    SEND_MODE SEND_MODE) = Ret (true, out) w').
    { eexists _, _. vm_compute. reflexivity. }
    destruct E as (out & w' & E). exists out, w'. split; [exact E|].
    split; [reflexivity|].
    exact (proj1 (Hr _ _ _ _ _ _ _ _ _ PORT2 E)).
Defined.

(** ** What the primitives leave unchanged *)

Lemma rx_digitalWrite (s : serial) (pin : Z) (level : bool) (w : World) :
  rx s (digitalWrite pin level w) = rx s w.
Proof.
  unfold digitalWrite. destruct (pin =? PORT1_ENABLE);
    [|destruct (pin =? PORT2_ENABLE)]; destruct s; reflexivity.
Qed.

Lemma tx_digitalWrite (s : serial) (pin : Z) (level : bool) (w : World) :
  tx s (digitalWrite pin level w) = tx s w.
Proof.
  unfold digitalWrite. destruct (pin =? PORT1_ENABLE);
    [|destruct (pin =? PORT2_ENABLE)]; destruct s; reflexivity.
Qed.

Lemma rx_elapse (s : serial) (us : Z) (w : World) :
  rx s (elapse us w) = rx s w.
Proof. destruct s; reflexivity. Qed.

Lemma rx_set_rx (s : serial) (l : list slot) (w : World) :
  rx s (set_rx s l w) = l.
Proof. destruct s; reflexivity. Qed.

Lemma sendBuffer_bytes_lines (s s' : serial) (data : array) (numBytes : Z)
  (w : World) :
  rx s' (sendBuffer_bytes s data numBytes w) = rx s' w /\
  tx s (sendBuffer_bytes s data numBytes w)
  = tx s w ++ map data (for_indices 0 numBytes 1).
Proof.
  unfold sendBuffer_bytes. generalize (for_indices 0 numBytes 1) as idx.
  intros idx. revert w. induction idx as [|i idx IH]; intros w.
  - cbn [fold_left map]. now rewrite app_nil_r.
  - cbn [fold_left map].
    destruct (IH (delayMicroseconds (readWriteDelay / 32)
                    (write s (data i) w))) as [-> ->].
    split.
    + destruct s, s'; reflexivity.
    + replace (tx s (delayMicroseconds (readWriteDelay / 32)
                       (write s (data i) w)))
        with (tx s w ++ [data i]) by (destruct s; reflexivity).
      now rewrite <- app_assoc.
Qed.

Lemma sendBuffer_lines (s s' : serial) (data : array) (numBytes : Z)
  (w : World) :
  rx s' (sendBuffer data numBytes (port_of s) w) = rx s' w /\
  tx s (sendBuffer data numBytes (port_of s) w)
  = tx s w ++ map data (for_indices 0 numBytes 1).
Proof.
  destruct s; unfold sendBuffer, port_of, flush, delayMicroseconds;
    cbn [Z.eqb PORT1 PORT2 Pos.eqb];
    rewrite rx_digitalWrite, tx_digitalWrite, rx_elapse;
    match goal with
    | |- context [sendBuffer_bytes ?s0 ?d ?n ?w0] =>
        destruct (sendBuffer_bytes_lines s0 s' d n w0) as [-> H]
    end.
  - rewrite rx_digitalWrite. split; [reflexivity|].
    change (tx rs485Port1 (sendBuffer_bytes rs485Port1 data numBytes
              (digitalWrite PORT1_ENABLE SEND_MODE w))
            = tx rs485Port1 w ++ map data (for_indices 0 numBytes 1)).
    rewrite H. now rewrite tx_digitalWrite.
  - rewrite rx_digitalWrite. split; [reflexivity|].
    change (tx rs485Port2 (sendBuffer_bytes rs485Port2 data numBytes
              (digitalWrite PORT2_ENABLE SEND_MODE w))
            = tx rs485Port2 w ++ map data (for_indices 0 numBytes 1)).
    rewrite H. now rewrite tx_digitalWrite.
Qed.

Lemma deadline_ahead (w : World) :
  (millis w + sendReceiveTimeout >? millis w) = true.
Proof.
  apply Z.gtb_lt. change sendReceiveTimeout with 201. lia.
Qed.

(** The poll of a port with a pending byte returns true and leaves the
    byte where it is. *)
Lemma poll_pending (fallthrough : option bool) (s : serial) (b : Z)
  (l : list slot) (w : World) :
  rx s w = Byte b :: l ->
  call_checkPortHasData fallthrough (port_of s) w
  = Ret true (digitalWrite (enable_pin s) RECEIVE_MODE w).
Proof.
  intros H. unfold call_checkPortHasData, checkPortHasData, listen.
  destruct s; cbn [port_of enable_pin Z.eqb PORT1 PORT2 Pos.eqb];
    unfold available; rewrite rx_digitalWrite, H; reflexivity.
Qed.

(** ** The accumulation loop of readBuffer *)

Lemma available_idle (s : serial) (l : list slot) (w : World) :
  rx s w = Idle :: l -> available s w = (false, elapse 1000 (set_rx s l w)).
Proof. intros H. unfold available. now rewrite H. Qed.

Lemma available_silent (s : serial) (w : World) :
  rx s w = [] -> available s w = (false, elapse 1000 w).
Proof. intros H. unfold available. now rewrite H. Qed.

Lemma available_byte (s : serial) (b : Z) (l : list slot) (w : World) :
  rx s w = Byte b :: l -> available s w = (true, w).
Proof. intros H. unfold available. now rewrite H. Qed.

Lemma read_byte (s : serial) (b : Z) (l : list slot) (w : World) :
  rx s w = Byte b :: l -> read s w = (b, set_rx s l w).
Proof. intros H. unfold read. now rewrite H. Qed.

Lemma store_all_below (bs : list Z) :
  forall (t : array) (count j : Z),
    j < count -> store_all t count bs j = t j.
Proof.
  induction bs as [|b bs IH]; intros t count j H; cbn [store_all];
    [reflexivity|].
  rewrite IH by lia. apply upd_other. lia.
Qed.

Lemma store_all_nth (bs : list Z) :
  forall (t : array) (count : Z) (k : nat),
    (k < length bs)%nat ->
    store_all t count bs (count + Z.of_nat k) = nth k bs 0.
Proof.
  induction bs as [|b bs IH]; intros t count k H; cbn [length] in H;
    [lia|].
  cbn [store_all]. destruct k as [|k].
  - rewrite Z.add_0_r, store_all_below by lia. apply upd_same.
  - replace (count + Z.of_nat (S k)) with ((count + 1) + Z.of_nat k) by lia.
    rewrite IH by lia. reflexivity.
Qed.

Lemma store_all_slice (t : array) (bs : list Z) :
  slice (store_all t 0 bs) (length bs) = bs.
Proof.
  apply slice_eq. intros k Hk.
  now rewrite <- (store_all_nth bs t 0 k Hk).
Qed.

Lemma double_END_below (t t' : array) (k : Z) :
  (forall j, j < k -> t' j = t j) -> double_END t' k = double_END t k.
Proof.
  intros H. unfold double_END. now rewrite !H by lia.
Qed.

Lemma ends_with_byte_bytes (sl : list slot) :
  ends_with_byte sl = true -> sl <> [] -> bytes_of sl <> [].
Proof.
  induction sl as [|x sl IH]; intros He Hn; [congruence|].
  destruct x as [|b]; [|cbn; congruence].
  destruct sl as [|y sl]; [discriminate He|].
  cbn [bytes_of]. apply IH; [exact He | congruence].
Qed.

Lemma ends_with_byte_tail (x : slot) (sl : list slot) :
  ends_with_byte (x :: sl) = true -> ends_with_byte sl = true.
Proof.
  destruct sl as [|y sl]; [reflexivity|]. destruct x; intros H; exact H.
Qed.

(** The loop takes the slots of [sl] one by one: it skips the idle ones and
    stores the bytes, as long as it does not stop before the last of them. *)
Lemma accumulate_run (s : serial) (maxDataLength : Z) (extra : nat) :
  forall (sl rest : list slot) (t : array) (count : Z) (endMode : bool)
         (w : World),
    rx s w = sl ++ rest ->
    ends_with_byte sl = true ->
    Forall is_byte (bytes_of sl) ->
    0 <= count ->
    count + Z.of_nat (length (bytes_of sl)) <= 255 ->
    endMode = negb (double_END t count) ->
    (forall k, count <= k < count + Z.of_nat (length (bytes_of sl)) ->
               keeps_reading maxDataLength
                 (store_all t count (bytes_of sl)) k = true) ->
    exists w',
      rx s w' = rest /\
      readBuffer_accumulate s (length sl + extra) maxDataLength t count
        endMode w
      = readBuffer_accumulate s extra maxDataLength
          (store_all t count (bytes_of sl))
          (count + Z.of_nat (length (bytes_of sl)))
          (negb (double_END (store_all t count (bytes_of sl))
                   (count + Z.of_nat (length (bytes_of sl)))))
          w'.
Proof.
  induction sl as [|x sl IH]; intros rest t count endMode w Hrx He Hb Hc Hn
    Hm Hk.
  - exists w. cbn [bytes_of store_all length Nat.add app] in *.
    rewrite Z.add_0_r. subst endMode. now split.
  - assert (Hne : bytes_of (x :: sl) <> [])
      by (apply ends_with_byte_bytes; [exact He | congruence]).
    assert (Hlen : (0 < length (bytes_of (x :: sl)))%nat)
      by (destruct (bytes_of (x :: sl)); [congruence | cbn; lia]).
    pose proof (Hk count ltac:(lia)) as Hk0.
    unfold keeps_reading in Hk0. apply andb_prop in Hk0.
    destruct Hk0 as [Hlt Hd].
    rewrite (double_END_below t) in Hd
      by (intros j Hj; now apply store_all_below).
    rewrite Hd in Hm. subst endMode.
    cbn [length Nat.add readBuffer_accumulate]. rewrite Hlt. cbn [andb].
    pose proof (ends_with_byte_tail _ _ He) as He'.
    destruct x as [|b].
    + rewrite (available_idle s (sl ++ rest) w Hrx).
      cbn [bytes_of] in *. fold (double_END t count).
      replace (if double_END t count then false else true)
        with (negb (double_END t count))
        by (destruct (double_END _ _); reflexivity).
      rewrite Hd.
      apply IH; try assumption.
      * now rewrite rx_elapse, rx_set_rx.
      * now rewrite Hd.
    + rewrite (available_byte s b (sl ++ rest) w Hrx).
      rewrite (read_byte s b (sl ++ rest) w Hrx).
      cbn [bytes_of store_all length] in *.
      inversion Hb as [|b' bs' Hb1 Hb2]; subst.
      rewrite (to_byte_small b) by exact Hb1.
      rewrite (to_byte_small (count + 1)) by lia.
      replace (count + Z.of_nat (S (length (bytes_of sl))))
        with ((count + 1) + Z.of_nat (length (bytes_of sl))) by lia.
      fold (double_END (upd t count b) (count + 1)).
      replace (if double_END (upd t count b) (count + 1) then false else true)
        with (negb (double_END (upd t count b) (count + 1)))
        by (destruct (double_END _ _); reflexivity).
      apply IH; try assumption; try lia.
      * apply rx_set_rx.
      * reflexivity.
      * intros k Hk'. apply Hk. lia.
Qed.

Lemma accumulate_stop (s : serial) (fuel : nat) (maxDataLength : Z)
  (t : array) (count : Z) (endMode : bool) (w : World) :
  (count <? maxDataLength + 1) && endMode = false ->
  readBuffer_accumulate s fuel maxDataLength t count endMode w
  = Ret (t, count) w.
Proof. intros H. destruct fuel; cbn [readBuffer_accumulate]; now rewrite H. Qed.

Lemma keeps_reading_range (maxDataLength : Z) (t : array) (n : Z) :
  forallb (keeps_reading maxDataLength t) (for_indices 0 n 1) = true ->
  forall k, 0 <= k < n -> keeps_reading maxDataLength t k = true.
Proof.
  rewrite for_indices_count, forallb_forall. intros H k Hk. apply H.
  rewrite <- (Z2Nat.id k) by lia. apply in_map, in_seq. lia.
Qed.

(** [readBuffer] on a port whose line holds the slots [Byte b0 :: sl0]
    and then [rest], when the accumulation loop stops right after them:
    the bytes are stored from index 0, the rest of the line is left, and
    the value is that of the framing checks on what was stored. *)
Lemma readBuffer_on_line (fallthrough : option bool) (s : serial) (b0 : Z)
  (sl0 rest : list slot) (tempData : array) (maxDataLength : Z) (w : World)
  (extra : nat) :
  rx s w = Byte b0 :: sl0 ++ rest ->
  ends_with_byte sl0 = true ->
  Forall is_byte (b0 :: bytes_of sl0) ->
  Z.of_nat (length (b0 :: bytes_of sl0)) <= 255 ->
  0 < maxDataLength ->
  accumulation_ends_at maxDataLength
    (store_all tempData 0 (b0 :: bytes_of sl0))
    (Z.of_nat (length (b0 :: bytes_of sl0))) = true ->
  exists w',
    rx s w' = rest /\
    readBuffer fallthrough (S (length (Byte b0 :: sl0) + extra)) tempData
      maxDataLength (port_of s) w
    = Ret (readBuffer_check (store_all tempData 0 (b0 :: bytes_of sl0))
             (Z.of_nat (length (b0 :: bytes_of sl0))),
           store_all tempData 0 (b0 :: bytes_of sl0)) w'.
Proof.
  intros Hrx He Hb Hn Hmax Hends.
  unfold accumulation_ends_at in Hends. apply andb_prop in Hends.
  destruct Hends as [Hrun Hstop].
  pose proof (keeps_reading_range _ _ _ Hrun) as Hk.
  destruct (accumulate_run s maxDataLength extra (Byte b0 :: sl0) rest
              tempData 0 true
              (digitalWrite (enable_pin s) RECEIVE_MODE w))
    as (w' & Hrest & Hacc); try assumption; try lia; try reflexivity.
  { now rewrite rx_digitalWrite. }
  exists w'. split; [exact Hrest|].
  unfold readBuffer. cbn [readBuffer_loop]. rewrite deadline_ahead.
  rewrite (poll_pending fallthrough s b0 (sl0 ++ rest) w Hrx). cbn [bind].
  replace (0 <? maxDataLength) with true by (symmetry; apply Z.ltb_lt; lia).
  unfold readBuffer_body.
  replace (if port_of s =? PORT1 then
             readBuffer_accumulate rs485Port1
               (length (Byte b0 :: sl0) + extra) maxDataLength tempData 0
               true (digitalWrite (enable_pin s) RECEIVE_MODE w)
           else if port_of s =? PORT2 then
             readBuffer_accumulate rs485Port2
               (length (Byte b0 :: sl0) + extra) maxDataLength tempData 0
               true (digitalWrite (enable_pin s) RECEIVE_MODE w)
           else Ret (tempData, 0) (digitalWrite (enable_pin s) RECEIVE_MODE w))
    with (readBuffer_accumulate s (length (Byte b0 :: sl0) + extra)
            maxDataLength tempData 0 true
            (digitalWrite (enable_pin s) RECEIVE_MODE w))
    by (destruct s; reflexivity).
  rewrite Hacc. cbn [bytes_of] in *. rewrite Z.add_0_l.
  rewrite accumulate_stop; [reflexivity|].
  unfold keeps_reading in Hstop. now apply negb_true_iff in Hstop.
Qed.

(** ** The count readBuffer returns *)

Lemma accumulate_count_range (s : serial) (fuel : nat) (maxDataLength : Z) :
  forall (t : array) (count : Z) (endMode : bool) (w : World),
    0 <= count < 256 ->
    post (readBuffer_accumulate s fuel maxDataLength t count endMode w)
         (fun r _ => 0 <= snd r < 256).
Proof.
  induction fuel as [|fuel IH]; intros t count endMode w H;
    cbn [readBuffer_accumulate];
    destruct ((count <? maxDataLength + 1) && endMode); try exact H;
    [exact I|].
  destruct (available s w) as [[] w1].
  - destruct (read s w1) as [b w2]. apply IH. unfold to_byte.
    apply Z.mod_pos_bound. lia.
  - now apply IH.
Qed.

Lemma readBuffer_check_cases (t : array) (count : Z) :
  0 <= count < 256 ->
  readBuffer_check t count = 0 \/
  (readBuffer_check t count = count /\ 3 <= count < 256 /\
   t 0 = START /\ t (count - 1) = END /\ t (count - 2) = END).
Proof.
  intros Hc. unfold readBuffer_check.
  destruct (Z.eqb_spec (t 0) START) as [H0|H0]; cbn [negb]; [|now left].
  destruct (Z.eqb_spec (t (count - 1)) END) as [H1|H1]; cbn [negb orb];
    [|now left].
  destruct (Z.eqb_spec (t (count - 2)) END) as [H2|H2]; cbn [negb];
    [|now left].
  destruct (Z.eq_dec count 0) as [->|Hz]; [now left|].
  right. repeat split; try assumption; try lia.
  assert (Hse : START <> END) by (unfold START, END; lia).
  destruct (Z.eq_dec count 1) as [->|H1'];
    [replace (1 - 1) with 0 in H1 by lia; congruence|].
  destruct (Z.eq_dec count 2) as [->|H2'];
    [replace (2 - 2) with 0 in H2 by lia; congruence|].
  lia.
Qed.

Lemma readBuffer_count (fallthrough : option bool) (fuel : nat)
  (tempData : array) (maxDataLength port : Z) (w : World) :
  post (readBuffer fallthrough fuel tempData maxDataLength port w)
       (fun r _ =>
          fst r = 0 \/
          (3 <= fst r < 256 /\ snd r 0 = START /\
           snd r (fst r - 1) = END /\ snd r (fst r - 2) = END)).
Proof.
  unfold readBuffer. generalize (millis w) as timeOut. intros timeOut.
  revert w. induction fuel as [|fuel IH]; intros w; cbn [readBuffer_loop];
    destruct (timeOut + sendReceiveTimeout >? millis w);
    try (cbn; now left); [exact I|].
  destruct (call_checkPortHasData fallthrough port w) as [[] w1| |];
    cbn [bind post]; try exact I; [|now left].
  destruct (0 <? maxDataLength); [|apply IH].
  unfold readBuffer_body.
  apply post_bind with (Q1 := fun r _ => 0 <= snd r < 256).
  - destruct (port =? PORT1); [apply accumulate_count_range; lia|].
    destruct (port =? PORT2); [apply accumulate_count_range; lia|].
    cbn. lia.
  - intros [t c] w2 Hc. cbn [snd] in Hc. cbn [post fst snd].
    destruct (readBuffer_check_cases t c Hc) as [->|(-> & H)];
      [now left | now right].
Qed.

(** C7 (framing rejection).  Let a port's line deliver the bytes [bs]
    (idle polls in between allowed) and let the accumulation loop of
    [readBuffer] stop right after them.  With enough fuel [readBuffer]
    returns; the array then holds [bs] from index 0, and the count returned
    is 0 whenever the first byte is not [START] or one of the last two is
    not [END], whatever the other bytes are, and the number of bytes
    accumulated when both checks pass.  On every line and for every
    argument, a count other than 0 is returned only with an array that
    passes both checks at that count. *)
Theorem readBuffer_rejects_bad_framing :
  (forall (fallthrough : option bool) (s : serial) (b0 : Z)
          (sl0 rest : list slot) (tempData : array) (maxDataLength : Z)
          (w : World) (extra : nat),
      let bs := b0 :: bytes_of sl0 in
      let n := Z.of_nat (length bs) in
      let t := store_all tempData 0 bs in
      rx s w = Byte b0 :: sl0 ++ rest ->
      ends_with_byte sl0 = true ->
      Forall is_byte bs ->
      n <= 255 ->
      0 < maxDataLength ->
      accumulation_ends_at maxDataLength t n = true ->
      exists count w',
        readBuffer fallthrough (S (length (Byte b0 :: sl0) + extra)) tempData
          maxDataLength (port_of s) w = Ret (count, t) w' /\
        rx s w' = rest /\
        slice t (length bs) = bs /\
        (t 0 <> START \/ t (n - 1) <> END \/ t (n - 2) <> END ->
         count = 0) /\
        (t 0 = START /\ t (n - 1) = END /\ t (n - 2) = END -> count = n)) /\
  (forall fallthrough fuel tempData maxDataLength port w count t w',
      readBuffer fallthrough fuel tempData maxDataLength port w
      = Ret (count, t) w' ->
      count <> 0 ->
      t 0 = START /\ t (count - 1) = END /\ t (count - 2) = END).
Proof.
  split.
  - intros fallthrough s b0 sl0 rest tempData maxDataLength w extra bs n t
      Hrx He Hb Hn Hmax Hends.
    destruct (readBuffer_on_line fallthrough s b0 sl0 rest tempData
                maxDataLength w extra Hrx He Hb Hn Hmax Hends)
      as (w' & Hrest & Hrun).
    exists (readBuffer_check t n), w'.
    split; [exact Hrun|]. split; [exact Hrest|].
    split; [apply store_all_slice|].
    unfold readBuffer_check.
    destruct (Z.eqb_spec (t 0) START) as [H0|H0]; cbn [negb];
      [|intuition congruence].
    destruct (Z.eqb_spec (t (n - 1)) END) as [H1|H1]; cbn [negb orb];
      [|intuition congruence].
    destruct (Z.eqb_spec (t (n - 2)) END) as [H2|H2]; cbn [negb];
      intuition congruence.
  - intros fallthrough fuel tempData maxDataLength port w count t w' E Hc.
    pose proof (readBuffer_count fallthrough fuel tempData maxDataLength
                  port w) as H.
    rewrite E in H. cbn [post fst snd] in H. tauto.
Qed.

Lemma readBuffer_rejects_bad_framing_witness :
  exists count w',
    readBuffer None 7 zeros dataLength PORT1
      (lines [Byte START; Byte 5; Idle; Byte 250; Byte END; Byte END;
              Byte ACK] [])
    = Ret (count, store_all zeros 0 [START; 5; 250; END; END]) w' /\
    rx rs485Port1 w' = [Byte ACK] /\
    count = 5 /\
    store_all zeros 0 [START; 5; 250; END; END] (count - 1) = END.
Proof.
  destruct (proj1 readBuffer_rejects_bad_framing None rs485Port1 START
              [Byte 5; Idle; Byte 250; Byte END; Byte END] [Byte ACK]
              zeros dataLength
              (lines [Byte START; Byte 5; Idle; Byte 250; Byte END; Byte END;
                      Byte ACK] []) 0%nat)
    as (count & w' & Hrun & Hrest & _ & _ & Hok).
  - reflexivity.
  - reflexivity.
  - repeat (constructor; [unfold is_byte, START, END; lia|]). constructor.
  - cbn. lia.
  - unfold dataLength, MAXBYTES. lia.
  - reflexivity.
  - assert (Hc : count = 5) by (apply Hok; repeat split; reflexivity).
    exists count, w'. split; [exact Hrun|]. split; [exact Hrest|].
    split; [exact Hc|].
    apply (proj2 readBuffer_rejects_bad_framing _ _ _ _ _ _ _ _ _ Hrun).
    rewrite Hc. discriminate.
Defined.

(** ** receiveData *)

Lemma receiveData_wait_true (fallthrough : option bool) (fuel : nat)
  (tempData : array) (count : Z) (data : array) (port timeout : Z) :
  forall w,
    post (receiveData_wait fallthrough fuel tempData count data port
            timeout w)
         (fun r _ =>
            fst r = true -> snd r = receiveData_extract tempData data count).
Proof.
  induction fuel as [|fuel IH]; intros w; cbn [receiveData_wait];
    destruct (timeout + sendReceiveTimeout >? millis w);
    try (cbn; discriminate); [exact I|].
  destruct (call_checkPortHasData fallthrough port w) as [[] w1| |];
    cbn [bind]; try exact I; [|apply IH].
  destruct (readByte port w1) as [response w2].
  destruct (0 <? response); [|apply IH].
  destruct (response =? ACK); [cbn; reflexivity|].
  destruct (response =? NAK); cbn; discriminate.
Qed.

(** C3 (output format of receiveData).  Whenever [receiveData] returns
    true, its entry poll found data, [readBuffer] returned a count of at
    least 3 with an array that passes the framing checks, [data[0]] is
    [(count - 2) / 2] and the bytes after it are, in order, the bytes at the
    odd indices of that array.  For the frame of the payload [1, 2, 3]
    followed by ACK, [receiveData] returns true and [data] starts with
    [3, 1, 2, 3]. *)
Theorem receiveData_output_format :
  (forall fallthrough uninit fuel data maxDataLength port w out w',
      receiveData fallthrough uninit fuel data maxDataLength port w
      = Ret (true, out) w' ->
      exists w1 count tempData w2,
        call_checkPortHasData fallthrough port w = Ret true w1 /\
        readBuffer fallthrough fuel uninit maxDataLength port w1
        = Ret (count, tempData) w2 /\
        3 <= count < 256 /\
        tempData 0 = START /\
        tempData (count - 1) = END /\ tempData (count - 2) = END /\
        out 0 = (count - 2) / 2 /\
        payload out
        = map (fun k => tempData (2 * Z.of_nat k + 1))
              (seq 0 (Z.to_nat ((count - 2) / 2)))) /\
  (exists out w',
      receiveData None zeros 12 zeros dataLength PORT1
        (lines (map Byte (wire [1; 2; 3] ++ [ACK])) [])
      = Ret (true, out) w' /\
      slice out 4 = [3; 1; 2; 3] /\
      tx rs485Port1 w' = wire [1; 2; 3]).
Proof.
  split.
  - intros ft uninit fuel data maxDataLength port w out w' E.
    unfold receiveData in E.
    destruct (call_checkPortHasData ft port w) as [has w1| |] eqn:Ep;
      cbn [bind] in E; try discriminate E.
    destruct has; [|discriminate E].
    pose proof (readBuffer_count ft fuel uninit maxDataLength port w1) as Hc.
    destruct (readBuffer ft fuel uninit maxDataLength port w1)
      as [[count tempData] w2| |] eqn:Er; cbn [bind] in E;
      try discriminate E.
    cbn [post fst snd] in Hc.
    destruct (0 <? count) eqn:E0; [|discriminate E].
    apply Z.ltb_lt in E0. destruct Hc as [Hc|(Hc & Hs & He1 & He2)]; [lia|].
    pose proof (receiveData_wait_true ft fuel tempData count data port
                  (millis (delay 1 (sendBuffer tempData count port w2)))
                  (delay 1 (sendBuffer tempData count port w2))) as Hw.
    rewrite E in Hw. cbn [post fst snd] in Hw. specialize (Hw eq_refl).
    subst out.
    destruct (receiveData_extract_payload tempData data count Hc)
      as [Hd0 Hpay].
    exists w1, count, tempData, w2. repeat split; try assumption; lia.
  - eexists _, _. split; [vm_compute; reflexivity|].
    split; reflexivity.
Qed.

Lemma receiveData_output_format_witness :
  exists out w',
    receiveData None zeros 12 zeros dataLength PORT1
      (lines (map Byte [START; 7; 248; END; END; ACK]) [])
    = Ret (true, out) w' /\
    exists w1 count tempData w2,
      call_checkPortHasData None PORT1
        (lines (map Byte [START; 7; 248; END; END; ACK]) []) = Ret true w1 /\
      readBuffer None 12 zeros dataLength PORT1 w1
      = Ret (count, tempData) w2 /\
      3 <= count < 256 /\
      tempData 0 = START /\
      tempData (count - 1) = END /\ tempData (count - 2) = END /\
      out 0 = (count - 2) / 2 /\
      payload out
      = map (fun k => tempData (2 * Z.of_nat k + 1))
            (seq 0 (Z.to_nat ((count - 2) / 2))).
Proof.
  assert (E : exists out w',
             receiveData None zeros 12 zeros dataLength PORT1
               (lines (map Byte [START; 7; 248; END; END; ACK]) [])
             = Ret (true, out) w').
  { eexists _, _. vm_compute. reflexivity. }
  destruct E as (out & w' & E). exists out, w'. split; [exact E|].
  exact (proj1 receiveData_output_format _ _ _ _ _ _ _ _ _ E).
Defined.

(** ** A line that goes silent inside a frame *)

Lemma accumulate_stalls (s : serial) (maxDataLength : Z) (t : array)
  (count : Z) :
  keeps_reading maxDataLength t count = true ->
  forall (fuel : nat) (w : World),
    rx s w = [] ->
    readBuffer_accumulate s fuel maxDataLength t count true w = OutOfFuel.
Proof.
  intros Hk. unfold keeps_reading in Hk. apply andb_prop in Hk.
  destruct Hk as [Hlt Hd]. apply negb_true_iff in Hd.
  induction fuel as [|fuel IH]; intros w Hrx; cbn [readBuffer_accumulate];
    rewrite Hlt; cbn [andb]; [reflexivity|].
  rewrite (available_silent s w Hrx). fold (double_END t count). rewrite Hd.
  apply IH. now rewrite rx_elapse.
Qed.

(** The loop on a line that delivers the slots [sl] and then nothing, when
    it does not stop at any count up to the last of them. *)
Lemma accumulate_blocks (s : serial) (maxDataLength : Z) :
  forall (sl : list slot) (t : array) (count : Z) (fuel : nat) (w : World),
    rx s w = sl ->
    ends_with_byte sl = true ->
    Forall is_byte (bytes_of sl) ->
    0 <= count ->
    count + Z.of_nat (length (bytes_of sl)) <= 255 ->
    (forall k, count <= k <= count + Z.of_nat (length (bytes_of sl)) ->
               keeps_reading maxDataLength
                 (store_all t count (bytes_of sl)) k = true) ->
    readBuffer_accumulate s fuel maxDataLength t count true w = OutOfFuel.
Proof.
  induction sl as [|x sl IH]; intros t count fuel w Hrx He Hb Hc Hn Hk.
  - apply accumulate_stalls; [|exact Hrx]. apply (Hk count). cbn. lia.
  - pose proof (Hk count ltac:(lia)) as Hk0.
    unfold keeps_reading in Hk0. apply andb_prop in Hk0.
    destruct Hk0 as [Hlt Hd].
    rewrite (double_END_below t) in Hd
      by (intros j Hj; now apply store_all_below).
    apply negb_true_iff in Hd.
    destruct fuel as [|fuel]; cbn [readBuffer_accumulate]; rewrite Hlt;
      cbn [andb]; [reflexivity|].
    pose proof (ends_with_byte_tail _ _ He) as He'.
    destruct x as [|b].
    + rewrite (available_idle s sl w Hrx). fold (double_END t count).
      rewrite Hd. cbn [bytes_of] in *.
      apply IH; try assumption. now rewrite rx_elapse, rx_set_rx.
    + rewrite (available_byte s b sl w Hrx), (read_byte s b sl w Hrx).
      cbn [bytes_of store_all length] in *.
      inversion Hb as [|b' bs' Hb1 Hb2]; subst.
      rewrite (to_byte_small b) by exact Hb1.
      rewrite (to_byte_small (count + 1)) by lia.
      fold (double_END (upd t count b) (count + 1)).
      pose proof (Hk (count + 1) ltac:(lia)) as Hk1.
      unfold keeps_reading in Hk1. apply andb_prop in Hk1.
      destruct Hk1 as [_ Hd1].
      rewrite (double_END_below (upd t count b)) in Hd1
        by (intros j Hj; now apply store_all_below).
      apply negb_true_iff in Hd1. rewrite Hd1.
      apply IH; try assumption; try lia.
      * apply rx_set_rx.
      * intros k Hk'. apply Hk. lia.
Qed.

Lemma readBuffer_blocks (fallthrough : option bool) (s : serial) (b0 : Z)
  (sl0 : list slot) (tempData : array) (maxDataLength : Z) (w : World)
  (fuel : nat) :
  rx s w = Byte b0 :: sl0 ->
  ends_with_byte sl0 = true ->
  Forall is_byte (b0 :: bytes_of sl0) ->
  Z.of_nat (length (b0 :: bytes_of sl0)) <= 255 ->
  0 < maxDataLength ->
  forallb (keeps_reading maxDataLength
             (store_all tempData 0 (b0 :: bytes_of sl0)))
    (for_indices 0 (Z.of_nat (length (b0 :: bytes_of sl0)) + 1) 1) = true ->
  readBuffer fallthrough fuel tempData maxDataLength (port_of s) w
  = OutOfFuel.
Proof.
  intros Hrx He Hb Hn Hmax Hrun.
  pose proof (keeps_reading_range _ _ _ Hrun) as Hk.
  unfold readBuffer.
  destruct fuel as [|fuel]; cbn [readBuffer_loop]; rewrite deadline_ahead;
    [reflexivity|].
  rewrite (poll_pending fallthrough s b0 sl0 w Hrx). cbn [bind].
  replace (0 <? maxDataLength) with true by (symmetry; apply Z.ltb_lt; lia).
  unfold readBuffer_body.
  assert (Hacc : readBuffer_accumulate s fuel maxDataLength tempData 0 true
                   (digitalWrite (enable_pin s) RECEIVE_MODE w) = OutOfFuel).
  { apply (accumulate_blocks s maxDataLength (Byte b0 :: sl0));
      try assumption; try lia.
    - now rewrite rx_digitalWrite.
    - intros k Hk'. apply Hk. cbn [bytes_of] in Hk'. lia. }
  destruct s; cbn [port_of Z.eqb PORT1 PORT2 Pos.eqb]; rewrite Hacc;
    reflexivity.
Qed.

(** C6 (bounded blocking), evaluated.  On a line that delivers some bytes
    and then stays silent before the accumulation loop of [readBuffer] has
    seen two [END] bytes or filled its count, no amount of fuel lets
    [readBuffer] return: every further iteration finds nothing, a
    millisecond passes, and the loop goes on without looking at the clock.
    So [receiveData] on a line that delivers [START] and falls silent, and
    [sendData] of a one-byte payload whose echo stops after [START], do not
    return.  A line that is silent from the start is another matter:
    [sendData] then gives up once its deadline has passed (when the poll
    that ends without [return] reads as false). *)
Theorem accumulation_ignores_the_deadline :
  (forall (fallthrough : option bool) (s : serial) (b0 : Z)
          (sl0 : list slot) (tempData : array) (maxDataLength : Z)
          (w : World) (fuel : nat),
      let bs := b0 :: bytes_of sl0 in
      let n := Z.of_nat (length bs) in
      let t := store_all tempData 0 bs in
      rx s w = Byte b0 :: sl0 ->
      ends_with_byte sl0 = true ->
      Forall is_byte bs ->
      n <= 255 ->
      0 < maxDataLength ->
      forallb (keeps_reading maxDataLength t) (for_indices 0 (n + 1) 1)
      = true ->
      readBuffer fallthrough fuel tempData maxDataLength (port_of s) w
      = OutOfFuel) /\
  (forall fallthrough uninit fuel data,
      receiveData fallthrough uninit fuel data dataLength PORT1 stalled1
      = OutOfFuel /\
      sendData fallthrough uninit fuel data 1 PORT2 stalled2 = OutOfFuel) /\
  sendData (Some false) zeros 202 (of_list [5]) 1 PORT2 (lines [] [])
  = Ret false
      (mkWorld 201397 [] [] [] (wire [5]) RECEIVE_MODE RECEIVE_MODE).
Proof.
  split; [|split].
  - intros ft s b0 sl0 tempData maxDataLength w fuel bs n t.
    apply readBuffer_blocks.
  - intros ft uninit fuel data.
    assert (Hlen : 0 < dataLength) by (unfold dataLength, MAXBYTES; lia).
    assert (Hb : Forall is_byte [START])
      by (repeat constructor; unfold START; lia).
    split.
    + unfold receiveData. change PORT1 with (port_of rs485Port1).
      rewrite (poll_pending ft rs485Port1 START [] stalled1 eq_refl).
      cbn [bind].
      rewrite (readBuffer_blocks ft rs485Port1 START [] uninit dataLength
                 (digitalWrite (enable_pin rs485Port1) RECEIVE_MODE stalled1)
                 fuel eq_refl eq_refl Hb ltac:(cbn; lia) Hlen eq_refl).
      reflexivity.
    + unfold sendData. cbn [Z.leb Z.compare].
      change PORT2 with (port_of rs485Port2).
      set (w1 := sendBuffer _ _ _ _).
      assert (Hrx : rx rs485Port2 w1 = [Byte START])
        by (subst w1;
            now destruct (sendBuffer_lines rs485Port2 rs485Port2
                            (sendData_frame uninit data 1)
                            (sendData_numDataBytes 1) stalled2) as [-> _]).
      destruct fuel as [|fuel]; cbn [sendData_wait]; rewrite deadline_ahead;
        [reflexivity|].
      rewrite (poll_pending ft rs485Port2 START [] w1 Hrx). cbn [bind].
      rewrite (readBuffer_blocks ft rs485Port2 START [] uninit
                 (sendData_numDataBytes 1)
                 (digitalWrite (enable_pin rs485Port2) RECEIVE_MODE w1)
                 fuel (eq_trans (rx_digitalWrite _ _ _ _) Hrx) eq_refl Hb
                 ltac:(cbn; lia) eq_refl eq_refl).
      reflexivity.
  - vm_compute. reflexivity.
Qed.

Lemma accumulation_ignores_the_deadline_witness :
  readBuffer None 1000 zeros dataLength PORT1
    (lines [Byte START; Idle; Byte 5; Byte 250; Byte END] [])
  = OutOfFuel.
Proof.
  apply (proj1 accumulation_ignores_the_deadline None rs485Port1 START
           [Idle; Byte 5; Byte 250; Byte END] zeros dataLength
           (lines [Byte START; Idle; Byte 5; Byte 250; Byte END] [])
           1000%nat).
  - reflexivity.
  - reflexivity.
  - repeat (constructor; [unfold is_byte, START, END; lia|]). constructor.
  - cbn. lia.
  - unfold dataLength, MAXBYTES. lia.
  - reflexivity.
Defined.

(** ** One byte more than the array holds *)

(** C9 (bounds of the accumulation), evaluated.  Whenever a line delivers
    [maxDataLength + 1] bytes (at most 255) and the loop has not stopped
    before the last of them, [readBuffer] stores that last byte at index
    [maxDataLength], one past an array of [maxDataLength] cells.  With
    [dataLength] = 67 cells and 68 bytes whose last two are [END], it does
    so and returns the count 68. *)
Theorem readBuffer_stores_past_the_array :
  (forall (fallthrough : option bool) (s : serial) (b0 : Z)
          (sl0 rest : list slot) (tempData : array) (maxDataLength : Z)
          (w : World) (extra : nat),
      let bs := b0 :: bytes_of sl0 in
      let n := Z.of_nat (length bs) in
      let t := store_all tempData 0 bs in
      rx s w = Byte b0 :: sl0 ++ rest ->
      ends_with_byte sl0 = true ->
      Forall is_byte bs ->
      n <= 255 ->
      0 < maxDataLength ->
      accumulation_ends_at maxDataLength t n = true ->
      n = maxDataLength + 1 ->
      exists count w',
        readBuffer fallthrough (S (length (Byte b0 :: sl0) + extra)) tempData
          maxDataLength (port_of s) w = Ret (count, t) w' /\
        t maxDataLength = nth (Z.to_nat maxDataLength) bs 0) /\
  (exists t w',
      readBuffer None 70 zeros dataLength PORT1
        (lines (map Byte oversized) [])
      = Ret (dataLength + 1, t) w' /\
      zeros dataLength = 0 /\
      t dataLength = END).
Proof.
  split.
  - intros ft s b0 sl0 rest tempData maxDataLength w extra bs n t
      Hrx He Hb Hn Hmax Hends Hfull.
    destruct (readBuffer_on_line ft s b0 sl0 rest tempData maxDataLength w
                extra Hrx He Hb Hn Hmax Hends) as (w' & _ & Hrun).
    exists (readBuffer_check t n), w'. split; [exact Hrun|].
    subst t. rewrite <- (store_all_nth bs tempData 0) by (subst n; lia).
    f_equal. lia.
  - eexists _, _. split; [vm_compute; reflexivity|]. split; reflexivity.
Qed.

Lemma readBuffer_stores_past_the_array_witness :
  exists count w',
    readBuffer None 5 zeros 3 PORT2 (lines [] (map Byte [START; 1; 2; 3]))
    = Ret (count, store_all zeros 0 [START; 1; 2; 3]) w' /\
    store_all zeros 0 [START; 1; 2; 3] 3 = 3.
Proof.
  apply (proj1 readBuffer_stores_past_the_array None rs485Port2 START
           [Byte 1; Byte 2; Byte 3] [] zeros 3
           (lines [] (map Byte [START; 1; 2; 3])) 0%nat).
  - reflexivity.
  - reflexivity.
  - repeat (constructor; [unfold is_byte, START; lia|]). constructor.
  - cbn. lia.
  - lia.
  - reflexivity.
  - reflexivity.
Defined.

(** ** What sendData transmits *)

Lemma tx_elapse (s : serial) (us : Z) (w : World) :
  tx s (elapse us w) = tx s w.
Proof. destruct s; reflexivity. Qed.

Lemma tx_set_rx (s s' : serial) (l : list slot) (w : World) :
  tx s (set_rx s' l w) = tx s w.
Proof. destruct s, s'; reflexivity. Qed.

Lemma tx_sendByte (s : serial) (temp : Z) (w : World) :
  tx s (sendByte temp (port_of s) w) = tx s w ++ [temp].
Proof. destruct s; reflexivity. Qed.

Lemma tx_sendByte_grows (s : serial) (temp port : Z) (w : World) :
  exists l, tx s (sendByte temp port w) = tx s w ++ l.
Proof.
  unfold sendByte, flush. destruct (port =? PORT1).
  - rewrite tx_digitalWrite. destruct s.
    + now exists [temp].
    + exists []. cbn. now rewrite app_nil_r.
  - destruct (port =? PORT2).
    + rewrite tx_digitalWrite. destruct s.
      * exists []. cbn. now rewrite app_nil_r.
      * now exists [temp].
    + exists []. now rewrite app_nil_r.
Qed.

Lemma map_for_indices (a : array) (n : Z) :
  map a (for_indices 0 n 1) = slice a (Z.to_nat n).
Proof. rewrite for_indices_count, map_map. reflexivity. Qed.

(** The first thing a [sendData] with a positive length does is transmit
    the frame. *)
Lemma sendData_transmits_frame (uninit : array) (p : list Z) (s : serial)
  (w : World) :
  1 <= Z.of_nat (length p) <= 126 ->
  tx s (sendBuffer (sendData_frame uninit (of_list p) (Z.of_nat (length p)))
          (sendData_numDataBytes (Z.of_nat (length p))) (port_of s) w)
  = tx s w ++ wire p.
Proof.
  intros Hp.
  destruct (sendBuffer_lines s s
              (sendData_frame uninit (of_list p) (Z.of_nat (length p)))
              (sendData_numDataBytes (Z.of_nat (length p))) w) as [_ ->].
  rewrite map_for_indices, numDataBytes_small by lia.
  replace (Z.to_nat (2 * Z.of_nat (length p) + 3))
    with (2 * length p + 3)%nat by lia.
  rewrite sendData_frame_wire by lia. reflexivity.
Qed.

(** C4 (payload-length precondition), as the code has it.  [sendData]
    returns false at once, the world untouched, for every [numBytes <= 0].
    There is no upper bound: for every payload of 1 to 126 bytes, MAXBYTES
    or more included, a [sendData] that returns has transmitted the frame of
    the payload before anything else it sent. *)
Theorem sendData_checks_lower_bound_only :
  (forall fallthrough uninit fuel data numBytes port w,
      numBytes <= 0 ->
      sendData fallthrough uninit fuel data numBytes port w = Ret false w) /\
  (forall fallthrough uninit fuel (p : list Z) s w b w',
      1 <= Z.of_nat (length p) <= 126 ->
      sendData fallthrough uninit fuel (of_list p) (Z.of_nat (length p))
        (port_of s) w = Ret b w' ->
      exists l, tx s w' = tx s w ++ wire p ++ l).
Proof.
  split.
  - intros ft uninit fuel data numBytes port w Hn. unfold sendData.
    now replace (numBytes <=? 0) with true by (symmetry; apply Z.leb_le; lia).
  - intros ft uninit fuel p s w b w' Hp E. unfold sendData in E.
    replace (Z.of_nat (length p) <=? 0) with false in E
      by (symmetry; apply Z.leb_gt; lia).
    refine (post_ret _ (fun _ w0 => exists l, tx s w0 = tx s w ++ wire p ++ l)
              b w' _ E).
    apply (inv_sendData_wait ft uninit
             (fun w0 => exists l, tx s w0 = tx s w ++ wire p ++ l)).
    + intros us w0 [l H]. exists l. now rewrite tx_elapse.
    + intros s' l' w0 [l H]. exists l. now rewrite tx_set_rx.
    + intros pin w0 [l H]. exists l. now rewrite tx_digitalWrite.
    + intros b0 port w0 [l H].
      destruct (tx_sendByte_grows s b0 port w0) as [l' ->].
      exists (l ++ l'). rewrite H. now rewrite <- !app_assoc.
    + exists []. rewrite app_nil_r. now apply sendData_transmits_frame.
Qed.

Lemma sendData_checks_lower_bound_only_witness :
  sendData None zeros 0 zeros 0 PORT1 (lines [] []) = Ret false (lines [] []) /\
  exists w' l,
    sendData None zeros 80 (of_list (repeat 2 33)) 33 PORT2
      (lines [] (map Byte (wire (repeat 2 33)))) = Ret true w' /\
    tx rs485Port2 w' = wire (repeat 2 33) ++ l.
Proof.
  split.
  - apply (proj1 sendData_checks_lower_bound_only). lia.
  - assert (E : exists w',
               sendData None zeros 80 (of_list (repeat 2 33)) 33 PORT2
                 (lines [] (map Byte (wire (repeat 2 33)))) = Ret true w').
    { eexists. vm_compute. reflexivity. }
    destruct E as (w' & E).
    destruct (proj2 sendData_checks_lower_bound_only None zeros 80%nat
                (repeat 2 33) rs485Port2
                (lines [] (map Byte (wire (repeat 2 33)))) true w')
      as (l & Hl).
    + cbn. lia.
    + exact E.
    + exists w', l. split; [exact E | exact Hl].
Defined.

(** C4 as stated fails: a payload of 33 bytes, one more than MAXBYTES, is
    framed and transmitted, and with the echo on the line [sendData]
    answers ACK and returns true. *)
Lemma sendData_accepts_33_bytes :
  exists w',
    sendData None zeros 80 (of_list (repeat 2 33)) 33 PORT2
      (lines [] (map Byte (wire (repeat 2 33)))) = Ret true w' /\
    tx rs485Port2 w' = wire (repeat 2 33) ++ [ACK].
Proof. eexists. split; vm_compute; reflexivity. Qed.

(** ** The answer of sendData to what it read *)








(** * The rest of the sketch, and more about the protocol functions *)

(** ** More about lines, clocks and index ranges *)

Lemma slice_ext (a b : array) (n : nat) :
  (forall j, 0 <= j < Z.of_nat n -> a j = b j) -> slice a n = slice b n.
Proof.
  intros H. unfold slice. apply map_ext_in. intros k Hk.
  apply in_seq in Hk. apply H. lia.
Qed.

Lemma for_range_bounds (s b i : Z) :
  0 < s ->
  forall (k : nat) (a : Z), In i (for_range k a b s) -> a <= i < b.
Proof.
  intros Hs. induction k as [|k IH]; intros a Hin; [contradiction|].
  cbn [for_range] in Hin. destruct (a <? b) eqn:E; [|contradiction].
  apply Z.ltb_lt in E. destruct Hin as [<-|Hin]; [lia|].
  apply IH in Hin. lia.
Qed.

Lemma for_indices_bounds (a b s i : Z) :
  0 < s -> In i (for_indices a b s) -> a <= i < b.
Proof. intros Hs. apply for_range_bounds. exact Hs. Qed.

Lemma for_indices_In (n i : Z) : In i (for_indices 0 n 1) <-> 0 <= i < n.
Proof.
  split; [apply for_indices_bounds; lia|]. intros H.
  rewrite for_indices_count. rewrite <- (Z2Nat.id i) by lia.
  apply in_map, in_seq. lia.
Qed.

Lemma now_digitalWrite (pin : Z) (level : bool) (w : World) :
  now (digitalWrite pin level w) = now w.
Proof.
  unfold digitalWrite. destruct (pin =? PORT1_ENABLE);
    [|destruct (pin =? PORT2_ENABLE)]; reflexivity.
Qed.

Lemma now_set_rx (s : serial) (l : list slot) (w : World) :
  now (set_rx s l w) = now w.
Proof. destruct s; reflexivity. Qed.

Lemma rx_set_rx_other (s s' : serial) (l : list slot) (w : World) :
  s' <> s -> rx s' (set_rx s l w) = rx s' w.
Proof. destruct s, s'; intros H; try reflexivity; congruence. Qed.

Lemma rx_sendByte (s : serial) (temp port : Z) (w : World) :
  rx s (sendByte temp port w) = rx s w.
Proof.
  unfold sendByte, flush. destruct (port =? PORT1);
    [|destruct (port =? PORT2)]; try rewrite rx_digitalWrite;
    destruct s; reflexivity.
Qed.

Lemma sendBuffer_bytes_effect (s : serial) (data : array) (idx : list Z) :
  forall w,
    let w' :=
      fold_left
        (fun w i =>
           delayMicroseconds (readWriteDelay / 32) (write s (data i) w))
        idx w in
    (forall s', s' <> s -> tx s' w' = tx s' w) /\
    now w' = now w + Z.of_nat (length idx) * (readWriteDelay / 32).
Proof.
  induction idx as [|i idx IH]; intros w; cbn [fold_left length].
  - split; [reflexivity | lia].
  - destruct (IH (delayMicroseconds (readWriteDelay / 32)
                    (write s (data i) w))) as [Ho Hn].
    cbv zeta in *. split.
    + intros s' Hs. rewrite (Ho s' Hs).
      destruct s, s'; try reflexivity; congruence.
    + rewrite Hn.
      replace (now (delayMicroseconds (readWriteDelay / 32)
                      (write s (data i) w)))
        with (now w + readWriteDelay / 32) by (destruct s; reflexivity).
      lia.
Qed.



(** ** What verifyData compares *)

Lemma for_range_step2 (b i : Z) :
  forall (k : nat) (a : Z),
    In i (for_range k a b 2) ->
    a <= i < b /\ exists j, 0 <= j /\ i = a + 2 * j.
Proof.
  induction k as [|k IH]; intros a Hin; [contradiction|].
  cbn [for_range] in Hin. destruct (a <? b) eqn:E; [|contradiction].
  apply Z.ltb_lt in E. destruct Hin as [<-|Hin].
  - split; [lia|]. exists 0. lia.
  - apply IH in Hin. destruct Hin as [Hr (j & Hj & ->)].
    split; [lia|]. exists (j + 1). lia.
Qed.

Lemma for_range_step2_In (b : Z) :
  forall (k : nat) (a j : Z),
    (Z.to_nat (b - a) <= k)%nat -> 0 <= j -> a + 2 * j < b ->
    In (a + 2 * j) (for_range k a b 2).
Proof.
  induction k as [|k IH]; intros a j Hk Hj Hlt; [lia|].
  cbn [for_range]. replace (a <? b) with true
    by (symmetry; apply Z.ltb_lt; lia).
  destruct (Z.eq_dec j 0) as [->|Hne]; [left; lia|]. right.
  replace (a + 2 * j) with ((a + 2) + 2 * (j - 1)) by lia.
  apply IH; lia.
Qed.

Lemma pair_indices (n i : Z) :
  In i (for_indices 1 (n - 1) 2) <-> 1 <= i < n - 1 /\ Z.odd i = true.
Proof.
  unfold for_indices. split.
  - intros H. apply for_range_step2 in H. destruct H as [Hr (j & Hj & ->)].
    split; [exact Hr|]. now rewrite Z.odd_add_mul_2.
  - intros [Hr Ho]. apply Z.odd_spec in Ho. destruct Ho as [m ->].
    rewrite (Z.add_comm _ 1). apply for_range_step2_In; lia.
Qed.

Lemma truthy_land_flag (v : Z) (c : bool) :
  truthy (Z.land v (Z.b2z c)) = Z.odd v && c.
Proof.
  unfold truthy. destruct c; cbn [Z.b2z].
  - change 1 with (Z.ones 1). rewrite Z.land_ones by lia.
    change (2 ^ 1) with 2. rewrite Zmod_odd, Bool.andb_true_r.
    now destruct (Z.odd v).
  - now rewrite Z.land_0_r, Bool.andb_false_r.
Qed.

Lemma verifyData_mismatch_true (data1 data2 : array) (i : Z) :
  verifyData_mismatch data1 data2 i = true <->
  Z.odd (data1 i) = true /\ data1 (i + 1) <> 0 /\
  Z.odd (data2 i) = true /\ data2 (i + 1) <> 0 /\ data1 i <> data2 i.
Proof.
  unfold verifyData_mismatch. rewrite !truthy_land_flag.
  rewrite !Bool.andb_true_iff, !Bool.negb_true_iff, !Z.eqb_neq. tauto.
Qed.

Lemma verifyData_pairs_true (data1 data2 : array) (idx : list Z) :
  verifyData_pairs data1 data2 idx = true <->
  forall i, In i idx -> verifyData_mismatch data1 data2 i = false.
Proof.
  induction idx as [|i idx IH]; cbn [verifyData_pairs In].
  - split; [contradiction | reflexivity].
  - destruct (verifyData_mismatch data1 data2 i) eqn:E.
    + split; [discriminate|]. intros H.
      specialize (H i (or_introl eq_refl)). congruence.
    + rewrite IH. split.
      * intros H j [<-|Hj]; auto.
      * intros H j Hj. apply H. now right.
Qed.

Lemma verifyData_mismatch_sym (data1 data2 : array) (i : Z) :
  verifyData_mismatch data1 data2 i = verifyData_mismatch data2 data1 i.
Proof.
  unfold verifyData_mismatch. rewrite (Z.eqb_sym (data1 i)).
  destruct (truthy _), (truthy _); reflexivity.
Qed.

(** X2.  For a length from 1 to 255 (the parameter is a byte),
    [verifyData] returns true exactly when both buffers start with
    [START], both have [END] in their last cell, and at no odd index [i]
    with [1 <= i < numDataBytes - 1] all of this holds: the two bytes at
    the index are odd, the two bytes after them are nonzero, and the two
    bytes at the index differ.  (For an odd length, as of every frame, the
    last such index is [numDataBytes - 2].)  The result does not depend on
    the order of the two buffers. *)
Theorem verifyData_exactly (data1 data2 : array) (numDataBytes : Z) :
  1 <= numDataBytes <= 255 ->
  (verifyData data1 data2 numDataBytes = true <->
   data1 0 = START /\ data2 0 = START /\
   data1 (numDataBytes - 1) = END /\ data2 (numDataBytes - 1) = END /\
   forall i,
     1 <= i < numDataBytes - 1 -> Z.odd i = true ->
     ~ (Z.odd (data1 i) = true /\ data1 (i + 1) <> 0 /\
        Z.odd (data2 i) = true /\ data2 (i + 1) <> 0 /\
        data1 i <> data2 i)) /\
  verifyData data1 data2 numDataBytes = verifyData data2 data1 numDataBytes.
Proof.
  intros _. split.
  - unfold verifyData.
    destruct (Z.eqb_spec (data1 0) START) as [H1|H1]; cbn [andb];
      [|split; [discriminate | tauto]].
    destruct (Z.eqb_spec (data2 0) START) as [H2|H2];
      [|split; [discriminate | tauto]].
    destruct (Z.eqb_spec (data1 (numDataBytes - 1)) END) as [H3|H3];
      cbn [andb]; [|split; [discriminate | tauto]].
    destruct (Z.eqb_spec (data2 (numDataBytes - 1)) END) as [H4|H4];
      [|split; [discriminate | tauto]].
    rewrite verifyData_pairs_true. split.
    + intros H. repeat (split; [assumption|]). intros i Hr Ho Hm.
      apply verifyData_mismatch_true in Hm.
      rewrite (H i) in Hm; [discriminate|]. now apply pair_indices.
    + intros (_ & _ & _ & _ & H) i Hi. apply pair_indices in Hi.
      destruct Hi as [Hr Ho].
      destruct (verifyData_mismatch data1 data2 i) eqn:E; [|reflexivity].
      apply verifyData_mismatch_true in E. now destruct (H i Hr Ho).
  - unfold verifyData.
    rewrite (Bool.andb_comm (data1 0 =? START)),
      (Bool.andb_comm (data1 (numDataBytes - 1) =? END)).
    destruct ((data2 0 =? START) && (data1 0 =? START)); [|reflexivity].
    destruct ((data2 (numDataBytes - 1) =? END)
              && (data1 (numDataBytes - 1) =? END)); [|reflexivity].
    generalize (for_indices 1 (numDataBytes - 1) 2) as idx.
    induction idx as [|i idx IH]; [reflexivity|].
    cbn [verifyData_pairs]. rewrite (verifyData_mismatch_sym data1 data2).
    now rewrite IH.
Qed.

(** Two frames of five bytes that differ in the cell before the last: the
    pair loop reaches that cell, index 3, and the buffers are told apart. *)
Lemma verifyData_exactly_witness :
  verifyData (of_list [START; 5; 250; END; END])
    (of_list [START; 5; 250; 117; END]) 5 = false /\
  verifyData (of_list [START; 5; 250; END; END])
    (of_list [START; 5; 250; 117; END]) 5
  = verifyData (of_list [START; 5; 250; 117; END])
      (of_list [START; 5; 250; END; END]) 5.
Proof.
  destruct (verifyData_exactly (of_list [START; 5; 250; END; END])
              (of_list [START; 5; 250; 117; END]) 5 ltac:(lia))
    as [[Hthen _] Hsym].
  split; [|exact Hsym].
  destruct (verifyData (of_list [START; 5; 250; END; END])
              (of_list [START; 5; 250; 117; END]) 5); [|reflexivity].
  destruct (Hthen eq_refl) as (_ & _ & _ & _ & H).
  exfalso. apply (H 3); [lia | reflexivity |].
  repeat split; try reflexivity; vm_compute; discriminate.
Defined.

(** ** Frames on the line *)

Lemma inverse_byte (d : Z) : is_byte d -> inverse d = 255 - d.
Proof.
  intros H. unfold inverse, to_byte, Z.lnot, is_byte in *.
  replace (Z.pred (- d)) with (255 - d + (-1) * 256) by lia.
  rewrite Z_mod_plus_full. apply Z.mod_small. lia.
Qed.

Lemma inverse_is_byte (d : Z) : is_byte (inverse d).
Proof. unfold inverse, to_byte, is_byte. apply Z.mod_pos_bound. lia. Qed.

Lemma wire_bytes (p : list Z) : Forall is_byte p -> Forall is_byte (wire p).
Proof.
  intros H. unfold wire. constructor; [unfold is_byte, START; lia|].
  apply Forall_app. split.
  - induction H as [|d p Hd Hp IH]; cbn [flat_map app]; [constructor|].
    constructor; [exact Hd|]. constructor; [apply inverse_is_byte | exact IH].
  - repeat constructor; unfold END; lia.
Qed.

Lemma bytes_of_map_Byte (l : list Z) : bytes_of (map Byte l) = l.
Proof. induction l as [|b l IH]; cbn; [reflexivity | now rewrite IH]. Qed.

Lemma ends_with_byte_map_Byte (l : list Z) :
  ends_with_byte (map Byte l) = true.
Proof.
  induction l as [|b l IH]; [reflexivity|]. cbn [map ends_with_byte].
  exact IH.
Qed.

Lemma bytes_of_app (l1 l2 : list slot) :
  bytes_of (l1 ++ l2) = bytes_of l1 ++ bytes_of l2.
Proof.
  induction l1 as [|[|b] l1 IH]; cbn; [reflexivity | exact IH |].
  now rewrite IH.
Qed.

(** The frame depends on the first [numBytes] cells of [data] only. *)
Lemma sendData_frame_slice (u data : array) (numBytes j : Z) :
  1 <= numBytes <= 126 ->
  sendData_frame u data numBytes j
  = sendData_frame u (of_list (slice data (Z.to_nat numBytes))) numBytes j.
Proof.
  intros Hn. rewrite !sendData_frame_cells by lia.
  destruct (j =? 0); [reflexivity|].
  destruct ((1 <=? j) && (j <=? 2 * numBytes)) eqn:E; [|reflexivity].
  apply andb_prop in E. destruct E as [E1 E2].
  apply Z.leb_le in E1, E2.
  assert (Hcell : forall k, 0 <= k < numBytes ->
            of_list (slice data (Z.to_nat numBytes)) k = data k).
  { intros k Hk. rewrite <- (Z2Nat.id k) by lia.
    rewrite of_list_nth, slice_nth by lia. reflexivity. }
  destruct (Z.odd j) eqn:Eo.
  - rewrite Hcell; [reflexivity|].
    split; [apply Z.div_pos; lia | apply Z.div_lt_upper_bound; lia].
  - rewrite Hcell; [reflexivity|].
    assert (j <> 1) by (intros ->; discriminate Eo).
    split; [apply Z.div_pos; lia | apply Z.div_lt_upper_bound; lia].
Qed.

Lemma sendData_frame_wire_slice (u data : array) (numBytes : Z) :
  1 <= numBytes <= 126 ->
  slice (sendData_frame u data numBytes) (Z.to_nat (2 * numBytes + 3))
  = wire (slice data (Z.to_nat numBytes)).
Proof.
  intros Hn.
  rewrite <- (sendData_frame_wire u (slice data (Z.to_nat numBytes)))
    by (rewrite slice_length; lia).
  rewrite slice_length, Z2Nat.id by lia.
  replace (2 * Z.to_nat numBytes + 3)%nat
    with (Z.to_nat (2 * numBytes + 3)) by lia.
  apply slice_ext. intros j _. now apply sendData_frame_slice.
Qed.

(** The cells a reader fills from the wire image are those of the frame. *)
Lemma wire_cell (u t0 : array) (p : list Z) (j : Z) :
  (1 <= length p <= 126)%nat ->
  0 <= j < 2 * Z.of_nat (length p) + 3 ->
  store_all u 0 (wire p) j
  = sendData_frame t0 (of_list p) (Z.of_nat (length p)) j.
Proof.
  intros Hp Hj.
  assert (Hk : (Z.to_nat j < length (wire p))%nat)
    by (rewrite wire_length; lia).
  rewrite <- (Z2Nat.id j) at 1 by lia.
  change (Z.of_nat (Z.to_nat j)) with (0 + Z.of_nat (Z.to_nat j)) at 1.
  rewrite (store_all_nth (wire p) u 0 (Z.to_nat j) Hk).
  rewrite <- (sendData_frame_wire t0 p Hp).
  rewrite slice_nth by (rewrite wire_length in Hk; lia).
  now rewrite Z2Nat.id by lia.
Qed.

Lemma clean_byte (p : list Z) (k : nat) :
  forallb (fun d => negb (d =? END)) p = true ->
  (k < length p)%nat -> nth k p 0 <> END.
Proof.
  intros H Hk. rewrite forallb_forall in H.
  specialize (H (nth k p 0) (nth_In p 0 Hk)).
  now apply negb_true_iff, Z.eqb_neq in H.
Qed.

Lemma last_nth (p : list Z) :
  last p 0 = nth (length p - 1) p 0.
Proof.
  induction p as [|d p IH]; [reflexivity|].
  destruct p as [|d' p]; [reflexivity|].
  cbn [last length Nat.sub] in *. rewrite IH.
  now rewrite Nat.sub_0_r.
Qed.

(** The cells of the wire image, by index. *)
Lemma wire_cells (u : array) (p : list Z) (j : Z) :
  (1 <= length p <= 126)%nat ->
  0 <= j < 2 * Z.of_nat (length p) + 3 ->
  store_all u 0 (wire p) j
  = if j =? 0 then START
    else if (1 <=? j) && (j <=? 2 * Z.of_nat (length p)) then
      if Z.odd j then nth (Z.to_nat ((j - 1) / 2)) p 0
      else inverse (nth (Z.to_nat ((j - 2) / 2)) p 0)
    else END.
Proof.
  intros Hp Hj. set (n := Z.of_nat (length p)) in *.
  rewrite (wire_cell u u p j Hp Hj).
  rewrite sendData_frame_cells by (subst n; lia). fold n.
  destruct (Z.eqb_spec j 0) as [Hj0|Hj0]; [reflexivity|].
  destruct ((1 <=? j) && (j <=? 2 * n)) eqn:E.
  - apply andb_prop in E. destruct E as [E1 E2].
    apply Z.leb_le in E1, E2.
    destruct (Z.odd j) eqn:Eo.
    + rewrite <- (Z2Nat.id ((j - 1) / 2)) at 1
        by (apply Z.div_pos; lia).
      now rewrite of_list_nth.
    + assert (j <> 1) by (intros ->; discriminate Eo).
      rewrite <- (Z2Nat.id ((j - 2) / 2)) at 1
        by (apply Z.div_pos; lia).
      now rewrite of_list_nth.
  - destruct ((j =? 2 * n + 1) || (j =? 2 * n + 2)) eqn:E2;
      [reflexivity|].
    apply orb_false_elim in E2. destruct E2 as [Ea Eb].
    apply Z.eqb_neq in Ea, Eb. apply andb_false_iff in E.
    destruct E as [E|E]; apply Z.leb_gt in E; lia.
Qed.

(** When no payload byte is [END], no two adjacent cells of the frame are
    both [END] before the complement of the last payload byte. *)
Lemma wire_quiet (u : array) (p : list Z) (k : Z) :
  (1 <= length p <= 126)%nat ->
  forallb (fun d => negb (d =? END)) p = true ->
  0 <= k < 2 * Z.of_nat (length p) + 2 ->
  double_END (store_all u 0 (wire p)) k = false.
Proof.
  intros Hp Hno Hk. set (n := Z.of_nat (length p)) in *.
  assert (Hse : START <> END) by (unfold START, END; lia).
  assert (Hdata : forall j, 1 <= j <= 2 * n -> Z.odd j = true ->
            store_all u 0 (wire p) j <> END).
  { intros j Hj Ho. rewrite wire_cells by (fold n; lia). fold n.
    replace (j =? 0) with false by (symmetry; apply Z.eqb_neq; lia).
    replace ((1 <=? j) && (j <=? 2 * n)) with true
      by (symmetry; apply andb_true_intro; split; apply Z.leb_le; lia).
    rewrite Ho. apply clean_byte; [exact Hno|].
    apply Z.odd_spec in Ho. destruct Ho as [m ->].
    replace (2 * m + 1 - 1) with (m * 2) by lia. rewrite Z.div_mul by lia.
    subst n. lia. }
  unfold double_END.
  destruct (1 <? k) eqn:E1; [|reflexivity]. apply Z.ltb_lt in E1.
  cbn [andb].
  destruct (Z.eqb_spec (store_all u 0 (wire p) (k - 2)) END) as [Ha|Ha];
    [|reflexivity].
  destruct (Z.eqb_spec (store_all u 0 (wire p) (k - 1)) END) as [Hb'|Hb'];
    [|reflexivity].
  exfalso. destruct (Z.eq_dec k 2) as [->|Hk3].
  - replace (2 - 2) with 0 in Ha by lia.
    rewrite wire_cells in Ha by (fold n; lia).
    rewrite Z.eqb_refl in Ha. congruence.
  - destruct (Z.odd k) eqn:Eo.
    + apply (Hdata (k - 2)); [lia| |exact Ha].
      replace (k - 2) with (k + 2 * (-1)) by lia.
      now rewrite Z.odd_add_mul_2.
    + apply (Hdata (k - 1)); [lia| |exact Hb'].
      rewrite Z.odd_sub. rewrite Eo. reflexivity.
Qed.

(** The complement of the last payload byte sits just before the two
    [END] bytes. *)
Lemma wire_last_pair (u : array) (p : list Z) :
  (1 <= length p <= 126)%nat ->
  store_all u 0 (wire p) (2 * Z.of_nat (length p)) = inverse (last p 0) /\
  store_all u 0 (wire p) (2 * Z.of_nat (length p) + 1) = END /\
  store_all u 0 (wire p) (2 * Z.of_nat (length p) + 2) = END.
Proof.
  intros Hp. set (n := Z.of_nat (length p)) in *.
  assert (He : forall j, 2 * n + 1 <= j < 2 * n + 3 ->
            store_all u 0 (wire p) j = END).
  { intros j Hj. rewrite wire_cells by (fold n; lia). fold n.
    replace (j =? 0) with false
      by (symmetry; apply Z.eqb_neq; subst n; lia).
    replace ((1 <=? j) && (j <=? 2 * n)) with false; [reflexivity|].
    symmetry. apply andb_false_intro2. apply Z.leb_gt. lia. }
  split; [|split; apply He; lia].
  rewrite wire_cells by (fold n; lia). fold n.
  replace (2 * n =? 0) with false
    by (symmetry; apply Z.eqb_neq; subst n; lia).
  replace ((1 <=? 2 * n) && (2 * n <=? 2 * n)) with true
    by (symmetry; apply andb_true_intro; split; apply Z.leb_le;
        subst n; lia).
  rewrite Z.odd_mul. cbn [Z.odd andb].
  replace (2 * n - 2) with ((n - 1) * 2) by lia.
  rewrite Z.div_mul by lia.
  replace (Z.to_nat (n - 1)) with (length p - 1)%nat by (subst n; lia).
  now rewrite <- last_nth.
Qed.

(** In the frame of a clean payload the only two adjacent [END] bytes are
    the last two, so the accumulation loop reads exactly the frame, as long
    as the count allows it. *)
Lemma clean_accumulation (u : array) (p : list Z) (maxDataLength : Z) :
  (1 <= length p <= 126)%nat ->
  Forall is_byte p ->
  clean p = true ->
  2 * Z.of_nat (length p) + 3 <= maxDataLength + 1 ->
  accumulation_ends_at maxDataLength (store_all u 0 (wire p))
    (2 * Z.of_nat (length p) + 3) = true.
Proof.
  intros Hp Hb Hc Hmax. unfold clean in Hc. apply andb_prop in Hc.
  destruct Hc as [Hno Hlast].
  apply negb_true_iff, Z.eqb_neq in Hlast.
  destruct (wire_last_pair u p Hp) as (Hl0 & Hl1 & Hl2).
  set (n := Z.of_nat (length p)) in *.
  assert (Hquiet : forall k, 0 <= k < 2 * n + 3 ->
            double_END (store_all u 0 (wire p)) k = false).
  { intros k Hk. destruct (Z.eq_dec k (2 * n + 2)) as [->|Hk2].
    - unfold double_END.
      replace (2 * n + 2 - 2) with (2 * n) by lia. rewrite Hl0.
      assert (Hlb : is_byte (last p 0)).
      { rewrite last_nth. rewrite Forall_forall in Hb. apply Hb.
        apply nth_In. lia. }
      replace (inverse (last p 0) =? END) with false.
      + now rewrite Bool.andb_false_r.
      + symmetry. apply Z.eqb_neq. intros Ha. apply Hlast. rewrite <- Ha.
        rewrite (inverse_byte (last p 0) Hlb).
        rewrite inverse_byte by (unfold is_byte in *; lia). lia.
    - apply wire_quiet; [exact Hp | exact Hno | fold n; lia]. }
  unfold accumulation_ends_at. apply andb_true_intro. split.
  - apply forallb_forall. intros k Hk. apply for_indices_In in Hk.
    unfold keeps_reading. rewrite Hquiet by lia.
    replace (k <? maxDataLength + 1) with true
      by (symmetry; apply Z.ltb_lt; lia).
    reflexivity.
  - unfold keeps_reading, double_END.
    replace (1 <? 2 * n + 3) with true
      by (symmetry; apply Z.ltb_lt; subst n; lia).
    replace (2 * n + 3 - 2) with (2 * n + 1) by lia.
    replace (2 * n + 3 - 1) with (2 * n + 2) by lia.
    rewrite Hl1, Hl2. rewrite Z.eqb_refl. cbn [andb negb].
    now rewrite Bool.andb_false_r.
Qed.

(** ** The exchange on a faithful line *)

Lemma readBuffer_keeps_tx (fallthrough : option bool) (fuel : nat)
  (t : array) (maxDataLength port : Z) (w : World) (s' : serial) :
  post (readBuffer fallthrough fuel t maxDataLength port w)
       (fun _ w' => tx s' w' = tx s' w).
Proof.
  apply (inv_readBuffer fallthrough (fun w0 => tx s' w0 = tx s' w));
    try reflexivity.
  - intros us w0 H. now rewrite tx_elapse.
  - intros s l w0 H. now rewrite tx_set_rx.
  - intros pin w0 H. now rewrite tx_digitalWrite.
Qed.

(** [readBuffer] on a line that holds the frame of a clean payload. *)
Lemma readBuffer_reads_frame (fallthrough : option bool) (u : array)
  (s : serial) (p : list Z) (rest : list slot) (maxDataLength : Z)
  (w : World) (extra : nat) :
  (1 <= length p <= 126)%nat ->
  Forall is_byte p ->
  clean p = true ->
  2 * Z.of_nat (length p) + 3 <= maxDataLength + 1 ->
  rx s w = map Byte (wire p) ++ rest ->
  exists w',
    readBuffer fallthrough (S (length (wire p) + extra)) u maxDataLength
      (port_of s) w
    = Ret (2 * Z.of_nat (length p) + 3, store_all u 0 (wire p)) w' /\
    rx s w' = rest /\
    (forall s', tx s' w' = tx s' w).
Proof.
  intros Hp Hb Hc Hmax Hrx.
  pose proof (clean_accumulation u p maxDataLength Hp Hb Hc Hmax) as Hacc.
  assert (Hwl : Z.of_nat (length (wire p)) = 2 * Z.of_nat (length p) + 3)
    by (rewrite wire_length; lia).
  destruct (readBuffer_on_line fallthrough s START
              (map Byte (flat_map (fun d => [d; inverse d]) p ++ [END; END]))
              rest u maxDataLength w extra) as (w' & Hrest & Hrun).
  - exact Hrx.
  - apply ends_with_byte_map_Byte.
  - rewrite bytes_of_map_Byte. now apply wire_bytes.
  - rewrite bytes_of_map_Byte. fold (wire p). lia.
  - lia.
  - rewrite bytes_of_map_Byte. fold (wire p). now rewrite Hwl.
  - rewrite bytes_of_map_Byte in Hrun. fold (wire p) in Hrun.
    cbn [length] in Hrun. rewrite length_map in Hrun.
    change (S (length (flat_map (fun d => [d; inverse d]) p ++ [END; END])))
      with (length (wire p)) in Hrun.
    rewrite Hwl in Hrun.
    assert (Hcheck : readBuffer_check (store_all u 0 (wire p))
                       (2 * Z.of_nat (length p) + 3)
                     = 2 * Z.of_nat (length p) + 3).
    { unfold readBuffer_check.
      rewrite !(wire_cell u u p) by lia.
      rewrite !sendData_frame_cells by lia. cbn [Z.eqb negb].
      replace (2 * Z.of_nat (length p) + 3 - 1 =? 0) with false
        by (symmetry; apply Z.eqb_neq; lia).
      replace (2 * Z.of_nat (length p) + 3 - 2 =? 0) with false
        by (symmetry; apply Z.eqb_neq; lia).
      replace ((1 <=? 2 * Z.of_nat (length p) + 3 - 1)
               && (2 * Z.of_nat (length p) + 3 - 1
                   <=? 2 * Z.of_nat (length p))) with false
        by (symmetry; apply andb_false_intro2, Z.leb_gt; lia).
      replace ((1 <=? 2 * Z.of_nat (length p) + 3 - 2)
               && (2 * Z.of_nat (length p) + 3 - 2
                   <=? 2 * Z.of_nat (length p))) with false
        by (symmetry; apply andb_false_intro2, Z.leb_gt; lia).
      replace (2 * Z.of_nat (length p) + 3 - 1
               =? 2 * Z.of_nat (length p) + 2) with true
        by (symmetry; apply Z.eqb_eq; lia).
      replace (2 * Z.of_nat (length p) + 3 - 2
               =? 2 * Z.of_nat (length p) + 1) with true
        by (symmetry; apply Z.eqb_eq; lia).
      rewrite Bool.orb_true_r. cbn [orb]. rewrite Z.eqb_refl.
      reflexivity. }
    rewrite Hcheck in Hrun. exists w'. split; [exact Hrun|].
    split; [exact Hrest|]. intros s'.
    pose proof (readBuffer_keeps_tx fallthrough
                  (S (length (wire p) + extra)) u maxDataLength (port_of s)
                  w s') as Htx.
    rewrite Hrun in Htx. exact Htx.
Qed.

Lemma verifyData_agree (data1 data2 : array) (numDataBytes : Z) :
  data1 0 = START -> data2 0 = START ->
  data1 (numDataBytes - 1) = END -> data2 (numDataBytes - 1) = END ->
  (forall i, 1 <= i < numDataBytes - 1 -> data1 i = data2 i) ->
  verifyData data1 data2 numDataBytes = true.
Proof.
  intros H1 H2 H3 H4 H. unfold verifyData.
  rewrite H1, H2, H3, H4, !Z.eqb_refl. cbn [andb].
  apply verifyData_pairs_blind, forallb_forall. intros i Hi.
  apply for_indices_bounds in Hi; [|lia].
  rewrite (H i Hi), Z.eqb_refl. apply Bool.orb_true_r.
Qed.

(** [sendData] when the line holds the faithful echo of a clean payload,
    the payload being the first [numBytes] cells of [data]. *)
Lemma sendData_run_on_echo (fallthrough : option bool) (u data : array)
  (numBytes : Z) (s : serial) (rest : list slot) (w : World) (extra : nat) :
  1 <= numBytes <= 126 ->
  Forall is_byte (slice data (Z.to_nat numBytes)) ->
  clean (slice data (Z.to_nat numBytes)) = true ->
  rx s w = map Byte (wire (slice data (Z.to_nat numBytes))) ++ rest ->
  exists w',
    sendData fallthrough u
      (S (S (length (wire (slice data (Z.to_nat numBytes))) + extra)))
      data numBytes (port_of s) w = Ret true w' /\
    tx s w' = tx s w ++ wire (slice data (Z.to_nat numBytes)) ++ [ACK] /\
    rx s w' = rest /\
    (forall s', s' <> s -> tx s' w' = tx s' w).
Proof.
  intros Hn Hb Hc Hrx. set (p := slice data (Z.to_nat numBytes)) in *.
  assert (Hlen : Z.of_nat (length p) = numBytes)
    by (subst p; rewrite slice_length; lia).
  assert (Hp : (1 <= length p <= 126)%nat) by lia.
  unfold sendData.
  replace (numBytes <=? 0) with false by (symmetry; apply Z.leb_gt; lia).
  rewrite numDataBytes_small by lia.
  set (frame := sendData_frame u data numBytes).
  set (w1 := sendBuffer frame (2 * numBytes + 3) (port_of s) w).
  assert (Hrx1 : rx s w1 = map Byte (wire p) ++ rest)
    by (subst w1;
        now destruct (sendBuffer_lines s s frame (2 * numBytes + 3) w)
          as [-> _]).
  assert (Htx1 : tx s w1 = tx s w ++ wire p).
  { subst w1.
    destruct (sendBuffer_lines s s frame (2 * numBytes + 3) w) as [_ ->].
    rewrite map_for_indices. subst frame p.
    now rewrite sendData_frame_wire_slice. }
  assert (Hother : forall s', s' <> s -> tx s' w1 = tx s' w).
  { intros s' Hs. subst w1.
    destruct (sendBuffer_bytes_effect s frame
                (for_indices 0 (2 * numBytes + 3) 1)
                (digitalWrite (enable_pin s) SEND_MODE w)) as [Ho _].
    cbv zeta in Ho. specialize (Ho s' Hs). rewrite tx_digitalWrite in Ho.
    destruct s; unfold sendBuffer;
      cbn [port_of Z.eqb PORT1 PORT2 Pos.eqb enable_pin] in *;
      unfold sendBuffer_bytes, flush, delayMicroseconds at 1;
      rewrite tx_digitalWrite, tx_elapse; exact Ho. }
  cbn [sendData_wait]. rewrite deadline_ahead.
  rewrite (poll_pending fallthrough s START
             (map Byte (flat_map (fun d => [d; inverse d]) p ++ [END; END])
              ++ rest) w1 Hrx1).
  cbn [bind].
  destruct (readBuffer_reads_frame fallthrough u s p rest (2 * numBytes + 3)
              (digitalWrite (enable_pin s) RECEIVE_MODE w1) extra)
    as (w2 & Hrun & Hrest & Htx2); try assumption; try lia.
  { now rewrite rx_digitalWrite. }
  rewrite Hrun. cbn [bind]. rewrite Hlen.
  assert (Hv : verifyData frame (store_all u 0 (wire p)) (2 * numBytes + 3)
               = true).
  { assert (Hcell : forall j, 0 <= j < 2 * numBytes + 3 ->
              store_all u 0 (wire p) j = frame j).
    { intros j Hj. rewrite (wire_cell u u p j Hp) by lia. subst frame p.
      rewrite Hlen. symmetry. now apply sendData_frame_slice. }
    assert (Hs : frame 0 = START)
      by (subst frame; now rewrite sendData_frame_cells by lia).
    assert (He : frame (2 * numBytes + 3 - 1) = END).
    { subst frame. rewrite sendData_frame_cells by lia.
      replace (2 * numBytes + 3 - 1 =? 0) with false
        by (symmetry; apply Z.eqb_neq; lia).
      replace ((1 <=? 2 * numBytes + 3 - 1)
               && (2 * numBytes + 3 - 1 <=? 2 * numBytes)) with false
        by (symmetry; apply andb_false_intro2, Z.leb_gt; lia).
      replace (2 * numBytes + 3 - 1 =? 2 * numBytes + 2) with true
        by (symmetry; apply Z.eqb_eq; lia).
      now rewrite Bool.orb_true_r. }
    apply verifyData_agree; try assumption.
    - now rewrite Hcell by lia.
    - now rewrite Hcell by lia.
    - intros i Hi. now rewrite Hcell by lia. }
  rewrite Hv.
  replace (0 <? 2 * numBytes + 3) with true
    by (symmetry; apply Z.ltb_lt; lia).
  cbn [andb]. eexists. split; [reflexivity|]. split; [|split].
  - unfold delayMicroseconds. rewrite tx_elapse, tx_sendByte, Htx2.
    rewrite tx_digitalWrite, Htx1. now rewrite <- app_assoc.
  - unfold delayMicroseconds. now rewrite rx_elapse, rx_sendByte.
  - intros s' Hs. unfold delayMicroseconds. rewrite tx_elapse.
    destruct (tx_sendByte_grows s' ACK (port_of s) w2) as [l Hl].
    assert (Hnil : tx s' (sendByte ACK (port_of s) w2) = tx s' w2)
      by (destruct s, s'; try reflexivity; congruence).
    rewrite Hnil, Htx2, tx_digitalWrite. now apply Hother.
Qed.

(** X3.  The sender's side of a successful exchange.  Let the payload have
    1 to 126 bytes, none of them [END] and the last one not the complement
    of [END], and let the line hold its frame, byte for byte, as echo.
    Then [sendData], given enough fuel, transmits the frame, reads the
    whole echo and nothing after it, answers with the single byte ACK and
    returns true; it writes nothing on the other port. *)
Theorem sendData_acknowledges_faithful_echo
  (fallthrough : option bool) (uninit : array) (p : list Z) (s : serial)
  (rest : list slot) (w : World) (extra : nat) :
  (1 <= length p <= 126)%nat ->
  Forall is_byte p ->
  clean p = true ->
  rx s w = map Byte (wire p) ++ rest ->
  exists w',
    sendData fallthrough uninit (S (S (length (wire p) + extra)))
      (of_list p) (Z.of_nat (length p)) (port_of s) w = Ret true w' /\
    tx s w' = tx s w ++ wire p ++ [ACK] /\
    rx s w' = rest /\
    (forall s', s' <> s -> tx s' w' = tx s' w).
Proof.
  intros Hp Hb Hc Hrx.
  assert (Hs : slice (of_list p) (Z.to_nat (Z.of_nat (length p))) = p).
  { rewrite Nat2Z.id. apply slice_eq. intros k _. apply of_list_nth. }
  destruct (sendData_run_on_echo fallthrough uninit (of_list p)
              (Z.of_nat (length p)) s rest w extra) as (w' & H);
    rewrite ?Hs; try assumption; try lia.
  rewrite Hs in H. now exists w'.
Qed.

Lemma sendData_acknowledges_faithful_echo_witness :
  exists w',
    sendData None zeros 11 (of_list [1; 2; 3]) 3 PORT1
      (lines (map Byte (wire [1; 2; 3]) ++ [Byte 9]) [Byte 7]) = Ret true w' /\
    tx rs485Port1 w' = wire [1; 2; 3] ++ [ACK] /\
    rx rs485Port1 w' = [Byte 9].
Proof.
  destruct (sendData_acknowledges_faithful_echo None zeros [1; 2; 3]
              rs485Port1 [Byte 9]
              (lines (map Byte (wire [1; 2; 3]) ++ [Byte 9]) [Byte 7]) 0)
    as (w' & H1 & H2 & H3 & _).
  - cbn. lia.
  - repeat (constructor; [unfold is_byte; lia|]). constructor.
  - reflexivity.
  - reflexivity.
  - exists w'. split; [exact H1|]. split; [exact H2 | exact H3].
Defined.

(** ** What sendData puts on the line, on every run *)

Lemma sendData_wait_answer (fallthrough : option bool) (u : array)
  (tempData : array) (numDataBytes : Z) (s : serial) (timeOut : Z)
  (w0 : World) :
  forall (fuel : nat) (w : World),
    (forall s', tx s' w = tx s' w0) ->
    post (sendData_wait fallthrough u fuel tempData numDataBytes (port_of s)
            timeOut w)
         (fun b w' =>
            (b = true -> tx s w' = tx s w0 ++ [ACK]) /\
            (b = false ->
             tx s w' = tx s w0 ++ [NAK] \/ tx s w' = tx s w0) /\
            (forall s', s' <> s -> tx s' w' = tx s' w0)).
Proof.
  assert (Hkeep : forall (us : Z) (w : World),
            (forall s', tx s' w = tx s' w0) ->
            forall s', tx s' (elapse us w) = tx s' w0)
    by (intros us w H s'; now rewrite tx_elapse).
  induction fuel as [|fuel IH]; intros w Hw; cbn [sendData_wait];
    destruct (timeOut + sendReceiveTimeout >? millis w);
    try (cbn [post]; split; [discriminate | split; [now right | auto]]);
    [exact I|].
  apply post_bind with (Q1 := fun _ w1 => forall s', tx s' w1 = tx s' w0).
  - apply (inv_call_checkPortHasData fallthrough
             (fun w1 => forall s', tx s' w1 = tx s' w0)); auto.
    + intros s1 l w1 H s'. now rewrite tx_set_rx.
    + intros pin w1 H s'. now rewrite tx_digitalWrite.
  - intros [] w1 H1; [|now apply IH].
    apply post_bind with (Q1 := fun _ w2 => forall s', tx s' w2 = tx s' w0).
    + apply (inv_readBuffer fallthrough
               (fun w2 => forall s', tx s' w2 = tx s' w0)); auto.
      * intros s1 l w2 H s'. now rewrite tx_set_rx.
      * intros pin w2 H s'. now rewrite tx_digitalWrite.
    + intros [count testData] w2 H2.
      assert (Hother : forall temp s', s' <> s ->
                tx s' (sendByte temp (port_of s) w2) = tx s' w0).
      { intros temp s' Hs. rewrite <- H2.
        destruct s, s'; try reflexivity; congruence. }
      destruct ((0 <? count) && verifyData tempData testData numDataBytes);
        cbn [post].
      * split; [|split; [discriminate|]].
        -- intros _. unfold delayMicroseconds.
           now rewrite tx_elapse, tx_sendByte, H2.
        -- intros s' Hs. unfold delayMicroseconds. rewrite tx_elapse.
           now apply Hother.
      * split; [discriminate|]. split.
        -- intros _. left. now rewrite tx_sendByte, H2.
        -- intros s' Hs. now apply Hother.
Qed.

(** X4.  What a [sendData] with 1 to 126 bytes has put on the line when
    it returns, whatever arrived: the frame of the first [numBytes] cells
    and then one byte, ACK when it returns true; the frame and then NAK, or
    the frame alone, when it returns false.  Nothing else, and nothing on
    the other port. *)
Theorem sendData_sends_frame_and_one_answer
  (fallthrough : option bool) (uninit : array) (fuel : nat) (data : array)
  (numBytes : Z) (s : serial) (w : World) (b : bool) (w' : World) :
  1 <= numBytes <= 126 ->
  sendData fallthrough uninit fuel data numBytes (port_of s) w = Ret b w' ->
  let frame := wire (slice data (Z.to_nat numBytes)) in
  (b = true -> tx s w' = tx s w ++ frame ++ [ACK]) /\
  (b = false ->
   tx s w' = tx s w ++ frame ++ [NAK] \/ tx s w' = tx s w ++ frame) /\
  (forall s', s' <> s -> tx s' w' = tx s' w).
Proof.
  intros Hn E frame. unfold sendData in E.
  replace (numBytes <=? 0) with false in E
    by (symmetry; apply Z.leb_gt; lia).
  rewrite numDataBytes_small in E by lia.
  set (w1 := sendBuffer (sendData_frame uninit data numBytes)
               (2 * numBytes + 3) (port_of s) w) in E.
  assert (Htx1 : tx s w1 = tx s w ++ frame).
  { subst w1 frame.
    destruct (sendBuffer_lines s s (sendData_frame uninit data numBytes)
                (2 * numBytes + 3) w) as [_ ->].
    now rewrite map_for_indices, sendData_frame_wire_slice. }
  assert (Hother : forall s', s' <> s -> tx s' w1 = tx s' w).
  { intros s' Hs. subst w1.
    destruct (sendBuffer_bytes_effect s
                (sendData_frame uninit data numBytes)
                (for_indices 0 (2 * numBytes + 3) 1)
                (digitalWrite (enable_pin s) SEND_MODE w)) as [Ho _].
    cbv zeta in Ho. specialize (Ho s' Hs). rewrite tx_digitalWrite in Ho.
    destruct s; unfold sendBuffer;
      cbn [port_of Z.eqb PORT1 PORT2 Pos.eqb enable_pin] in *;
      unfold sendBuffer_bytes, flush, delayMicroseconds at 1;
      rewrite tx_digitalWrite, tx_elapse; exact Ho. }
  pose proof (sendData_wait_answer fallthrough uninit
                (sendData_frame uninit data numBytes) (2 * numBytes + 3) s
                (millis w1) w1 fuel w1 (fun _ => eq_refl)) as H.
  rewrite E in H. cbn [post] in H. destruct H as (Ht & Hf & Ho).
  rewrite Htx1 in Ht, Hf. rewrite <- !app_assoc in Ht, Hf.
  split; [exact Ht|]. split; [exact Hf|].
  intros s' Hs. rewrite (Ho s' Hs). now apply Hother.
Qed.

Lemma sendData_sends_frame_and_one_answer_witness :
  tx rs485Port2
    (mkWorld 397 [] [] [] [START; 5; inverse 5; END; END; NAK]
       RECEIVE_MODE RECEIVE_MODE)
  = [] ++ wire (slice (of_list [5]) 1) ++ [NAK] \/
  tx rs485Port2
    (mkWorld 397 [] [] [] [START; 5; inverse 5; END; END; NAK]
       RECEIVE_MODE RECEIVE_MODE)
  = [] ++ wire (slice (of_list [5]) 1).
Proof.
  refine (proj1 (proj2 (sendData_sends_frame_and_one_answer None zeros 8
                          (of_list [5]) 1 rs485Port2
                          (lines [] (map Byte [0; END; END])) false
                          (mkWorld 397 [] [] [] 
                             [START; 5; inverse 5; END; END; NAK]
                             RECEIVE_MODE RECEIVE_MODE) _ _)) eq_refl).
  - lia.
  - vm_compute. reflexivity.
Defined.

(** ** Silence, when a poll without a byte reads as false *)

Lemma poll_silent (s : serial) (w : World) :
  bytes_of (rx s w) = [] ->
  exists w1,
    call_checkPortHasData (Some false) (port_of s) w = Ret false w1 /\
    now w1 = now w + 1000 /\
    (forall s', tx s' w1 = tx s' w) /\
    bytes_of (rx s w1) = [].
Proof.
  intros H. unfold call_checkPortHasData, checkPortHasData, listen.
  assert (Hrx : rx s (digitalWrite (enable_pin s) RECEIVE_MODE w) = rx s w)
    by apply rx_digitalWrite.
  destruct (rx s w) as [|[|b] l] eqn:E; [| |discriminate H].
  - exists (elapse 1000 (digitalWrite (enable_pin s) RECEIVE_MODE w)).
    destruct s; cbn [port_of enable_pin Z.eqb PORT1 PORT2 Pos.eqb] in *;
      rewrite (available_silent _ _ Hrx);
      (split; [reflexivity|]); (split; [cbn [now elapse];
                                         now rewrite now_digitalWrite|]);
      (split; [intros s'; now rewrite tx_elapse, tx_digitalWrite|]);
      now rewrite rx_elapse, Hrx.
  - exists (elapse 1000
              (set_rx s l (digitalWrite (enable_pin s) RECEIVE_MODE w))).
    destruct s; cbn [port_of enable_pin Z.eqb PORT1 PORT2 Pos.eqb] in *;
      rewrite (available_idle _ _ _ Hrx);
      (split; [reflexivity|]);
      (split; [cbn [now elapse];
               now rewrite now_set_rx, now_digitalWrite|]);
      (split; [intros s';
               now rewrite tx_elapse, tx_set_rx, tx_digitalWrite|]);
      now rewrite rx_elapse, rx_set_rx.
Qed.

Lemma millis_tick (w w1 : World) :
  now w1 = now w + 1000 -> millis w1 = millis w + 1.
Proof.
  intros H. unfold millis. rewrite H.
  replace (now w + 1000) with (now w + 1 * 1000) by lia.
  now rewrite Z.div_add by lia.
Qed.

Lemma sendData_wait_silent (u tempData : array) (numDataBytes : Z)
  (s : serial) (timeOut : Z) (extra : nat) :
  forall (d : nat) (w : World),
    bytes_of (rx s w) = [] ->
    timeOut + sendReceiveTimeout - millis w <= Z.of_nat d ->
    exists w',
      sendData_wait (Some false) u (d + extra) tempData numDataBytes
        (port_of s) timeOut w = Ret false w' /\
      (forall s', tx s' w' = tx s' w) /\
      timeOut + sendReceiveTimeout <= millis w' /\
      bytes_of (rx s w') = [].
Proof.
  induction d as [|d IH]; intros w Hrx Hd.
  - assert (E : (timeOut + sendReceiveTimeout >? millis w) = false)
      by (rewrite Z.gtb_ltb; apply Z.ltb_ge; lia).
    exists w. split; [|split; [reflexivity | split; [lia | exact Hrx]]].
    destruct extra; cbn [Nat.add sendData_wait]; now rewrite E.
  - cbn [Nat.add sendData_wait].
    destruct (timeOut + sendReceiveTimeout >? millis w) eqn:E.
    + destruct (poll_silent s w Hrx) as (w1 & -> & Hnow & Htx & Hrx1).
      cbn [bind].
      destruct (IH w1 Hrx1) as (w' & Hrun & Htx' & Ht & Hr).
      { rewrite (millis_tick w w1 Hnow). lia. }
      exists w'. split; [exact Hrun|]. split; [|split; assumption].
      intros s'. now rewrite Htx', Htx.
    + exists w. split; [reflexivity|]. split; [reflexivity|].
      split; [|exact Hrx].
      rewrite Z.gtb_ltb in E. apply Z.ltb_ge in E. lia.
Qed.

Lemma sendBuffer_now (data : array) (numBytes : Z) (s : serial) (w : World) :
  now (sendBuffer data numBytes (port_of s) w)
  = now w + Z.of_nat (Z.to_nat numBytes) * (readWriteDelay / 32)
    + readWriteDelay.
Proof.
  destruct (sendBuffer_bytes_effect s data (for_indices 0 numBytes 1)
              (digitalWrite (enable_pin s) SEND_MODE w)) as [_ Hn].
  cbv zeta in Hn. rewrite now_digitalWrite in Hn.
  assert (Hlen : length (for_indices 0 numBytes 1) = Z.to_nat numBytes)
    by now rewrite for_indices_count, length_map, length_seq.
  rewrite Hlen in Hn.
  destruct s; unfold sendBuffer;
    cbn [port_of Z.eqb PORT1 PORT2 Pos.eqb enable_pin] in *;
    unfold sendBuffer_bytes, flush, delayMicroseconds at 1;
    rewrite now_digitalWrite; cbn [elapse now]; rewrite Hn; lia.
Qed.

(** X5.  The sender on a silent line, where a poll that ends without
    [return] reads as false.  If no byte ever arrives on the port, a
    [sendData] with 1 to 126 bytes, given fuel for the 201 polls of its
    budget, transmits its frame and nothing else, neither ACK nor NAK, and
    returns false once [sendReceiveTimeout] milliseconds have passed since
    the frame went out. *)
Theorem sendData_gives_up_on_silence
  (uninit data : array) (numBytes : Z) (s : serial) (w : World)
  (extra : nat) :
  1 <= numBytes <= 126 ->
  bytes_of (rx s w) = [] ->
  exists w',
    sendData (Some false) uninit (Z.to_nat sendReceiveTimeout + extra) data
      numBytes (port_of s) w = Ret false w' /\
    tx s w' = tx s w ++ wire (slice data (Z.to_nat numBytes)) /\
    (forall s', s' <> s -> tx s' w' = tx s' w) /\
    millis w + sendReceiveTimeout <= millis w'.
Proof.
  intros Hn Hrx. unfold sendData.
  replace (numBytes <=? 0) with false by (symmetry; apply Z.leb_gt; lia).
  rewrite numDataBytes_small by lia.
  set (frame := sendData_frame uninit data numBytes).
  set (w1 := sendBuffer frame (2 * numBytes + 3) (port_of s) w).
  assert (Hrx1 : bytes_of (rx s w1) = [])
    by (subst w1;
        now destruct (sendBuffer_lines s s frame (2 * numBytes + 3) w)
          as [-> _]).
  destruct (sendData_wait_silent uninit frame (2 * numBytes + 3) s
              (millis w1) extra (Z.to_nat sendReceiveTimeout) w1 Hrx1)
    as (w' & Hrun & Htx & Ht & _).
  { change sendReceiveTimeout with 201. lia. }
  exists w'. split; [exact Hrun|]. split; [|split].
  - rewrite Htx. subst w1 frame.
    destruct (sendBuffer_lines s s (sendData_frame uninit data numBytes)
                (2 * numBytes + 3) w) as [_ ->].
    now rewrite map_for_indices, sendData_frame_wire_slice.
  - intros s' Hs. rewrite Htx. subst w1.
    destruct (sendBuffer_bytes_effect s frame
                (for_indices 0 (2 * numBytes + 3) 1)
                (digitalWrite (enable_pin s) SEND_MODE w)) as [Ho _].
    cbv zeta in Ho. specialize (Ho s' Hs). rewrite tx_digitalWrite in Ho.
    destruct s; unfold sendBuffer;
      cbn [port_of Z.eqb PORT1 PORT2 Pos.eqb enable_pin] in *;
      unfold sendBuffer_bytes, flush, delayMicroseconds at 1;
      rewrite tx_digitalWrite, tx_elapse; exact Ho.
  - assert (Hm : millis w <= millis w1).
    { unfold millis. apply Z.div_le_mono; [lia|]. subst w1.
      rewrite sendBuffer_now. change (readWriteDelay / 32) with 10.
      change readWriteDelay with 347. lia. }
    lia.
Qed.

Lemma sendData_gives_up_on_silence_witness :
  exists w',
    sendData (Some false) zeros 201 (of_list [5]) 1 PORT2
      (lines [Byte 1] [Idle; Idle]) = Ret false w' /\
    tx rs485Port2 w' = wire [5] /\
    201 <= millis w'.
Proof.
  destruct (sendData_gives_up_on_silence zeros (of_list [5]) 1 rs485Port2
              (lines [Byte 1] [Idle; Idle]) 0)
    as (w' & H1 & H2 & _ & H3).
  - lia.
  - reflexivity.
  - exists w'. split; [exact H1|]. split; [exact H2 | exact H3].
Defined.

(** ** The receiver's side *)

Lemma readByte_pending (s : serial) (b : Z) (l : list slot) (w : World) :
  rx s w = Byte b :: l ->
  readByte (port_of s) w = (to_byte b, set_rx s l w).
Proof.
  intros H. unfold readByte, listen.
  destruct s; cbn [port_of Z.eqb PORT1 PORT2 Pos.eqb];
    rewrite (available_byte _ _ _ _ H), (read_byte _ _ _ _ H); reflexivity.
Qed.

(** The wait for the response once the echo is out: zero bytes are
    skipped, the first other byte decides. *)
Lemma receiveData_wait_on_response (fallthrough : option bool)
  (t : array) (count : Z) (data : array) (s : serial) (r : Z)
  (rest : list slot) (timeout : Z) (extra : nat) :
  is_byte r -> r <> 0 ->
  forall (z : nat) (w : World),
    rx s w = map Byte (repeat 0 z) ++ Byte r :: rest ->
    (timeout + sendReceiveTimeout >? millis w) = true ->
    exists w',
      receiveData_wait fallthrough (S (z + extra)) t count data (port_of s)
        timeout w
      = Ret (if r =? ACK then (true, receiveData_extract t data count)
             else (false, data)) w' /\
      rx s w' = rest /\
      (forall s', tx s' w' = tx s' w).
Proof.
  intros Hr Hr0. induction z as [|z IH]; intros w Hrx Ht.
  - cbn [repeat map app] in Hrx. cbn [Nat.add receiveData_wait].
    rewrite Ht, (poll_pending fallthrough s r rest w Hrx). cbn [bind].
    rewrite (readByte_pending s r rest _
               (eq_trans (rx_digitalWrite _ _ _ _) Hrx)).
    rewrite (to_byte_small r Hr).
    replace (0 <? r) with true
      by (symmetry; apply Z.ltb_lt; unfold is_byte in Hr; lia).
    eexists. split; [|split].
    + destruct (r =? ACK); [reflexivity|].
      destruct (r =? NAK); reflexivity.
    + apply rx_set_rx.
    + intros s'. now rewrite tx_set_rx, tx_digitalWrite.
  - cbn [repeat map app] in Hrx. cbn [Nat.add receiveData_wait].
    rewrite Ht,
      (poll_pending fallthrough s 0
         (map Byte (repeat 0 z) ++ Byte r :: rest) w Hrx).
    cbn [bind].
    rewrite (readByte_pending s 0 _ _
               (eq_trans (rx_digitalWrite _ _ _ _) Hrx)).
    change (to_byte 0) with 0. cbn [Z.ltb Z.compare].
    destruct (IH (set_rx s (map Byte (repeat 0 z) ++ Byte r :: rest)
                    (digitalWrite (enable_pin s) RECEIVE_MODE w)))
      as (w' & Hrun & Hrest & Htx).
    + apply rx_set_rx.
    + unfold millis in *. now rewrite now_set_rx, now_digitalWrite.
    + exists w'. split; [exact Hrun|]. split; [exact Hrest|].
      intros s'. now rewrite Htx, tx_set_rx, tx_digitalWrite.
Qed.

(** [receiveData] on a line that holds the frame of a clean payload, then
    any number of zero bytes, then a response byte. *)
Lemma receiveData_run (fallthrough : option bool) (u data : array)
  (maxDataLength : Z) (s : serial) (p : list Z) (z : nat) (r : Z)
  (rest : list slot) (w : World) (extra : nat) :
  (1 <= length p <= 126)%nat ->
  Forall is_byte p ->
  clean p = true ->
  2 * Z.of_nat (length p) + 3 <= maxDataLength + 1 ->
  is_byte r -> r <> 0 ->
  rx s w = map Byte (wire p) ++ map Byte (repeat 0 z) ++ Byte r :: rest ->
  exists w',
    receiveData fallthrough u (S (length (wire p) + z + extra)) data
      maxDataLength (port_of s) w
    = Ret (if r =? ACK then
             (true,
              receiveData_extract (store_all u 0 (wire p)) data
                (2 * Z.of_nat (length p) + 3))
           else (false, data)) w' /\
    rx s w' = rest /\
    tx s w' = tx s w ++ wire p /\
    (forall s', s' <> s -> tx s' w' = tx s' w).
Proof.
  intros Hp Hb Hc Hmax Hr Hr0 Hrx. unfold receiveData.
  rewrite (poll_pending fallthrough s START
             (map Byte (flat_map (fun d => [d; inverse d]) p ++ [END; END])
              ++ map Byte (repeat 0 z) ++ Byte r :: rest) w Hrx).
  cbn [bind].
  replace (S (length (wire p) + z + extra))
    with (S (length (wire p) + (z + extra))) by lia.
  destruct (readBuffer_reads_frame fallthrough u s p
              (map Byte (repeat 0 z) ++ Byte r :: rest) maxDataLength
              (digitalWrite (enable_pin s) RECEIVE_MODE w) (z + extra))
    as (w2 & Hrun & Hrest & Htx2); try assumption.
  { now rewrite rx_digitalWrite. }
  rewrite Hrun. cbn [bind].
  replace (0 <? 2 * Z.of_nat (length p) + 3) with true
    by (symmetry; apply Z.ltb_lt; lia).
  set (t := store_all u 0 (wire p)) in *.
  set (count := 2 * Z.of_nat (length p) + 3) in *.
  set (w3 := sendBuffer t count (port_of s) w2).
  assert (Hrx3 : rx s (delay 1 w3)
                 = map Byte (repeat 0 z) ++ Byte r :: rest).
  { unfold delay. rewrite rx_elapse. subst w3.
    now destruct (sendBuffer_lines s s t count w2) as [-> _]. }
  replace (S (length (wire p) + (z + extra)))
    with (S (z + (length (wire p) + extra))) by lia.
  destruct (receiveData_wait_on_response fallthrough t count data s r rest
              (millis (delay 1 w3)) (length (wire p) + extra) Hr Hr0 z
              (delay 1 w3) Hrx3 (deadline_ahead _))
    as (w' & Hwait & Hrest' & Htx').
  exists w'. split; [exact Hwait|]. split; [exact Hrest'|].
  assert (Hslice : slice t (Z.to_nat count) = wire p).
  { subst t count.
    replace (Z.to_nat (2 * Z.of_nat (length p) + 3))
      with (length (wire p)) by (rewrite wire_length; lia).
    apply store_all_slice. }
  split.
  - rewrite Htx'. unfold delay. rewrite tx_elapse. subst w3.
    destruct (sendBuffer_lines s s t count w2) as [_ ->].
    rewrite map_for_indices, Hslice, Htx2. now rewrite tx_digitalWrite.
  - intros s' Hs. rewrite Htx'. unfold delay. rewrite tx_elapse. subst w3.
    destruct (sendBuffer_bytes_effect s t (for_indices 0 count 1)
                (digitalWrite (enable_pin s) SEND_MODE w2)) as [Ho _].
    cbv zeta in Ho. specialize (Ho s' Hs). rewrite tx_digitalWrite in Ho.
    assert (H3 : tx s' (sendBuffer t count (port_of s) w2) = tx s' w2).
    { destruct s; unfold sendBuffer;
        cbn [port_of Z.eqb PORT1 PORT2 Pos.eqb enable_pin] in *;
        unfold sendBuffer_bytes, flush, delayMicroseconds at 1;
        rewrite tx_digitalWrite, tx_elapse; exact Ho. }
    now rewrite H3, Htx2, tx_digitalWrite.
Qed.

(** What the caller reads back from the extraction of a frame. *)
Lemma extract_wire_payload (u data : array) (p : list Z) :
  (1 <= length p <= 126)%nat ->
  receiveData_extract (store_all u 0 (wire p)) data
    (2 * Z.of_nat (length p) + 3) 0 = Z.of_nat (length p) /\
  payload (receiveData_extract (store_all u 0 (wire p)) data
             (2 * Z.of_nat (length p) + 3)) = p.
Proof.
  intros Hp.
  destruct (receiveData_extract_payload (store_all u 0 (wire p)) data
              (2 * Z.of_nat (length p) + 3) ltac:(lia)) as [H0 Hpay].
  assert (Hq : (2 * Z.of_nat (length p) + 3 - 2) / 2 = Z.of_nat (length p)).
  { replace (2 * Z.of_nat (length p) + 3 - 2)
      with (1 + Z.of_nat (length p) * 2) by lia.
    now rewrite Z.div_add, Z.div_small, Z.add_0_l by lia. }
  rewrite Hq in H0, Hpay. split; [exact H0|]. rewrite Hpay, Nat2Z.id.
  rewrite <- (slice_eq (of_list p) p) at 2 by (intros k _; apply of_list_nth).
  unfold slice. apply map_ext_in. intros k Hk. apply in_seq in Hk.
  rewrite (wire_cell u u p) by lia.
  rewrite sendData_frame_cells by lia.
  replace (2 * Z.of_nat k + 1 =? 0) with false
    by (symmetry; apply Z.eqb_neq; lia).
  replace ((1 <=? 2 * Z.of_nat k + 1)
           && (2 * Z.of_nat k + 1 <=? 2 * Z.of_nat (length p))) with true
    by (symmetry; apply andb_true_intro; split; apply Z.leb_le; lia).
  rewrite (Z.add_comm _ 1), Z.odd_add_mul_2. cbn [Z.odd].
  replace (1 + 2 * Z.of_nat k - 1) with (Z.of_nat k * 2) by lia.
  now rewrite Z.div_mul by lia.
Qed.

(** X6.  The receiver's side of a successful exchange.  Let the line hold
    the frame of a payload of 1 to 126 bytes (none [END], the last not the
    complement of [END]) that fits the count, then any number of zero
    bytes, then ACK.  Then [receiveData], given enough fuel, echoes the
    frame byte for byte, skips the zero bytes, returns true and hands the
    caller the payload: [data[0]] is its length and the cells after it are
    its bytes.  It leaves what follows the ACK on the line. *)
Theorem receiveData_delivers_payload
  (fallthrough : option bool) (uninit data : array) (maxDataLength : Z)
  (s : serial) (p : list Z) (z : nat) (rest : list slot) (w : World)
  (extra : nat) :
  (1 <= length p <= 126)%nat ->
  Forall is_byte p ->
  clean p = true ->
  2 * Z.of_nat (length p) + 3 <= maxDataLength + 1 ->
  rx s w = map Byte (wire p) ++ map Byte (repeat 0 z) ++ Byte ACK :: rest ->
  exists out w',
    receiveData fallthrough uninit (S (length (wire p) + z + extra)) data
      maxDataLength (port_of s) w = Ret (true, out) w' /\
    out 0 = Z.of_nat (length p) /\
    payload out = p /\
    tx s w' = tx s w ++ wire p /\
    rx s w' = rest.
Proof.
  intros Hp Hb Hc Hmax Hrx.
  destruct (receiveData_run fallthrough uninit data maxDataLength s p z ACK
              rest w extra) as (w' & Hrun & Hrest & Htx & _);
    try assumption; try (unfold is_byte, ACK; lia).
  rewrite Z.eqb_refl in Hrun.
  destruct (extract_wire_payload uninit data p Hp) as [H0 Hpay].
  eexists _, w'. split; [exact Hrun|]. repeat split; assumption.
Qed.

Lemma receiveData_delivers_payload_witness :
  exists out w',
    receiveData None zeros 11 zeros dataLength PORT1
      (lines (map Byte (wire [4; 2] ++ [0; 0; ACK; 9])) []) = Ret (true, out) w' /\
    out 0 = 2 /\
    payload out = [4; 2] /\
    tx rs485Port1 w' = wire [4; 2] /\
    rx rs485Port1 w' = [Byte 9].
Proof.
  apply (receiveData_delivers_payload None zeros zeros dataLength rs485Port1
           [4; 2] 2 [Byte 9]
           (lines (map Byte (wire [4; 2] ++ [0; 0; ACK; 9])) []) 1).
  - cbn. lia.
  - repeat (constructor; [unfold is_byte; lia|]). constructor.
  - reflexivity.
  - unfold dataLength, MAXBYTES. cbn. lia.
  - reflexivity.
Defined.

(** X7.  The receiver turned down.  On the same line, when the first
    nonzero byte after the frame is anything but ACK (NAK or any other
    value), [receiveData] has echoed the frame all the same, returns
    false, and the caller's array is as it was. *)
Theorem receiveData_fails_on_other_response
  (fallthrough : option bool) (uninit data : array) (maxDataLength : Z)
  (s : serial) (p : list Z) (z : nat) (r : Z) (rest : list slot) (w : World)
  (extra : nat) :
  (1 <= length p <= 126)%nat ->
  Forall is_byte p ->
  clean p = true ->
  2 * Z.of_nat (length p) + 3 <= maxDataLength + 1 ->
  is_byte r -> r <> 0 -> r <> ACK ->
  rx s w = map Byte (wire p) ++ map Byte (repeat 0 z) ++ Byte r :: rest ->
  exists w',
    receiveData fallthrough uninit (S (length (wire p) + z + extra)) data
      maxDataLength (port_of s) w = Ret (false, data) w' /\
    tx s w' = tx s w ++ wire p /\
    rx s w' = rest.
Proof.
  intros Hp Hb Hc Hmax Hr Hr0 Hack Hrx.
  destruct (receiveData_run fallthrough uninit data maxDataLength s p z r
              rest w extra) as (w' & Hrun & Hrest & Htx & _);
    try assumption.
  apply Z.eqb_neq in Hack. rewrite Hack in Hrun.
  exists w'. split; [exact Hrun|]. split; assumption.
Qed.

Lemma receiveData_fails_on_other_response_witness :
  exists w',
    receiveData None zeros (S (length (wire [4; 2]) + 0 + 0)) zeros
      dataLength (port_of rs485Port2)
      (lines [] (map Byte (wire [4; 2] ++ [NAK]))) = Ret (false, zeros) w' /\
    tx rs485Port2 w'
    = tx rs485Port2 (lines [] (map Byte (wire [4; 2] ++ [NAK])))
      ++ wire [4; 2] /\
    rx rs485Port2 w' = [].
Proof.
  apply (receiveData_fails_on_other_response None zeros zeros dataLength
           rs485Port2 [4; 2] 0 NAK []
           (lines [] (map Byte (wire [4; 2] ++ [NAK]))) 0).
  - cbn. lia.
  - repeat (constructor; [unfold is_byte; lia|]). constructor.
  - reflexivity.
  - unfold dataLength, MAXBYTES. cbn. lia.
  - unfold is_byte, NAK. lia.
  - discriminate.
  - discriminate.
  - reflexivity.
Defined.

(** ** What receiveData does to the caller's array and to the line *)

Lemma receiveData_wait_result (fallthrough : option bool) (fuel : nat)
  (tempData : array) (count : Z) (data : array) (port timeout : Z) :
  forall w,
    post (receiveData_wait fallthrough fuel tempData count data port
            timeout w)
         (fun r _ =>
            (fst r = true ->
             snd r = receiveData_extract tempData data count) /\
            (fst r = false -> snd r = data)).
Proof.
  induction fuel as [|fuel IH]; intros w; cbn [receiveData_wait];
    destruct (timeout + sendReceiveTimeout >? millis w);
    try (cbn; split; [discriminate | reflexivity]); [exact I|].
  destruct (call_checkPortHasData fallthrough port w) as [[] w1| |];
    cbn [bind]; try exact I; [|apply IH].
  destruct (readByte port w1) as [response w2].
  destruct (0 <? response); [|apply IH].
  destruct (response =? ACK); [cbn; split; [reflexivity | discriminate]|].
  destruct (response =? NAK); cbn; split; (discriminate || reflexivity).
Qed.

Lemma sendBuffer_other_tx (data : array) (numBytes : Z) (s s' : serial)
  (w : World) :
  s' <> s -> tx s' (sendBuffer data numBytes (port_of s) w) = tx s' w.
Proof.
  intros Hs.
  destruct (sendBuffer_bytes_effect s data (for_indices 0 numBytes 1)
              (digitalWrite (enable_pin s) SEND_MODE w)) as [Ho _].
  cbv zeta in Ho. specialize (Ho s' Hs). rewrite tx_digitalWrite in Ho.
  destruct s; unfold sendBuffer;
    cbn [port_of Z.eqb PORT1 PORT2 Pos.eqb enable_pin] in *;
    unfold sendBuffer_bytes, flush, delayMicroseconds at 1;
    rewrite tx_digitalWrite, tx_elapse; exact Ho.
Qed.

(** X8.  What [receiveData] changes, on every run that returns.  When it
    returns false the caller's array is as it was, and on its port it has
    transmitted either nothing or the cells [readBuffer] filled, up to the
    count, of an array that passed the framing checks.  When it returns
    true it has transmitted exactly those cells, and the caller's array is
    the extraction from that same array.  It never transmits a byte of its
    own, and nothing on the other port. *)
Theorem receiveData_echoes_and_nothing_else
  (fallthrough : option bool) (uninit : array) (fuel : nat) (data : array)
  (maxDataLength : Z) (s : serial) (w : World) (b : bool) (out : array)
  (w' : World) :
  receiveData fallthrough uninit fuel data maxDataLength (port_of s) w
  = Ret (b, out) w' ->
  (out = data /\ tx s w' = tx s w /\ b = false \/
   exists count t,
     3 <= count < 256 /\
     t 0 = START /\ t (count - 1) = END /\ t (count - 2) = END /\
     tx s w' = tx s w ++ slice t (Z.to_nat count) /\
     out = (if b then receiveData_extract t data count else data)) /\
  (forall s', s' <> s -> tx s' w' = tx s' w).
Proof.
  intros E. unfold receiveData in E.
  pose proof (inv_call_checkPortHasData fallthrough
                (fun w1 => forall s', tx s' w1 = tx s' w)
                ltac:(intros us w0 H s'; now rewrite tx_elapse)
                ltac:(intros s1 l w0 H s'; now rewrite tx_set_rx)
                ltac:(intros pin w0 H s'; now rewrite tx_digitalWrite)
                (port_of s) w (fun _ => eq_refl)) as Hp.
  destruct (call_checkPortHasData fallthrough (port_of s) w)
    as [has w1| |]; cbn [bind] in E; try discriminate E.
  cbn [post] in Hp.
  destruct has; [|inversion E; subst; split; [left|]; auto].
  pose proof (readBuffer_count fallthrough fuel uninit maxDataLength
                (port_of s) w1) as Hc.
  pose proof (inv_readBuffer fallthrough
                (fun w2 => forall s', tx s' w2 = tx s' w)
                ltac:(intros us w0 H s'; now rewrite tx_elapse)
                ltac:(intros s1 l w0 H s'; now rewrite tx_set_rx)
                ltac:(intros pin w0 H s'; now rewrite tx_digitalWrite)
                fuel uninit maxDataLength (port_of s) w1 Hp) as Ht.
  destruct (readBuffer fallthrough fuel uninit maxDataLength (port_of s) w1)
    as [[count t] w2| |]; cbn [bind] in E; try discriminate E.
  cbn [post fst snd] in Hc, Ht.
  destruct (0 <? count) eqn:E0;
    [|inversion E; subst; split; [left|]; auto].
  apply Z.ltb_lt in E0. destruct Hc as [Hc|(Hc & Hs & He1 & He2)]; [lia|].
  set (w4 := delay 1 (sendBuffer t count (port_of s) w2)) in E.
  pose proof (receiveData_wait_result fallthrough fuel t count data
                (port_of s) (millis w4) w4) as Hr.
  pose proof (inv_receiveData_wait fallthrough
                (fun w5 => forall s', tx s' w5 = tx s' w4)
                ltac:(intros us w0 H s'; now rewrite tx_elapse)
                ltac:(intros s1 l w0 H s'; now rewrite tx_set_rx)
                ltac:(intros pin w0 H s'; now rewrite tx_digitalWrite)
                fuel t count data (port_of s) (millis w4) w4
                (fun _ => eq_refl)) as Hw.
  rewrite E in Hr, Hw. cbn [post fst snd] in Hr, Hw.
  destruct Hr as [Hrt Hrf]. split.
  - right. exists count, t. repeat (split; [assumption|]). split.
    + rewrite Hw. subst w4. unfold delay. rewrite tx_elapse.
      destruct (sendBuffer_lines s s t count w2) as [_ ->].
      now rewrite map_for_indices, Ht.
    + destruct b; [now apply Hrt | now apply Hrf].
  - intros s' Hs'. rewrite Hw. subst w4. unfold delay.
    rewrite tx_elapse, sendBuffer_other_tx by exact Hs'. apply Ht.
Qed.

Lemma receiveData_echoes_and_nothing_else_witness :
  (zeros = zeros /\
   tx rs485Port1
     (mkWorld 0 [] [Byte 3] [] [] RECEIVE_MODE RECEIVE_MODE)
   = tx rs485Port1 (lines [Byte 0; Byte END; Byte END] [Byte 3]) /\
   false = false \/
   exists count t,
     3 <= count < 256 /\
     t 0 = START /\ t (count - 1) = END /\ t (count - 2) = END /\
     tx rs485Port1
       (mkWorld 0 [] [Byte 3] [] [] RECEIVE_MODE RECEIVE_MODE)
     = tx rs485Port1 (lines [Byte 0; Byte END; Byte END] [Byte 3])
       ++ slice t (Z.to_nat count) /\
     zeros = (if false then receiveData_extract t zeros count else zeros)) /\
  (forall s', s' <> rs485Port1 ->
     tx s' (mkWorld 0 [] [Byte 3] [] [] RECEIVE_MODE RECEIVE_MODE)
     = tx s' (lines [Byte 0; Byte END; Byte END] [Byte 3])).
Proof.
  apply (receiveData_echoes_and_nothing_else None zeros 5 zeros dataLength
           rs485Port1 (lines [Byte 0; Byte END; Byte END] [Byte 3]) false
           zeros (mkWorld 0 [] [Byte 3] [] [] RECEIVE_MODE RECEIVE_MODE)).
  vm_compute. reflexivity.
Defined.

Lemma now_available (s : serial) (w : World) :
  now w <= now (snd (available s w)).
Proof.
  unfold available. destruct (rx s w) as [|[|b] l]; cbn [snd now elapse];
    rewrite ?now_set_rx; lia.
Qed.

Lemma now_read (s : serial) (w : World) : now (snd (read s w)) = now w.
Proof.
  unfold read. destruct (rx s w) as [|[|b] l]; cbn [snd];
    rewrite ?now_set_rx; reflexivity.
Qed.

Lemma now_accumulate (s : serial) (fuel : nat) (maxDataLength : Z) :
  forall (t : array) (count : Z) (endMode : bool) (w0 w : World),
    now w0 <= now w ->
    post (readBuffer_accumulate s fuel maxDataLength t count endMode w)
         (fun _ w' => now w0 <= now w').
Proof.
  induction fuel as [|fuel IH]; intros t count endMode w0 w H;
    cbn [readBuffer_accumulate];
    destruct ((count <? maxDataLength + 1) && endMode); try exact H;
    [exact I|].
  pose proof (now_available s w) as Ha.
  destruct (available s w) as [[] w1]; cbn [snd] in Ha.
  - pose proof (now_read s w1) as Hr.
    destruct (read s w1) as [b w2]. cbn [snd] in Hr. apply IH. lia.
  - apply IH. lia.
Qed.

Lemma now_call_checkPortHasData (fallthrough : option bool) (port : Z)
  (w0 w : World) :
  now w0 <= now w ->
  post (call_checkPortHasData fallthrough port w)
       (fun _ w' => now w0 <= now w').
Proof.
  intros H. unfold call_checkPortHasData, checkPortHasData, listen.
  destruct (port =? PORT1).
  - pose proof (now_available rs485Port1
                  (digitalWrite PORT1_ENABLE RECEIVE_MODE w)) as Ha.
    rewrite now_digitalWrite in Ha.
    destruct (available _ _) as [[] w1]; cbn [snd] in Ha; cbn [post];
      [lia|].
    destruct fallthrough; cbn [post]; [lia | exact I].
  - destruct (port =? PORT2).
    + pose proof (now_available rs485Port2
                    (digitalWrite PORT2_ENABLE RECEIVE_MODE w)) as Ha.
      rewrite now_digitalWrite in Ha.
      destruct (available _ _) as [[] w1]; cbn [snd] in Ha; cbn [post];
        [lia|].
      destruct fallthrough; cbn [post]; [lia | exact I].
    + destruct fallthrough; cbn [post]; [lia | exact I].
Qed.

Lemma now_readBuffer_loop (fallthrough : option bool) (t : array)
  (maxDataLength port timeOut count : Z) (w0 : World) :
  forall (fuel : nat) (w : World),
    now w0 <= now w ->
    post (readBuffer_loop fallthrough fuel t maxDataLength port timeOut
            count w)
         (fun _ w' => now w0 <= now w').
Proof.
  induction fuel as [|fuel IH]; intros w H; cbn [readBuffer_loop];
    destruct (timeOut + sendReceiveTimeout >? millis w); try exact H;
    [exact I|].
  apply post_bind with (Q1 := fun _ w1 => now w0 <= now w1).
  - now apply now_call_checkPortHasData.
  - intros [] w1 H1; [|exact H1].
    destruct (count <? maxDataLength); [|now apply IH].
    unfold readBuffer_body.
    apply post_bind with (Q1 := fun _ w2 => now w0 <= now w2).
    + destruct (port =? PORT1); [now apply now_accumulate|].
      destruct (port =? PORT2); [now apply now_accumulate | exact H1].
    + intros [t1 c1] w2 H2. exact H2.
Qed.

(** The clock does not run backwards during [readBuffer]. *)
Lemma now_readBuffer (fallthrough : option bool) (fuel : nat) (t : array)
  (maxDataLength port : Z) (w : World) :
  post (readBuffer fallthrough fuel t maxDataLength port w)
       (fun _ w' => now w <= now w').
Proof. unfold readBuffer. apply now_readBuffer_loop. lia. Qed.

Lemma receiveData_wait_silent (t : array) (count : Z) (data : array)
  (s : serial) (timeout : Z) (extra : nat) :
  forall (d : nat) (w : World),
    bytes_of (rx s w) = [] ->
    timeout + sendReceiveTimeout - millis w <= Z.of_nat d ->
    exists w',
      receiveData_wait (Some false) (d + extra) t count data (port_of s)
        timeout w = Ret (false, data) w' /\
      (forall s', tx s' w' = tx s' w) /\
      timeout + sendReceiveTimeout <= millis w'.
Proof.
  induction d as [|d IH]; intros w Hrx Hd.
  - assert (E : (timeout + sendReceiveTimeout >? millis w) = false)
      by (rewrite Z.gtb_ltb; apply Z.ltb_ge; lia).
    exists w. split; [|split; [reflexivity | lia]].
    destruct extra; cbn [Nat.add receiveData_wait]; now rewrite E.
  - cbn [Nat.add receiveData_wait].
    destruct (timeout + sendReceiveTimeout >? millis w) eqn:E.
    + destruct (poll_silent s w Hrx) as (w1 & -> & Hnow & Htx & Hrx1).
      cbn [bind].
      destruct (IH w1 Hrx1) as (w' & Hrun & Htx' & Ht).
      { rewrite (millis_tick w w1 Hnow). lia. }
      exists w'. split; [exact Hrun|]. split; [|exact Ht].
      intros s'. now rewrite Htx', Htx.
    + exists w. split; [reflexivity|]. split; [reflexivity|].
      rewrite Z.gtb_ltb in E. apply Z.ltb_ge in E. lia.
Qed.

(** X9.  The receiver left without a response, where a poll that ends
    without [return] reads as false.  If the line holds the frame of a
    clean payload and then stays silent, [receiveData] echoes the frame,
    polls for [sendReceiveTimeout] milliseconds, and returns false with the
    caller's array as it was. *)
Theorem receiveData_gives_up_without_response
  (uninit data : array) (maxDataLength : Z) (s : serial) (p : list Z)
  (rest : list slot) (w : World) (extra : nat) :
  (1 <= length p <= 126)%nat ->
  Forall is_byte p ->
  clean p = true ->
  2 * Z.of_nat (length p) + 3 <= maxDataLength + 1 ->
  rx s w = map Byte (wire p) ++ rest ->
  bytes_of rest = [] ->
  exists w',
    receiveData (Some false) uninit
      (S (length (wire p) + Z.to_nat sendReceiveTimeout + extra)) data
      maxDataLength (port_of s) w = Ret (false, data) w' /\
    tx s w' = tx s w ++ wire p /\
    millis w + sendReceiveTimeout <= millis w'.
Proof.
  intros Hp Hb Hc Hmax Hrx Hrest. unfold receiveData.
  rewrite (poll_pending (Some false) s START
             (map Byte (flat_map (fun d => [d; inverse d]) p ++ [END; END])
              ++ rest) w Hrx).
  cbn [bind].
  replace (S (length (wire p) + Z.to_nat sendReceiveTimeout + extra))
    with (S (length (wire p) + (Z.to_nat sendReceiveTimeout + extra)))
    by lia.
  destruct (readBuffer_reads_frame (Some false) uninit s p rest
              maxDataLength (digitalWrite (enable_pin s) RECEIVE_MODE w)
              (Z.to_nat sendReceiveTimeout + extra))
    as (w2 & Hrun & Hrest2 & Htx2); try assumption.
  { now rewrite rx_digitalWrite. }
  rewrite Hrun. cbn [bind].
  replace (0 <? 2 * Z.of_nat (length p) + 3) with true
    by (symmetry; apply Z.ltb_lt; lia).
  set (t := store_all uninit 0 (wire p)) in *.
  set (count := 2 * Z.of_nat (length p) + 3) in *.
  set (w4 := delay 1 (sendBuffer t count (port_of s) w2)).
  assert (Hrx4 : bytes_of (rx s w4) = []).
  { subst w4. unfold delay. rewrite rx_elapse.
    destruct (sendBuffer_lines s s t count w2) as [-> _].
    now rewrite Hrest2. }
  replace (S (length (wire p) + (Z.to_nat sendReceiveTimeout + extra)))
    with (Z.to_nat sendReceiveTimeout + S (length (wire p) + extra))%nat
    by lia.
  destruct (receiveData_wait_silent t count data s (millis w4)
              (S (length (wire p) + extra)) (Z.to_nat sendReceiveTimeout)
              w4 Hrx4) as (w' & Hwait & Htx' & Ht).
  { change sendReceiveTimeout with 201. lia. }
  exists w'. split; [exact Hwait|]. split.
  - rewrite Htx'. subst w4. unfold delay. rewrite tx_elapse.
    destruct (sendBuffer_lines s s t count w2) as [_ ->].
    rewrite map_for_indices, Htx2, tx_digitalWrite. f_equal. subst t count.
    replace (Z.to_nat (2 * Z.of_nat (length p) + 3))
      with (length (wire p)) by (rewrite wire_length; lia).
    apply store_all_slice.
  - assert (Hm : millis w <= millis w4).
    { assert (Hn2 : now w <= now w2).
      { pose proof (now_readBuffer (Some false)
                      (S (length (wire p)
                          + (Z.to_nat sendReceiveTimeout + extra)))
                      uninit maxDataLength (port_of s)
                      (digitalWrite (enable_pin s) RECEIVE_MODE w)) as Hi.
        rewrite Hrun in Hi. cbn [post] in Hi.
        now rewrite now_digitalWrite in Hi. }
      unfold millis. apply Z.div_le_mono; [lia|]. subst w4.
      unfold delay. cbn [now elapse]. rewrite sendBuffer_now.
      change (readWriteDelay / 32) with 10.
      change readWriteDelay with 347. lia. }
    lia.
Qed.

Lemma receiveData_gives_up_without_response_witness :
  exists w',
    receiveData (Some false) zeros
      (S (length (wire [7]) + Z.to_nat sendReceiveTimeout + 0)) zeros
      dataLength (port_of rs485Port1)
      (lines (map Byte (wire [7]) ++ [Idle; Idle]) []) = Ret (false, zeros) w' /\
    tx rs485Port1 w'
    = tx rs485Port1 (lines (map Byte (wire [7]) ++ [Idle; Idle]) [])
      ++ wire [7] /\
    millis (lines (map Byte (wire [7]) ++ [Idle; Idle]) [])
    + sendReceiveTimeout <= millis w'.
Proof.
  apply (receiveData_gives_up_without_response zeros zeros dataLength
           rs485Port1 [7] [Idle; Idle]
           (lines (map Byte (wire [7]) ++ [Idle; Idle]) []) 0).
  - cbn. lia.
  - repeat (constructor; [unfold is_byte; lia|]). constructor.
  - reflexivity.
  - unfold dataLength, MAXBYTES. cbn. lia.
  - reflexivity.
  - reflexivity.
Defined.

(** ** eccoTest *)

(** A poll whose value is defined: a byte is pending, or the line is
    silent for good and the platform fixes what the missing [return]
    yields. *)
Lemma poll_defined (fallthrough : option bool) (s : serial) (w : World) :
  (exists b l, rx s w = Byte b :: l) \/
  (rx s w = [] /\ exists f, fallthrough = Some f) ->
  exists h w1,
    call_checkPortHasData fallthrough (port_of s) w = Ret h w1 /\
    rx s w1 = rx s w /\
    (forall s', tx s' w1 = tx s' w).
Proof.
  intros [(b & l & H)|(H & f & ->)].
  - exists true, (digitalWrite (enable_pin s) RECEIVE_MODE w).
    split; [now apply (poll_pending fallthrough s b l)|].
    split; [apply rx_digitalWrite|]. intros s'. apply tx_digitalWrite.
  - exists f, (elapse 1000 (digitalWrite (enable_pin s) RECEIVE_MODE w)).
    assert (Hrx : rx s (digitalWrite (enable_pin s) RECEIVE_MODE w) = [])
      by now rewrite rx_digitalWrite.
    split; [|split].
    + unfold call_checkPortHasData, checkPortHasData, listen.
      destruct s; cbn [port_of enable_pin Z.eqb PORT1 PORT2 Pos.eqb] in *;
        rewrite (available_silent _ _ Hrx); reflexivity.
    + now rewrite rx_elapse, rx_digitalWrite.
    + intros s'. now rewrite tx_elapse, tx_digitalWrite.
Qed.

Lemma eccoTest_read_step (fallthrough : option bool) (s : serial)
  (tempCount b : Z) (l : list slot) (w : World) :
  is_byte b ->
  rx s w = Byte b :: l ->
  exists w1,
    eccoTest_step fallthrough (port_of s) (tempCount, false) w
    = Ret (b, true) w1 /\
    rx s w1 = l /\ (forall s', tx s' w1 = tx s' w).
Proof.
  intros Hb Hrx. unfold eccoTest_step.
  rewrite (poll_pending fallthrough s b l w Hrx). cbn [bind].
  cbn [negb Z.b2z Z.land Pos.land truthy Z.eqb].
  rewrite (readByte_pending s b l _
             (eq_trans (rx_digitalWrite _ _ _ _) Hrx)).
  rewrite (to_byte_small b Hb). eexists. split; [reflexivity|].
  split; [apply rx_set_rx|]. intros s'.
  now rewrite tx_set_rx, tx_digitalWrite.
Qed.

Lemma eccoTest_send_step (fallthrough : option bool) (s : serial)
  (tempCount : Z) (w : World) :
  (exists b l, rx s w = Byte b :: l) \/
  (rx s w = [] /\ exists f, fallthrough = Some f) ->
  exists w1,
    eccoTest_step fallthrough (port_of s) (tempCount, true) w
    = Ret (to_byte (tempCount + 1), false) w1 /\
    rx s w1 = rx s w /\
    tx s w1 = tx s w ++ [to_byte (tempCount + 1)].
Proof.
  intros H. destruct (poll_defined fallthrough s w H)
    as (h & w1 & Hp & Hrx & Htx).
  unfold eccoTest_step. rewrite Hp. cbn [bind negb Z.b2z].
  rewrite Z.land_0_r. cbn [truthy Z.eqb negb]. eexists.
  split; [reflexivity|]. split.
  - now rewrite rx_sendByte.
  - now rewrite tx_sendByte, Htx.
Qed.

(** X10.  The echo test answers every byte with its successor.  Started
    with [sendMode] false on a line that holds the bytes [bs], after two
    iterations per byte [eccoTest] has read them all and written, in
    order, each of them plus one (modulo 256); its counter holds the last
    value written.  This needs the poll before each answer to have a
    value: a further byte is pending behind [bs], or the line is silent
    and the missing [return] of [checkPortHasData] yields some boolean. *)
Theorem eccoTest_answers_with_successor
  (fallthrough : option bool) (s : serial) (rest : list slot) :
  (exists b l, rest = Byte b :: l) \/
  (rest = [] /\ exists f, fallthrough = Some f) ->
  forall (bs : list Z) (tempCount : Z) (w : World),
    Forall is_byte bs ->
    rx s w = map Byte bs ++ rest ->
    exists w',
      eccoTest_iterate fallthrough (2 * length bs) (port_of s)
        (tempCount, false) w
      = Ret (last (map (fun b => to_byte (b + 1)) bs) tempCount, false) w' /\
      tx s w' = tx s w ++ map (fun b => to_byte (b + 1)) bs /\
      rx s w' = rest.
Proof.
  intros Hrest. induction bs as [|b bs IH]; intros tempCount w Hb Hrx.
  - exists w. cbn [length Nat.mul eccoTest_iterate map last app] in *.
    split; [reflexivity|]. split; [now rewrite app_nil_r | exact Hrx].
  - inversion Hb as [|b0 bs0 Hb1 Hb2]; subst.
    replace (2 * length (b :: bs))%nat with (S (S (2 * length bs)))
      by (cbn [length]; lia).
    cbn [map app] in Hrx.
    destruct (eccoTest_read_step fallthrough s tempCount b
                (map Byte bs ++ rest) w Hb1 Hrx) as (w1 & Hs1 & Hrx1 & Htx1).
    assert (Hok : (exists b' l, rx s w1 = Byte b' :: l) \/
                  (rx s w1 = [] /\ exists f, fallthrough = Some f)).
    { rewrite Hrx1. destruct bs as [|b2 bs].
      - exact Hrest.
      - left. now exists b2, (map Byte bs ++ rest). }
    destruct (eccoTest_send_step fallthrough s b w1 Hok)
      as (w2 & Hs2 & Hrx2 & Htx2).
    destruct (IH (to_byte (b + 1)) w2 Hb2) as (w' & Hrun & Htx & Hrx').
    { now rewrite Hrx2, Hrx1. }
    exists w'. cbn [eccoTest_iterate]. rewrite Hs1. cbn [bind].
    rewrite Hs2. cbn [bind]. rewrite Hrun. split; [|split].
    + f_equal. f_equal. cbn [map]. destruct bs as [|b2 bs]; [reflexivity|].
      cbn [map]. generalize (to_byte (b2 + 1)) as x.
      generalize (map (fun b => to_byte (b + 1)) bs) as l.
      induction l as [|y l IHl]; intros x; [reflexivity|].
      change (last (y :: l) (to_byte (b + 1))
              = last (to_byte (b + 1) :: x :: y :: l) tempCount).
      rewrite (IHl y). reflexivity.
    + rewrite Htx, Htx2, Htx1. cbn [map]. now rewrite <- app_assoc.
    + exact Hrx'.
Qed.

Lemma eccoTest_answers_with_successor_witness :
  exists w',
    eccoTest_iterate None (2 * length [1; 255; 7]) (port_of rs485Port1)
      (0, false) (lines (map Byte [1; 255; 7] ++ [Byte 9]) [])
    = Ret (last (map (fun b => to_byte (b + 1)) [1; 255; 7]) 0, false) w' /\
    tx rs485Port1 w'
    = tx rs485Port1 (lines (map Byte [1; 255; 7] ++ [Byte 9]) [])
      ++ map (fun b => to_byte (b + 1)) [1; 255; 7] /\
    rx rs485Port1 w' = [Byte 9].
Proof.
  apply (eccoTest_answers_with_successor None rs485Port1 [Byte 9]).
  - left. now exists 9, [].
  - repeat (constructor; [unfold is_byte; lia|]). constructor.
  - reflexivity.
Defined.

(** ** loop *)

Lemma post_weaken {A : Type} (m : outcome A)
  (Q1 Q2 : A -> World -> Prop) :
  post m Q1 -> (forall a w, Q1 a w -> Q2 a w) -> post m Q2.
Proof. destruct m as [a w| |]; cbn; auto. Qed.


Lemma loop_fill_cells (data : array) (count i : Z) :
  loop_fill data count i
  = if (0 <=? i) && (i <? MAXBYTES) then to_byte (count + i) else data i.
Proof.
  unfold loop_fill. rewrite for_indices_count.
  change (Z.to_nat MAXBYTES) with 32%nat. unfold MAXBYTES.
  assert (H : forall k,
            fold_left (fun d j => upd d j (to_byte (count + j)))
              (map Z.of_nat (seq 0 k)) data i
            = if (0 <=? i) && (i <? Z.of_nat k) then to_byte (count + i)
              else data i).
  { induction k as [|k IH].
    - cbn [seq map fold_left]. destruct (0 <=? i) eqn:E1; [|reflexivity].
      destruct (i <? Z.of_nat 0) eqn:E2; [|reflexivity].
      apply Z.leb_le in E1. apply Z.ltb_lt in E2. lia.
    - rewrite seq_S, map_app, fold_left_app. cbn [map fold_left Nat.add].
      unfold upd at 1. rewrite IH.
      destruct (Z.eqb_spec i (Z.of_nat k)) as [->|Hne].
      + replace ((0 <=? Z.of_nat k) && (Z.of_nat k <? Z.of_nat (S k)))
          with true; [reflexivity|].
        symmetry. apply andb_true_intro.
        split; [apply Z.leb_le | apply Z.ltb_lt]; lia.
      + destruct (0 <=? i) eqn:E1; [|reflexivity]. cbn [andb].
        destruct (i <? Z.of_nat k) eqn:E2.
        * replace (i <? Z.of_nat (S k)) with true; [reflexivity|].
          symmetry. apply Z.ltb_lt. apply Z.ltb_lt in E2. lia.
        * replace (i <? Z.of_nat (S k)) with false; [reflexivity|].
          symmetry. apply Z.ltb_ge. apply Z.ltb_ge in E2. lia. }
  specialize (H 32%nat). exact H.
Qed.

Lemma driver_qty (count : Z) :
  0 <= count < MAXBYTES -> to_byte (1 + Z.rem count MAXBYTES) = count + 1.
Proof.
  unfold MAXBYTES. intros H. rewrite Z.rem_small by lia.
  rewrite to_byte_small; lia.
Qed.

Lemma driver_slice (data : array) (count : Z) :
  0 <= count < MAXBYTES ->
  slice (loop_fill data count) (Z.to_nat (count + 1)) = driver_payload count.
Proof.
  unfold MAXBYTES. intros H. unfold slice, driver_payload.
  rewrite for_indices_count, map_map. apply map_ext_in. intros k Hk.
  apply in_seq in Hk. rewrite loop_fill_cells. unfold MAXBYTES.
  replace ((0 <=? Z.of_nat k) && (Z.of_nat k <? 32)) with true
    by (symmetry; apply andb_true_intro;
        split; [apply Z.leb_le | apply Z.ltb_lt]; lia).
  apply to_byte_small. lia.
Qed.

Lemma driver_payload_small (count : Z) :
  0 <= count < MAXBYTES ->
  length (driver_payload count) = Z.to_nat (count + 1) /\
  Forall (fun d => 0 <= d < END) (driver_payload count).
Proof.
  unfold MAXBYTES, END. intros H. unfold driver_payload. split.
  - now rewrite for_indices_count, !length_map, length_seq.
  - apply Forall_forall. intros d Hd. apply in_map_iff in Hd.
    destruct Hd as (i & <- & Hi). apply for_indices_In in Hi. lia.
Qed.

(** A payload of bytes below [END] is clean. *)
Lemma small_clean (p : list Z) :
  p <> [] ->
  Forall (fun d => 0 <= d < END) p ->
  Forall is_byte p /\ clean p = true.
Proof.
  intros Hne H. rewrite Forall_forall in H. split.
  - apply Forall_forall. intros d Hd. specialize (H d Hd).
    unfold is_byte, END in *. lia.
  - unfold clean. apply andb_true_intro. split.
    + apply forallb_forall. intros d Hd. specialize (H d Hd).
      apply negb_true_iff, Z.eqb_neq. lia.
    + assert (Hl : In (last p 0) p).
      { destruct p as [|d p]; [congruence|].
        clear H Hne. revert d. induction p as [|d' p IH]; intros d.
        - now left.
        - right. apply (IH d'). }
      specialize (H _ Hl). apply negb_true_iff, Z.eqb_neq.
      change (inverse END) with 136. unfold END in H. lia.
Qed.

Lemma loop_slave_counts (fallthrough : option bool) (u : array)
  (fuel : nat) :
  forall (counts : list Z) (sk : Sketch) (w : World),
    0 <= dataSent sk -> 0 <= dataFailed sk ->
    dataSent sk + Z.of_nat (length counts) < 65536 ->
    dataFailed sk + Z.of_nat (length counts) < 65536 ->
    post (loop_slave fallthrough u fuel counts sk w)
         (fun sk' _ =>
            dataSent sk' + dataFailed sk'
            = dataSent sk + dataFailed sk + Z.of_nat (length counts) /\
            dataSent sk <= dataSent sk' /\
            dataFailed sk <= dataFailed sk' /\
            forall i,
              finalData sk' i
              = match rev counts with
                | [] => finalData sk i
                | count :: _ =>
                    if (0 <=? i) && (i <? MAXBYTES) then to_byte (count + i)
                    else finalData sk i
                end).
Proof.
  induction counts as [|count counts IH]; intros sk w Hs Hf Hsn Hfn.
  - cbn [loop_slave post length rev]. repeat split; try lia.
  - cbn [loop_slave length] in *.
    destruct (sendData fallthrough u fuel (loop_fill (finalData sk) count)
                (to_byte (1 + Z.rem count MAXBYTES)) PORT2 w)
      as [ok w1| |]; cbn [bind post]; try exact I.
    set (sk1 := if ok then _ else _).
    assert (H1 : dataSent sk1 + dataFailed sk1
                 = dataSent sk + dataFailed sk + 1 /\
                 dataSent sk <= dataSent sk1 <= dataSent sk + 1 /\
                 dataFailed sk <= dataFailed sk1 <= dataFailed sk + 1 /\
                 finalData sk1 = loop_fill (finalData sk) count).
    { subst sk1. unfold to_uint.
      destruct ok; cbn [dataSent dataFailed finalData];
        rewrite Z.mod_small by lia; repeat split; lia. }
    destruct H1 as (Hsum & Hs1 & Hf1 & Hfd).
    apply post_weaken with
      (Q1 := fun sk' _ =>
               dataSent sk' + dataFailed sk'
               = dataSent sk1 + dataFailed sk1 + Z.of_nat (length counts) /\
               dataSent sk1 <= dataSent sk' /\
               dataFailed sk1 <= dataFailed sk' /\
               forall i,
                 finalData sk' i
                 = match rev counts with
                   | [] => finalData sk1 i
                   | c :: _ =>
                       if (0 <=? i) && (i <? MAXBYTES) then to_byte (c + i)
                       else finalData sk1 i
                   end).
    + apply IH; lia.
    + intros sk' w' (Ha & Hb & Hc & Hd). repeat split; try lia.
      intros i. rewrite Hd, Hfd. cbn [rev].
      destruct (rev counts) as [|c l] eqn:Er.
      * cbn [app]. apply loop_fill_cells.
      * cbn [app]. destruct ((0 <=? i) && (i <? MAXBYTES)) eqn:Ei;
          [reflexivity|].
        now rewrite loop_fill_cells, Ei.
Qed.

(** X11.  The counters of the sending driver.  Whatever the line does, a
    pass of [loop] in slave mode that returns has made [MAXBYTES] attempts
    and counted each of them once, as sent or as failed: no counter went
    down and their sum grew by [MAXBYTES] (as long as neither wraps), and
    [finalData] is left with the last test pattern, [31 + i] in cell [i],
    the cells from [MAXBYTES] on untouched. *)
Theorem loop_slave_counts_every_attempt_once
  (fallthrough : option bool) (uninit : array) (fuel : nat) (sk : Sketch)
  (w : World) (sk' : Sketch) (w' : World) :
  0 <= dataSent sk -> 0 <= dataFailed sk ->
  dataSent sk + MAXBYTES < 65536 -> dataFailed sk + MAXBYTES < 65536 ->
  loop fallthrough uninit false false fuel sk w = Ret sk' w' ->
  dataSent sk' + dataFailed sk' = dataSent sk + dataFailed sk + MAXBYTES /\
  dataSent sk <= dataSent sk' /\
  dataFailed sk <= dataFailed sk' /\
  forall i,
    finalData sk' i
    = if (0 <=? i) && (i <? MAXBYTES) then MAXBYTES - 1 + i
      else finalData sk i.
Proof.
  intros Hs Hf Hsn Hfn E. unfold loop in E. cbn [negb] in E.
  assert (Hl : length (for_indices 0 MAXBYTES 1) = 32%nat) by reflexivity.
  pose proof (loop_slave_counts fallthrough uninit fuel
                (for_indices 0 MAXBYTES 1) sk w Hs Hf) as H.
  rewrite Hl in H. unfold MAXBYTES in Hsn, Hfn.
  specialize (H ltac:(lia) ltac:(lia)).
  rewrite E in H. cbn [post] in H. destruct H as (Ha & Hb & Hc & Hd).
  unfold MAXBYTES at 1. repeat split; try lia.
  intros i. rewrite Hd.
  assert (Hr : rev (for_indices 0 MAXBYTES 1)
               = 31 :: rev (for_indices 0 31 1)) by reflexivity.
  rewrite Hr. destruct (0 <=? i) eqn:E1; [|reflexivity].
  destruct (i <? MAXBYTES) eqn:E2; [|reflexivity]. cbn [andb].
  apply Z.leb_le in E1. apply Z.ltb_lt in E2. unfold MAXBYTES in *.
  rewrite to_byte_small; lia.
Qed.

Lemma loop_slave_on_echoes (fallthrough : option bool) (u : array)
  (extra : nat) :
  forall (counts : list Z) (sk : Sketch) (w : World) (rest : list slot),
    Forall (fun c => 0 <= c < MAXBYTES) counts ->
    0 <= dataSent sk ->
    dataSent sk + Z.of_nat (length counts) < 65536 ->
    rx rs485Port2 w
    = map Byte (flat_map (fun c => wire (driver_payload c)) counts) ++ rest ->
    exists sk' w',
      loop_slave fallthrough u (S (S (67 + extra))) counts sk w
      = Ret sk' w' /\
      dataSent sk' = dataSent sk + Z.of_nat (length counts) /\
      dataFailed sk' = dataFailed sk /\
      tx rs485Port2 w'
      = tx rs485Port2 w
        ++ flat_map (fun c => wire (driver_payload c) ++ [ACK]) counts /\
      rx rs485Port2 w' = rest /\
      tx rs485Port1 w' = tx rs485Port1 w.
Proof.
  induction counts as [|count counts IH]; intros sk w rest Hc Hs Hn Hrx.
  - exists sk, w. cbn [loop_slave length flat_map map app] in *.
    rewrite app_nil_r. repeat split; [lia | exact Hrx].
  - inversion Hc as [|c l Hc1 Hc2]; subst c l.
    cbn [loop_slave]. rewrite driver_qty by exact Hc1.
    cbn [flat_map] in Hrx. rewrite map_app, <- app_assoc in Hrx.
    pose proof (driver_slice (finalData sk) count Hc1) as Hsl.
    destruct (driver_payload_small count Hc1) as [Hlen Hsm].
    destruct (small_clean (driver_payload count)) as [Hb Hcl];
      [intros Hnil; rewrite Hnil in Hlen; cbn in Hlen;
       unfold MAXBYTES in Hc1; lia
      | exact Hsm |].
    change PORT2 with (port_of rs485Port2).
    destruct (sendData_run_on_echo fallthrough u
                (loop_fill (finalData sk) count) (count + 1) rs485Port2
                (map Byte (flat_map (fun c => wire (driver_payload c)) counts)
                   ++ rest) w
                (67 - length (wire (driver_payload count)) + extra))
      as (w1 & Hrun & Htx & Hrx1 & Ho).
    + unfold MAXBYTES in Hc1. lia.
    + now rewrite Hsl.
    + now rewrite Hsl.
    + now rewrite Hsl.
    + rewrite Hsl in Hrun, Htx.
      replace (S (S (67 + extra)))
        with (S (S (length (wire (driver_payload count))
                    + (67 - length (wire (driver_payload count)) + extra))))
        by (rewrite wire_length, Hlen; unfold MAXBYTES in Hc1; lia).
      rewrite Hrun. cbn [bind].
      replace (S (S (length (wire (driver_payload count))
                     + (67 - length (wire (driver_payload count)) + extra))))
        with (S (S (67 + extra)))
        by (rewrite wire_length, Hlen; unfold MAXBYTES in Hc1; lia).
      cbn [length] in Hn.
      destruct (IH (mkSketch (loop_fill (finalData sk) count)
                      (to_uint (dataSent sk + 1)) (dataFailed sk))
                  (delay sendDelay w1) rest Hc2)
        as (sk' & w' & Hl & Hds & Hdf & Htx' & Hrx' & Ht1).
      * cbn [dataSent]. unfold to_uint. rewrite Z.mod_small; lia.
      * cbn [dataSent]. unfold to_uint. rewrite Z.mod_small; lia.
      * unfold delay. now rewrite rx_elapse.
      * exists sk', w'. split; [exact Hl|].
        cbn [dataSent dataFailed] in Hds, Hdf. unfold to_uint in Hds.
        rewrite Z.mod_small in Hds by lia.
        unfold delay in Htx', Ht1. rewrite tx_elapse in Htx', Ht1.
        repeat split.
        -- cbn [length]. lia.
        -- exact Hdf.
        -- rewrite Htx', Htx. cbn [flat_map]. now rewrite <- !app_assoc.
        -- exact Hrx'.
        -- rewrite Ht1. apply Ho. discriminate.
Qed.

Lemma loop_slave_counts_every_attempt_once_witness :
  exists sk' w',
    loop None zeros false false (S (S (67 + 0))) (mkSketch zeros 0 0)
      (lines [] (map Byte (flat_map (fun c => wire (driver_payload c))
                             (for_indices 0 MAXBYTES 1)) ++ []))
    = Ret sk' w' /\
    dataSent sk' + dataFailed sk' = 0 + 0 + MAXBYTES /\
    finalData sk' 5 = MAXBYTES - 1 + 5.
Proof.
  destruct (loop_slave_on_echoes None zeros 0 (for_indices 0 MAXBYTES 1)
              (mkSketch zeros 0 0)
              (lines [] (map Byte (flat_map (fun c => wire (driver_payload c))
                                     (for_indices 0 MAXBYTES 1)) ++ []))
              [])
    as (sk' & w' & E & _).
  - apply Forall_forall. intros c Hc. now apply for_indices_In in Hc.
  - cbn. lia.
  - reflexivity.
  - reflexivity.
  - exists sk', w'. split; [exact E|].
    destruct (loop_slave_counts_every_attempt_once None zeros (S (S (67 + 0)))
                (mkSketch zeros 0 0)
                (lines [] (map Byte
                             (flat_map (fun c => wire (driver_payload c))
                                (for_indices 0 MAXBYTES 1)) ++ []))
                sk' w'
                ltac:(cbn; lia) ltac:(cbn; lia)
                ltac:(unfold MAXBYTES; cbn; lia)
                ltac:(unfold MAXBYTES; cbn; lia) E) as (H1 & _ & _ & H2).
    split; [exact H1 | exact (H2 5)].
Defined.

(** X12.  The sending driver against a faithful bus.  At attempt [count]
    the driver sends the [count + 1] bytes [count, ..., 2 * count].  If the
    line of port 2 echoes each of the 32 frames back byte for byte, every
    attempt succeeds: [loop] returns with [dataSent] 32 higher and
    [dataFailed] as it was, having transmitted each frame followed by one
    [ACK], in order, and nothing on port 1; what the line held after the
    echoes is still unread. *)
Theorem loop_slave_succeeds_on_faithful_echoes
  (fallthrough : option bool) (uninit : array) (extra : nat) (sk : Sketch)
  (w : World) (rest : list slot) :
  0 <= dataSent sk -> dataSent sk + MAXBYTES < 65536 ->
  rx rs485Port2 w
  = map Byte (flat_map (fun c => wire (driver_payload c))
                (for_indices 0 MAXBYTES 1)) ++ rest ->
  exists sk' w',
    loop fallthrough uninit false false (S (S (Z.to_nat dataLength + extra)))
      sk w = Ret sk' w' /\
    dataSent sk' = dataSent sk + MAXBYTES /\
    dataFailed sk' = dataFailed sk /\
    tx rs485Port2 w'
    = tx rs485Port2 w
      ++ flat_map (fun c => wire (driver_payload c) ++ [ACK])
           (for_indices 0 MAXBYTES 1) /\
    rx rs485Port2 w' = rest /\
    tx rs485Port1 w' = tx rs485Port1 w.
Proof.
  intros Hs Hn Hrx. unfold loop. cbn [negb].
  change (Z.to_nat dataLength) with 67%nat.
  destruct (loop_slave_on_echoes fallthrough uninit extra
              (for_indices 0 MAXBYTES 1) sk w rest)
    as (sk' & w' & Hl & Hds & Hdf & Htx & Hrx' & Ht1).
  - apply Forall_forall. intros c Hc. now apply for_indices_In in Hc.
  - exact Hs.
  - change (length (for_indices 0 MAXBYTES 1)) with 32%nat.
    unfold MAXBYTES in Hn. lia.
  - exact Hrx.
  - exists sk', w'. split; [exact Hl|].
    change (length (for_indices 0 MAXBYTES 1)) with 32%nat in Hds.
    unfold MAXBYTES at 1. repeat split; assumption.
Qed.

Lemma loop_slave_succeeds_on_faithful_echoes_witness :
  exists sk' w',
    loop None zeros false false (S (S (Z.to_nat dataLength + 0)))
      (mkSketch zeros 0 0)
      (lines [] (map Byte (flat_map (fun c => wire (driver_payload c))
                             (for_indices 0 MAXBYTES 1)) ++ []))
    = Ret sk' w' /\
    dataSent sk' = dataSent (mkSketch zeros 0 0) + MAXBYTES /\
    dataFailed sk' = dataFailed (mkSketch zeros 0 0).
Proof.
  destruct (loop_slave_succeeds_on_faithful_echoes None zeros 0
              (mkSketch zeros 0 0)
              (lines [] (map Byte (flat_map (fun c => wire (driver_payload c))
                                     (for_indices 0 MAXBYTES 1)) ++ []))
              [] ltac:(cbn; lia) ltac:(unfold MAXBYTES; cbn; lia) eq_refl)
    as (sk' & w' & H1 & H2 & H3 & _).
  exists sk', w'. repeat split; assumption.
Defined.

Lemma receiveData_array (fallthrough : option bool) (u : array) (fuel : nat)
  (data : array) (maxDataLength port : Z) (w : World) :
  post (receiveData fallthrough u fuel data maxDataLength port w)
       (fun r _ =>
          (fst r = false -> snd r = data) /\
          (fst r = true ->
           exists count t,
             3 <= count < 256 /\
             t 0 = START /\ t (count - 1) = END /\ t (count - 2) = END /\
             snd r = receiveData_extract t data count)).
Proof.
  unfold receiveData.
  destruct (call_checkPortHasData fallthrough port w) as [has w1| |];
    cbn [bind post]; try exact I.
  destruct has; [|cbn; split; [reflexivity | discriminate]].
  pose proof (readBuffer_count fallthrough fuel u maxDataLength port w1)
    as Hc.
  destruct (readBuffer fallthrough fuel u maxDataLength port w1)
    as [[count t] w2| |]; cbn [bind post]; try exact I.
  cbn [post fst snd] in Hc.
  destruct (0 <? count) eqn:E0; [|cbn; split; [reflexivity | discriminate]].
  apply Z.ltb_lt in E0. destruct Hc as [Hc|(Hc & Hs & He1 & He2)]; [lia|].
  apply post_weaken with
    (Q1 := fun r (_ : World) =>
             (fst r = true -> snd r = receiveData_extract t data count) /\
             (fst r = false -> snd r = data)).
  - apply receiveData_wait_result.
  - intros r w' [Ht Hf]. split; [exact Hf|]. intros Hb.
    exists count, t. repeat (split; [assumption|]). now apply Ht.
Qed.

Lemma loop_master_wait_result (fallthrough : option bool) (u : array) :
  forall (fuel : nat) (data : array) (w : World),
    post (loop_master_wait fallthrough u fuel data w)
         (fun out _ =>
            exists count t,
              3 <= count < 256 /\
              t 0 = START /\ t (count - 1) = END /\ t (count - 2) = END /\
              out = receiveData_extract t data count).
Proof.
  induction fuel as [|fuel IH]; intros data w; cbn [loop_master_wait];
    [exact I|].
  pose proof (receiveData_array fallthrough u fuel data dataLength PORT1 w)
    as H.
  destruct (receiveData fallthrough u fuel data dataLength PORT1 w)
    as [[ok data1] w1| |]; cbn [bind post]; try exact I.
  cbn [post fst snd] in H. destruct H as [Hf Ht]. destruct ok.
  - cbn [post]. now apply Ht.
  - rewrite (Hf eq_refl). apply IH.
Qed.

(** X13.  The receiving driver.  A pass of [loop] in master mode returns
    only after a [receiveData] on port 1 that succeeded, and the attempts
    that failed before it have left no trace: [finalData] is the extraction
    into [finalData] as it was at entry of one array that passed the
    framing checks of [readBuffer], and the two counters are untouched. *)
Theorem loop_master_returns_one_verified_frame
  (fallthrough : option bool) (uninit : array) (fuel : nat) (sk : Sketch)
  (w : World) (sk' : Sketch) (w' : World) :
  loop fallthrough uninit false true fuel sk w = Ret sk' w' ->
  dataSent sk' = dataSent sk /\
  dataFailed sk' = dataFailed sk /\
  exists count t,
    3 <= count < 256 /\
    t 0 = START /\ t (count - 1) = END /\ t (count - 2) = END /\
    finalData sk' = receiveData_extract t (finalData sk) count.
Proof.
  intros E. unfold loop in E.
  pose proof (loop_master_wait_result fallthrough uninit fuel (finalData sk)
                w) as H.
  destruct (loop_master_wait fallthrough uninit fuel (finalData sk) w)
    as [out w1| |]; cbn [bind] in E; try discriminate E.
  cbn [post] in H. inversion E; subst sk' w'.
  cbn [dataSent dataFailed finalData]. auto.
Qed.

Lemma loop_master_returns_one_verified_frame_witness :
  exists sk' w',
    loop None zeros false true 20 (mkSketch zeros 3 4)
      (lines (map Byte [START; 9; 0; NAK; START; 4; 251; END; END; ACK]) [])
    = Ret sk' w' /\
    dataSent sk' = 3 /\ dataFailed sk' = 4 /\
    exists count t,
      3 <= count < 256 /\
      t 0 = START /\ t (count - 1) = END /\ t (count - 2) = END /\
      finalData sk' = receiveData_extract t zeros count.
Proof.
  destruct (loop None zeros false true 20 (mkSketch zeros 3 4)
              (lines (map Byte [START; 9; 0; NAK; START; 4; 251; END; END;
                                ACK]) []))
    as [sk' w'| |] eqn:E.
  - exists sk', w'. split; [reflexivity|].
    exact (loop_master_returns_one_verified_frame None zeros 20
             (mkSketch zeros 3 4) _ sk' w' E).
  - vm_compute in E. discriminate E.
  - vm_compute in E. discriminate E.
Defined.

(** ** setup and the direction lines *)

Section DriverInvariant.

Variable fallthrough : option bool.
Variable uninit : array.
Variable P : World -> Prop.
Hypothesis P_elapse : forall us w, P w -> P (elapse us w).
Hypothesis P_set_rx : forall s l w, P w -> P (set_rx s l w).
Hypothesis P_receive :
  forall pin w, P w -> P (digitalWrite pin RECEIVE_MODE w).
Hypothesis P_sendBuffer :
  forall data n port w, P w -> P (sendBuffer data n port w).
Hypothesis P_sendByte : forall b port w, P w -> P (sendByte b port w).

Lemma inv_eccoTest_step (port : Z) (st : Z * bool) (w : World) :
  P w -> post (eccoTest_step fallthrough port st w) (fun _ w' => P w').
Proof.
  intros H. unfold eccoTest_step. destruct st as [tempCount sendMode].
  apply post_bind with (Q1 := fun _ w' => P w').
  - now apply inv_call_checkPortHasData.
  - intros has w1 H1.
    destruct (truthy (Z.land (Z.b2z has) (Z.b2z (negb sendMode)))).
    + assert (Hr : P (snd (readByte port w1)))
        by (apply inv_readByte; auto).
      destruct (readByte port w1) as [b w2]. exact Hr.
    + destruct sendMode; cbn [post]; auto.
Qed.

Lemma inv_eccoTest_iterate (port : Z) :
  forall (k : nat) (st : Z * bool) (w : World),
    P w -> post (eccoTest_iterate fallthrough k port st w) (fun _ w' => P w').
Proof.
  induction k as [|k IH]; intros st w H; cbn [eccoTest_iterate];
    [exact H|].
  apply post_bind with (Q1 := fun _ w' => P w').
  - now apply inv_eccoTest_step.
  - intros st1 w1 H1. now apply IH.
Qed.

Lemma inv_loop_master_wait :
  forall (fuel : nat) (data : array) (w : World),
    P w ->
    post (loop_master_wait fallthrough uninit fuel data w) (fun _ w' => P w').
Proof.
  induction fuel as [|fuel IH]; intros data w H; cbn [loop_master_wait];
    [exact I|].
  apply post_bind with (Q1 := fun _ w' => P w').
  - now apply inv_receiveData.
  - intros [ok data1] w1 H1. destruct ok; [exact H1 | now apply IH].
Qed.

Lemma inv_loop_slave (fuel : nat) :
  forall (counts : list Z) (sk : Sketch) (w : World),
    P w ->
    post (loop_slave fallthrough uninit fuel counts sk w) (fun _ w' => P w').
Proof.
  induction counts as [|count counts IH]; intros sk w H; cbn [loop_slave];
    [exact H|].
  apply post_bind with (Q1 := fun _ w' => P w').
  - now apply inv_sendData.
  - intros ok w1 H1. apply IH. now apply P_elapse.
Qed.

End DriverInvariant.

Lemma eccoTest_no_return (fallthrough : option bool) (fuel : nat) (port : Z)
  (w : World) :
  post (eccoTest fallthrough fuel port w) (fun _ _ => False).
Proof.
  unfold eccoTest.
  now destruct (eccoTest_iterate fallthrough fuel port (0, false) w).
Qed.

Lemma setup_receive (q : Z) (w : World) : in_transmit q (setup w) = false.
Proof.
  unfold setup, begin, pinMode, in_transmit, enable_line, digitalWrite.
  cbn [PORT1_ENABLE PORT2_ENABLE Z.eqb Pos.eqb en1 en2].
  destruct (q =? PORT1); [reflexivity|]. now destruct (q =? PORT2).
Qed.

Lemma elapse_keeps_receive (q us : Z) (w : World) :
  in_transmit q w = false -> in_transmit q (elapse us w) = false.
Proof. apply in_transmit_levels; auto. Qed.

Lemma set_rx_keeps_receive (q : Z) (s : serial) (l : list slot) (w : World) :
  in_transmit q w = false -> in_transmit q (set_rx s l w) = false.
Proof. apply in_transmit_levels; destruct s; auto. Qed.

(** X14.  [setup] and the direction lines.  Whatever the levels of the two
    enable lines at power-up, after [setup] both transceivers listen, and
    they listen again at the end of every pass of [loop] in slave or in
    master mode, and after any number of rounds of the echo test, on either
    port.  In debug mode [loop] does not return. *)
Theorem setup_and_loop_leave_both_lines_listening
  (fallthrough : option bool) (uninit : array) (w : World) (q : Z) :
  in_transmit q (setup w) = false /\
  (forall debug master fuel sk sk' w',
      loop fallthrough uninit debug master fuel sk (setup w) = Ret sk' w' ->
      debug = false /\ in_transmit q w' = false) /\
  (forall k port st st' w',
      eccoTest_iterate fallthrough k port st (setup w) = Ret st' w' ->
      in_transmit q w' = false).
Proof.
  split; [apply setup_receive|]. split.
  - intros debug master fuel sk sk' w' E. unfold loop in E.
    destruct debug.
    + pose proof (eccoTest_no_return fallthrough fuel PORT1 (setup w)) as H.
      destruct (eccoTest fallthrough fuel PORT1 (setup w)) as [[] w1| |];
        cbn [bind post] in *; [contradiction | discriminate E
                              | discriminate E].
    + split; [reflexivity|]. destruct master.
      * assert (H : post (loop_master_wait fallthrough uninit fuel
                            (finalData sk) (setup w))
                      (fun _ w0 => in_transmit q w0 = false))
          by (apply inv_loop_master_wait;
              auto using elapse_keeps_receive, set_rx_keeps_receive,
                digitalWrite_keeps_receive, sendBuffer_keeps_receive,
                sendByte_keeps_receive, setup_receive).
        destruct (loop_master_wait fallthrough uninit fuel (finalData sk)
                    (setup w)) as [out w1| |]; cbn [bind] in E;
          try discriminate E.
        inversion E; subst. exact H.
      * cbn [negb] in E.
        refine (post_ret _ (fun _ w0 => in_transmit q w0 = false) sk' w' _ E).
        apply inv_loop_slave;
          auto using elapse_keeps_receive, set_rx_keeps_receive,
            digitalWrite_keeps_receive, sendBuffer_keeps_receive,
            sendByte_keeps_receive, setup_receive.
  - intros k port st st' w' E.
    refine (post_ret _ (fun _ w0 => in_transmit q w0 = false) st' w' _ E).
    apply inv_eccoTest_iterate;
      auto using elapse_keeps_receive, set_rx_keeps_receive,
        digitalWrite_keeps_receive, sendBuffer_keeps_receive,
        sendByte_keeps_receive, setup_receive.
Qed.

(** ** serialPrintBuffer *)

(** X15.  What [serialPrintBuffer] prints, [n] being the length as the
    byte parameter holds it (the argument modulo 256).  For a positive
    [n]: the cells below [n] in order, a comma after each but the last, and
    one line end after the last.  For [n] zero it prints nothing, not even
    the line end. *)
Theorem serialPrintBuffer_separates_with_commas (data : array)
  (numBytes : Z) :
  let n := to_byte numBytes in
  0 <= n <= 255 /\
  (n = 0 -> serialPrintBuffer data numBytes = []) /\
  (0 < n ->
   serialPrintBuffer data numBytes
   = flat_map (fun d => [Number d; Comma]) (slice data (Z.to_nat (n - 1)))
     ++ [Number (data (n - 1)); NewLine]).
Proof.
  intros n.
  assert (Hn : 0 <= n <= 255)
    by (subst n; unfold to_byte;
        pose proof (Z.mod_pos_bound numBytes 256); lia).
  split; [exact Hn|].
  unfold serialPrintBuffer. cbv zeta. fold n. clearbody n.
  rename numBytes into arg, n into numBytes.
  rewrite for_indices_count. split; intros H.
  - replace (Z.to_nat numBytes) with 0%nat by lia. reflexivity.
  - replace (Z.to_nat numBytes) with (S (Z.to_nat (numBytes - 1))) by lia.
    rewrite seq_S, map_app, flat_map_app. cbn [Nat.add map flat_map].
    rewrite Z2Nat.id by lia. rewrite Z.eqb_refl, app_nil_r. f_equal.
    unfold slice. rewrite !flat_map_concat_map, !map_map. f_equal.
    apply map_ext_in. intros k Hk. apply in_seq in Hk.
    replace (Z.of_nat k =? numBytes - 1) with false
      by (symmetry; apply Z.eqb_neq; lia).
    reflexivity.
Qed.

(** ** A payload the framing cannot carry *)

(** The frame without its last byte. *)
Lemma wire_cut (p : list Z) :
  removelast (wire p)
  = START :: (flat_map (fun d => [d; inverse d]) p ++ [END]) /\
  wire p = removelast (wire p) ++ [END] /\
  length (removelast (wire p)) = (2 * length p + 2)%nat.
Proof.
  assert (H : wire p
              = (START :: (flat_map (fun d => [d; inverse d]) p ++ [END]))
                ++ [END]).
  { unfold wire. cbn [app]. now rewrite <- app_assoc. }
  assert (Hc : removelast (wire p)
               = START :: (flat_map (fun d => [d; inverse d]) p ++ [END])).
  { rewrite H at 1. apply removelast_last. }
  split; [exact Hc|]. split.
  - rewrite Hc. exact H.
  - rewrite Hc. cbn [length]. rewrite length_app, pairs_length.
    cbn [length]. lia.
Qed.

Lemma cut_cells (u : array) (p : list Z) (j : Z) :
  0 <= j < 2 * Z.of_nat (length p) + 2 ->
  store_all u 0 (removelast (wire p)) j = store_all u 0 (wire p) j.
Proof.
  intros Hj. destruct (wire_cut p) as (_ & Hw & Hlen).
  remember (removelast (wire p)) as c eqn:Ec.
  rewrite <- (Z2Nat.id j) by lia.
  change (Z.of_nat (Z.to_nat j)) with (0 + Z.of_nat (Z.to_nat j)).
  rewrite store_all_nth by lia.
  rewrite store_all_nth by (rewrite wire_length; lia).
  rewrite Hw. now rewrite app_nth1 by lia.
Qed.

(** When no payload byte is [END] and the last one is the complement of
    [END], the complement of the last byte and the first [END] of the
    terminator end the accumulation one byte early, and the framing checks
    accept what was read. *)
Lemma cut_accumulation (u : array) (p : list Z) (maxDataLength : Z) :
  (1 <= length p <= 126)%nat ->
  forallb (fun d => negb (d =? END)) p = true ->
  last p 0 = inverse END ->
  2 * Z.of_nat (length p) + 2 <= maxDataLength + 1 ->
  accumulation_ends_at maxDataLength (store_all u 0 (removelast (wire p)))
    (2 * Z.of_nat (length p) + 2) = true /\
  readBuffer_check (store_all u 0 (removelast (wire p)))
    (2 * Z.of_nat (length p) + 2) = 2 * Z.of_nat (length p) + 2.
Proof.
  intros Hp Hno Hlast Hmax.
  destruct (wire_last_pair u p Hp) as (Hl0 & Hl1 & _).
  rewrite Hlast in Hl0. change (inverse (inverse END)) with END in Hl0.
  set (n := Z.of_nat (length p)) in *.
  set (t := store_all u 0 (removelast (wire p))).
  assert (Hcell : forall j, 0 <= j < 2 * n + 2 ->
            t j = store_all u 0 (wire p) j)
    by (intros j Hj; apply cut_cells; fold n; lia).
  assert (Ht0 : t 0 = START).
  { rewrite Hcell by (subst n; lia).
    now rewrite wire_cells by (fold n; lia). }
  assert (Hquiet : forall k, 0 <= k < 2 * n + 2 -> double_END t k = false).
  { intros k Hk.
    rewrite <- (wire_quiet u p k Hp Hno) by (fold n; lia).
    unfold double_END. destruct (1 <? k) eqn:E1; [|reflexivity].
    apply Z.ltb_lt in E1. now rewrite !Hcell by lia. }
  split.
  - unfold accumulation_ends_at. apply andb_true_intro. split.
    + apply forallb_forall. intros k Hk. apply for_indices_In in Hk.
      unfold keeps_reading. rewrite Hquiet by lia.
      replace (k <? maxDataLength + 1) with true
        by (symmetry; apply Z.ltb_lt; lia).
      reflexivity.
    + unfold keeps_reading, double_END.
      replace (1 <? 2 * n + 2) with true
        by (symmetry; apply Z.ltb_lt; subst n; lia).
      replace (2 * n + 2 - 2) with (2 * n) by lia.
      replace (2 * n + 2 - 1) with (2 * n + 1) by lia.
      rewrite !Hcell by (subst n; lia). rewrite Hl0, Hl1, Z.eqb_refl.
      cbn [andb negb]. now rewrite Bool.andb_false_r.
  - unfold readBuffer_check.
    replace (2 * n + 2 - 2) with (2 * n) by lia.
    replace (2 * n + 2 - 1) with (2 * n + 1) by lia.
    rewrite Ht0, !Hcell by (subst n; lia). rewrite Hl0, Hl1.
    now rewrite !Z.eqb_refl.
Qed.

(** X16.  A payload the framing cannot carry.  Let no byte of the payload
    be [END] and its last byte be the complement of [END] (0x88): then the
    complement of that byte in the frame is itself [END], and with the
    first byte of the terminator it ends the reading one byte early.
    [receiveData], given such a frame, echoes the frame without its last
    byte, takes the last byte of the frame for the sender's response and
    returns false with the caller's array untouched, whatever follows on
    the line. *)
Theorem receiveData_cuts_frame_ending_in_complement_of_END
  (fallthrough : option bool) (uninit data : array) (maxDataLength : Z)
  (s : serial) (p : list Z) (rest : list slot) (w : World) (extra : nat) :
  (1 <= length p <= 126)%nat ->
  Forall is_byte p ->
  forallb (fun d => negb (d =? END)) p = true ->
  last p 0 = inverse END ->
  2 * Z.of_nat (length p) + 2 <= maxDataLength + 1 ->
  rx s w = map Byte (wire p) ++ rest ->
  exists w',
    receiveData fallthrough uninit (S (length (wire p) + extra)) data
      maxDataLength (port_of s) w = Ret (false, data) w' /\
    tx s w' = tx s w ++ removelast (wire p) /\
    rx s w' = rest.
Proof.
  intros Hp Hb Hno Hlast Hmax Hrx.
  destruct (wire_cut p) as (Hc & Hw & Hlen).
  destruct (cut_accumulation uninit p maxDataLength Hp Hno Hlast Hmax)
    as [Hacc Hchk].
  pose proof (wire_bytes p Hb) as Hwb.
  remember (removelast (wire p)) as c eqn:Ec.
  remember (flat_map (fun d => [d; inverse d]) p ++ [END]) as c0 eqn:Ec0.
  rewrite Hw in Hrx, Hwb. apply Forall_app in Hwb. destruct Hwb as [Hcb _].
  assert (Hfuel : length (wire p) = S (length c)).
  { rewrite Hw at 1. rewrite length_app. cbn [length]. lia. }
  clear Ec. subst c. rewrite map_app, <- app_assoc in Hrx.
  cbn [map app] in Hrx. unfold receiveData.
  rewrite (poll_pending fallthrough s START
             (map Byte c0 ++ Byte END :: rest) w Hrx).
  cbn [bind].
  destruct (readBuffer_on_line fallthrough s START (map Byte c0)
              (Byte END :: rest) uninit maxDataLength
              (digitalWrite (enable_pin s) RECEIVE_MODE w) (S extra))
    as (w2 & Hrest & Hrun).
  - now rewrite rx_digitalWrite.
  - apply ends_with_byte_map_Byte.
  - now rewrite bytes_of_map_Byte.
  - rewrite bytes_of_map_Byte. cbn [length] in Hlen |- *. lia.
  - lia.
  - rewrite bytes_of_map_Byte.
    replace (Z.of_nat (length (START :: c0)))
      with (2 * Z.of_nat (length p) + 2) by lia.
    exact Hacc.
  - rewrite bytes_of_map_Byte in Hrun.
    replace (Z.of_nat (length (START :: c0)))
      with (2 * Z.of_nat (length p) + 2) in Hrun by lia.
    rewrite Hchk in Hrun.
    pose proof (readBuffer_keeps_tx fallthrough
                  (S (length (Byte START :: map Byte c0) + S extra)) uninit
                  maxDataLength (port_of s)
                  (digitalWrite (enable_pin s) RECEIVE_MODE w) s) as Htx2.
    rewrite Hrun in Htx2. cbn [post] in Htx2.
    rewrite tx_digitalWrite in Htx2.
    replace (S (length (wire p) + extra))
      with (S (length (Byte START :: map Byte c0) + S extra))
      by (rewrite Hfuel; cbn [length]; rewrite length_map; lia).
    rewrite Hrun. cbn [bind].
    replace (0 <? 2 * Z.of_nat (length p) + 2) with true
      by (symmetry; apply Z.ltb_lt; lia).
    set (t := store_all uninit 0 (START :: c0)) in *.
    set (count := 2 * Z.of_nat (length p) + 2) in *.
    set (w3 := sendBuffer t count (port_of s) w2).
    assert (Hrx3 : rx s (delay 1 w3)
                   = map Byte (repeat 0 0) ++ Byte END :: rest).
    { unfold delay. rewrite rx_elapse. subst w3.
      now destruct (sendBuffer_lines s s t count w2) as [-> _]. }
    replace (S (length (Byte START :: map Byte c0) + S extra))
      with (S (0 + (length (Byte START :: map Byte c0) + S extra)))
      by lia.
    destruct (receiveData_wait_on_response fallthrough t count data s END
                rest (millis (delay 1 w3))
                (length (Byte START :: map Byte c0) + S extra)
                ltac:(unfold is_byte, END; lia)
                ltac:(unfold END; lia) 0%nat
                (delay 1 w3) Hrx3 (deadline_ahead _))
      as (w' & Hwait & Hrest' & Htx').
    exists w'. split; [exact Hwait|]. split; [|exact Hrest'].
    rewrite Htx'. unfold delay. rewrite tx_elapse. subst w3.
    destruct (sendBuffer_lines s s t count w2) as [_ ->].
    rewrite map_for_indices, Htx2. f_equal. subst t count.
    replace (Z.to_nat (2 * Z.of_nat (length p) + 2))
      with (length (START :: c0)) by lia.
    apply store_all_slice.
Qed.

Lemma receiveData_cuts_frame_ending_in_complement_of_END_witness :
  exists w',
    receiveData None zeros (S (length (wire [4; 136]) + 0)) zeros dataLength
      (port_of rs485Port1)
      (lines (map Byte (wire [4; 136]) ++ [Byte ACK]) [])
    = Ret (false, zeros) w' /\
    tx rs485Port1 w'
    = tx rs485Port1 (lines (map Byte (wire [4; 136]) ++ [Byte ACK]) [])
      ++ removelast (wire [4; 136]) /\
    rx rs485Port1 w' = [Byte ACK].
Proof.
  apply (receiveData_cuts_frame_ending_in_complement_of_END None zeros zeros
           dataLength rs485Port1 [4; 136] [Byte ACK]
           (lines (map Byte (wire [4; 136]) ++ [Byte ACK]) []) 0).
  - cbn. lia.
  - repeat constructor; unfold is_byte; lia.
  - reflexivity.
  - reflexivity.
  - cbn. lia.
  - reflexivity.
Defined.
